(** * dharma-chess: the rules engine of [game.c], embedded and verified

    The C functions of [game.c] are transcribed as Rocq functions over [Z]
    (C [int] and [enum piece] values), with the bit operations written with
    [Z.land], [Z.lor], [Z.lxor] and [Z.lnot].  Sums are not wrapped: the one
    counter without a bound, [halfmove_clock], leaves [int] after 2^31 calls
    of [move] only.

    The asserts of the source are taken as compiled in.  A failed [assert],
    a read outside the board or past the end of a string, and a number that
    [sscanf] cannot store end the program or leave its behaviour undefined:
    functions that can reach one return in the [res] monad below.

    [king_has_way] asks [is_attacked] and [is_attacked_by] whether a king
    castles out of or through check, and these ask [piece_has_way] and so
    [king_has_way] again.  The recursion is written with a bound [d] on its
    depth; [move_returns] proves that it is never more than three deep, so
    that with [d = 3] (or more) the functions below are the C functions. *)

From Stdlib Require Import ZArith List Ascii String Bool Lia.
Import ListNotations.
Local Open Scope Z_scope.

(** ** Outcomes of a C call *)

Inductive error : Type :=
| AssertFailed     (* an [assert] of the source did not hold *)
| OutOfBounds      (* a read outside the board or past the end of a string *)
| Overflow         (* sscanf met a number that does not fit an [int] *)
| DepthExceeded.   (* the nesting bound of the attack test was reached *)

Inductive res (A : Type) : Type :=
| Ok (a : A)
| Err (e : error).
Arguments Ok {A} a.
Arguments Err {A} e.

Definition bind {A B : Type} (m : res A) (k : A -> res B) : res B :=
  match m with
  | Ok a => k a
  | Err e => Err e
  end.

Notation "x <- m ;; k" := (bind m (fun x => k))
  (at level 61, m at next level, right associativity).

(** [assert(c)] *)
Definition assert (c : bool) : res unit :=
  if c then Ok tt else Err AssertFailed.

(** ** [enum piece] (declared in game.h) *)

(** Modelled from the spec: the header game.h that declares [enum piece] is
    not part of the sources.  The spec asks for an encoding with independent
    bitwise extraction of color and type in which KING and QUEEN double as
    castling-side flags, and game.c tests single types with [piece & PAWN],
    [piece & KING] and colors with [piece & color]: every type and every
    color is one bit of its own, [PIECE_TYPE] and [COLOR] are the two masks.
    Which bit stands for which name is the choice of this file. *)
Definition EMPTY : Z := 0.
Definition PAWN : Z := 1.
Definition KNIGHT : Z := 2.
Definition BISHOP : Z := 4.
Definition ROOK : Z := 8.
Definition QUEEN : Z := 16.
Definition KING : Z := 32.
Definition PIECE_TYPE : Z := 63.
Definition WHITE : Z := 64.
Definition BLACK : Z := 128.
Definition COLOR : Z := 192.

(** [enum move_result], in the order of [move_result_text]. *)
Inductive move_result : Type :=
| DEFAULT | CHECK | CHECKMATE | DRAW | ILLEGAL.

Definition move_result_text (r : move_result) : string :=
  match r with
  | DEFAULT => "default"
  | CHECK => "check"
  | CHECKMATE => "checkmate"
  | DRAW => "draw"
  | ILLEGAL => "illegal"
  end.

(** ** [struct square] and [struct game] *)

Record square : Type := mk_square { file : Z; rank : Z }.

(** The board is [board[file][rank]]; [position_history] is an [int] array
    whose length is declared in game.h: both are total maps from indices. *)
Record game : Type := mk_game {
  board : Z -> Z -> Z;
  side_to_move : Z;
  white_castling_avail : Z;
  black_castling_avail : Z;
  en_passant_file : Z;
  halfmove_clock : Z;
  position_history : Z -> Z
}.

(** [a[f][r] = v] *)
Definition set_board (b : Z -> Z -> Z) (f r v : Z) : Z -> Z -> Z :=
  fun f' r' => if (f' =? f) && (r' =? r) then v else b f' r'.

(** [a[i] = v] *)
Definition set_history (h : Z -> Z) (i v : Z) : Z -> Z :=
  fun i' => if i' =? i then v else h i'.

Definition with_board (g : game) (b : Z -> Z -> Z) : game :=
  mk_game b (side_to_move g) (white_castling_avail g) (black_castling_avail g)
          (en_passant_file g) (halfmove_clock g) (position_history g).

Definition piece_at (g : game) (sq : square) : Z :=
  board g (file sq) (rank sq).

(** [c ? BLACK : WHITE] for [c == WHITE] *)
Definition opposite (color : Z) : Z :=
  if color =? WHITE then BLACK else WHITE.

(** The squares in the order of the double loop
    [for (file = 0; file < 8; file++) for (rank = 0; rank < 8; rank++)]. *)
Definition coords : list Z := [0; 1; 2; 3; 4; 5; 6; 7].

Definition all_squares : list square :=
  flat_map (fun f => map (fun r => mk_square f r) coords) coords.

(** A loop over a list that returns [true] at the first element whose body
    does, and [false] when it runs to its end. *)
Fixpoint exists_m {A : Type} (body : A -> res bool) (l : list A) : res bool :=
  match l with
  | [] => Ok false
  | x :: l' => b <- body x ;; if b then Ok true else exists_m body l'
  end.

(** ** Piece geometry *)

Definition pawn_has_way (g : game) (from to : square) : res bool :=
  _ <- assert (Z.land (piece_at g from) PIECE_TYPE =? PAWN) ;;
  let direction := if Z.land (piece_at g from) COLOR =? WHITE then 1 else -1 in
  let advance := rank to - rank from in
  if file from =? file to then
    if negb (piece_at g to =? EMPTY) then Ok false
    else if (advance =? direction) && (piece_at g to =? EMPTY) then Ok true
    else if advance =? 2 * direction then
      let pawn_start_rank := if side_to_move g =? WHITE then 1 else 6 in
      if negb (rank from =? pawn_start_rank) then Ok false
      else if negb (board g (file from) (pawn_start_rank + direction) =? EMPTY)
      then Ok false
      else Ok true
    else Ok false
  else if negb (Z.abs (file from - file to) =? 1) then Ok false
  else if negb (advance =? direction) then Ok false
  else if negb (piece_at g to =? EMPTY) then Ok true
  else
    let en_passant_rank := if side_to_move g =? WHITE then 5 else 2 in
    if (file to =? en_passant_file g) && (rank to =? en_passant_rank)
    then Ok true
    else Ok false.

Definition knight_has_way (from to : square) : bool :=
  let file_move := Z.abs (file from - file to) in
  let rank_move := Z.abs (rank from - rank to) in
  ((file_move =? 1) && (rank_move =? 2)) || ((file_move =? 2) && (rank_move =? 1)).

(** The body of a [for] loop that walks [n] squares from [(f, r)] in steps of
    [(df, dr)] and returns [false] at the first one that is not empty. *)
Fixpoint way_is_free (g : game) (n : nat) (f r df dr : Z) : bool :=
  match n with
  | O => true
  | S n' =>
      if negb (board g (f + df) (r + dr) =? EMPTY) then false
      else way_is_free g n' (f + df) (r + dr) df dr
  end.

Definition bishop_has_way (g : game) (from to : square) : bool :=
  let file_move := Z.abs (file from - file to) in
  let rank_move := Z.abs (rank from - rank to) in
  if negb (file_move =? rank_move) then false
  else
    let file_direction := if file to >? file from then 1 else -1 in
    let rank_direction := if rank to >? rank from then 1 else -1 in
    (* for (i = 1; i < file_move; i++) *)
    way_is_free g (Z.to_nat (file_move - 1)) (file from) (rank from)
                file_direction rank_direction.

Definition on_board (f r : Z) : bool :=
  (0 <=? f) && (f <=? 7) && (0 <=? r) && (r <=? 7).

(** [for (x = start; x != target; x += step) if (board[..] != EMPTY) return false;]
    from the square [(f, r)] until [(tf, tr)] is met.  A line of the board
    has eight squares, so eight rounds either meet the exit test, find a
    piece, or leave the board. *)
Fixpoint free_until (g : game) (fuel : nat) (f r df dr tf tr : Z) : res bool :=
  match fuel with
  | O => Err OutOfBounds
  | S fuel' =>
      if (f =? tf) && (r =? tr) then Ok true
      else if negb (on_board f r) then Err OutOfBounds
      else if negb (board g f r =? EMPTY) then Ok false
      else free_until g fuel' (f + df) (r + dr) df dr tf tr
  end.

Definition rook_has_way (g : game) (from to : square) : res bool :=
  if negb (file from =? file to) && negb (rank from =? rank to) then Ok false
  else
    free1 <-
      (if file from =? file to then
         let direction := if rank to >? rank from then 1 else -1 in
         free_until g 8 (file from) (rank from + direction) 0 direction
                    (file from) (rank to)
       else Ok true) ;;
    if negb free1 then Ok false
    else
      free2 <-
        (if rank from =? rank to then
           let direction := if file to >? file from then 1 else -1 in
           free_until g 8 (file from + direction) (rank from) direction 0
                      (file to) (rank from)
         else Ok true) ;;
      if negb free2 then Ok false else Ok true.

Definition queen_has_way (g : game) (from to : square) : res bool :=
  _ <- assert (Z.land (piece_at g from) PIECE_TYPE =? QUEEN) ;;
  if bishop_has_way g from to then Ok true else rook_has_way g from to.

(** [king_has_way] calls [is_attacked] and [is_attacked_by], which call
    [piece_has_way] and so [king_has_way] again: the functions of this section
    take the attack test they call as [attacked_by]. *)
Section AttackTest.

Variable attacked_by : game -> square -> Z -> res bool.

Definition is_attacked_with (g : game) (sq : square) : res bool :=
  _ <- assert (negb (piece_at g sq =? EMPTY)) ;;
  let opp_color := opposite (Z.land (piece_at g sq) COLOR) in
  attacked_by g sq opp_color.

Definition king_has_way (g : game) (from to : square) : res bool :=
  _ <- assert (Z.land (piece_at g from) PIECE_TYPE =? KING) ;;
  let file_move := Z.abs (file from - file to) in
  let rank_move := Z.abs (rank from - rank to) in
  if (file_move =? 2) && (rank_move =? 0) then
    let castling_side := if file to >? file from then KING else QUEEN in
    let color := Z.land (piece_at g from) COLOR in
    let avail :=
      if color =? WHITE then white_castling_avail g
      else black_castling_avail g in
    if Z.land castling_side avail =? 0 then Ok false
    else
      let direction := if castling_side =? QUEEN then -1 else 1 in
      let rook := mk_square (if castling_side =? QUEEN then 0 else 7) (rank from) in
      let rook_to := mk_square (if castling_side =? QUEEN then 3 else 5) (rank from) in
      let opp_color := opposite color in
      free <- free_until g 8 (file from + direction) (rank from) direction 0
                         (file rook) (rank from) ;;
      if negb free then Ok false
      else
        a <- is_attacked_with g from ;;
        if a then Ok false
        else
          b <- attacked_by g rook_to opp_color ;;
          if b then Ok false else Ok true
  else if (file_move >? 1) || (rank_move >? 1) then Ok false
  else Ok true.

Definition piece_has_way (g : game) (from to : square) : res bool :=
  let type := Z.land (piece_at g from) PIECE_TYPE in
  if type =? PAWN then pawn_has_way g from to
  else if type =? KNIGHT then Ok (knight_has_way from to)
  else if type =? BISHOP then Ok (bishop_has_way g from to)
  else if type =? ROOK then rook_has_way g from to
  else if type =? QUEEN then queen_has_way g from to
  else if type =? KING then king_has_way g from to
  else Err AssertFailed.

(** The body of [is_attacked_by]. *)
Definition attackers_scan (g : game) (sq : square) (color : Z) : res bool :=
  exists_m
    (fun from =>
       let piece := piece_at g from in
       if negb (Z.land piece color =? 0) then piece_has_way g from sq
       else Ok false)
    all_squares.

End AttackTest.

(** [is_attacked_by], with a bound [d] on how deep its calls nest through
    the castling test of [king_has_way]. *)
Fixpoint is_attacked_by (d : nat) (g : game) (sq : square) (color : Z) : res bool :=
  match d with
  | O => Err DepthExceeded
  | S d' => attackers_scan (is_attacked_by d') g sq color
  end.

Definition is_attacked (d : nat) (g : game) (sq : square) : res bool :=
  is_attacked_with (is_attacked_by d) g sq.

Definition is_checked (d : nat) (g : game) (color : Z) : res bool :=
  match find (fun king => board g (file king) (rank king) =? Z.lor KING color)
             all_squares with
  | Some king => is_attacked d g king
  | None => Err AssertFailed   (* assert(false && "king not found") *)
  end.

(** ** Move legality *)

(** The test of lines 446-463 on the promotion argument. *)
Definition promotion_fits (g : game) (from to : square) (promotion : Z) : bool :=
  let last_rank := if side_to_move g =? WHITE then 7 else 0 in
  if negb (Z.land (piece_at g from) PAWN =? 0) && (rank to =? last_rank)
  then
    let type := Z.land promotion PIECE_TYPE in
    (type =? KNIGHT) || (type =? BISHOP) || (type =? ROOK) || (type =? QUEEN)
  else promotion =? EMPTY.

(** The scratch copy [new_position] of [is_legal_move] (lines 466-470). *)
Definition position_to_check (g : game) (from to : square) : game :=
  mk_game
    (set_board (set_board (board g) (file to) (rank to) (piece_at g from))
               (file from) (rank from) EMPTY)
    (if side_to_move g =? WHITE then BLACK else WHITE)
    (white_castling_avail g) (black_castling_avail g)
    (-1) (halfmove_clock g) (position_history g).

Definition is_legal_move (d : nat) (g : game) (from to : square) (promotion : Z)
  : res bool :=
  if (rank from <? 0) || (rank from >? 7) || (file from <? 0) || (file from >? 7)
     || (rank to <? 0) || (rank to >? 7) || (file to <? 0) || (file to >? 7)
  then Ok false
  else if piece_at g from =? EMPTY then Ok false
  else if negb (Z.land (piece_at g from) COLOR =? side_to_move g) then Ok false
  else if Z.land (piece_at g to) COLOR =? side_to_move g then Ok false
  else
    way <- piece_has_way (is_attacked_by d) g from to ;;
    if negb way then Ok false
    else if negb (promotion_fits g from to promotion) then Ok false
    else
      let new_position := position_to_check g from to in
      checked <- is_checked d new_position (side_to_move g) ;;
      if checked then Ok false else Ok true.

Definition can_make_any_move (d : nat) (g : game) : res bool :=
  exists_m
    (fun from =>
       if negb (Z.land (piece_at g from) (side_to_move g) =? 0) then
         exists_m
           (fun to =>
              let promotion :=
                if negb (Z.land (piece_at g from) PAWN =? 0)
                   && ((rank to =? 0) || (rank to =? 7))
                then QUEEN else EMPTY in
              is_legal_move d g from to promotion)
           all_squares
       else Ok false)
    all_squares.

(** The four counters of [enough_material]. *)
Record minor_pieces : Type := mk_minor {
  w_knights : Z; w_bishops : Z; b_knights : Z; b_bishops : Z
}.

(** The loop of [enough_material]: [None] when it returned [true] at a pawn,
    a rook or a queen, the counters otherwise. *)
Fixpoint count_minor (g : game) (l : list square) (m : minor_pieces)
  : option minor_pieces :=
  match l with
  | [] => Some m
  | sq :: l' =>
      let p := piece_at g sq in
      if (p =? Z.lor WHITE PAWN) || (p =? Z.lor WHITE ROOK) || (p =? Z.lor WHITE QUEEN)
         || (p =? Z.lor BLACK ROOK) || (p =? Z.lor BLACK PAWN) || (p =? Z.lor BLACK QUEEN)
      then None
      else if p =? Z.lor WHITE KNIGHT then
        count_minor g l' (mk_minor (w_knights m + 1) (w_bishops m) (b_knights m) (b_bishops m))
      else if p =? Z.lor BLACK KNIGHT then
        count_minor g l' (mk_minor (w_knights m) (w_bishops m) (b_knights m + 1) (b_bishops m))
      else if p =? Z.lor WHITE BISHOP then
        count_minor g l' (mk_minor (w_knights m) (w_bishops m + 1) (b_knights m) (b_bishops m))
      else if p =? Z.lor BLACK BISHOP then
        count_minor g l' (mk_minor (w_knights m) (w_bishops m) (b_knights m) (b_bishops m + 1))
      else count_minor g l' m
  end.

Definition enough_material (g : game) : bool :=
  match count_minor g all_squares (mk_minor 0 0 0 0) with
  | None => true
  | Some m =>
      if (w_bishops m >=? 2) || (b_bishops m >=? 2) then true
      else if ((w_bishops m =? 1) && (w_knights m >=? 1))
              || ((b_bishops m =? 1) && (b_knights m >=? 1)) then true
      else false
  end.

(** ** Position hashing *)

(** The static tables of [hash], filled with [rand()] on its first call and
    never written again: the fingerprint is a function of them. *)
Record zobrist : Type := mk_zobrist {
  piece_hash : Z -> Z -> Z -> Z;
  en_passant_hash : Z -> Z;
  castling_avail_hash : Z -> Z;
  white_to_move_hash : Z
}.

(** The [switch] of [hash]: the third index of [piece_hash], no case for
    any other value. *)
Definition piece_index (p : Z) : option Z :=
  if p =? Z.lor WHITE PAWN then Some 0
  else if p =? Z.lor WHITE KNIGHT then Some 1
  else if p =? Z.lor WHITE BISHOP then Some 2
  else if p =? Z.lor WHITE ROOK then Some 3
  else if p =? Z.lor WHITE QUEEN then Some 4
  else if p =? Z.lor WHITE KING then Some 5
  else if p =? Z.lor BLACK PAWN then Some 6
  else if p =? Z.lor BLACK KNIGHT then Some 7
  else if p =? Z.lor BLACK BISHOP then Some 8
  else if p =? Z.lor BLACK ROOK then Some 9
  else if p =? Z.lor BLACK QUEEN then Some 10
  else if p =? Z.lor BLACK KING then Some 11
  else None.

Definition hash_pieces (t : zobrist) (g : game) : Z :=
  fold_left
    (fun result sq =>
       match piece_index (piece_at g sq) with
       | Some k => Z.lxor result (piece_hash t (file sq) (rank sq) k)
       | None => result
       end)
    all_squares 0.

(** The test of lines 181-193: is [en_passant_hash[en_passant_file]] XORed
    into the result? *)
Definition en_passant_hashed (g : game) : bool :=
  if en_passant_file g >=? 0 then
    let moving_pawn := Z.lor (side_to_move g) PAWN in
    let r := if side_to_move g =? WHITE then 4 else 3 in
    let f := en_passant_file g - 1 in
    if (f >=? 1) && (board g f r =? moving_pawn) then true
    else
      let f := en_passant_file g + 1 in
      if (f <=? 6) && (board g f r =? moving_pawn) then true else false
  else false.

Definition hash (t : zobrist) (g : game) : Z :=
  let result := hash_pieces t g in
  let result :=
    if en_passant_hashed g
    then Z.lxor result (en_passant_hash t (en_passant_file g)) else result in
  let result :=
    if negb (Z.land (white_castling_avail g) QUEEN =? 0)
    then Z.lxor result (castling_avail_hash t 0) else result in
  let result :=
    if negb (Z.land (white_castling_avail g) KING =? 0)
    then Z.lxor result (castling_avail_hash t 1) else result in
  let result :=
    if negb (Z.land (black_castling_avail g) QUEEN =? 0)
    then Z.lxor result (castling_avail_hash t 2) else result in
  let result :=
    if negb (Z.land (black_castling_avail g) KING =? 0)
    then Z.lxor result (castling_avail_hash t 3) else result in
  if side_to_move g =? WHITE then Z.lxor result (white_to_move_hash t) else result.

(** ** Move application *)

Definition with_side (g : game) (c : Z) : game :=
  mk_game (board g) c (white_castling_avail g) (black_castling_avail g)
          (en_passant_file g) (halfmove_clock g) (position_history g).

Definition with_white_castling (g : game) (a : Z) : game :=
  mk_game (board g) (side_to_move g) a (black_castling_avail g)
          (en_passant_file g) (halfmove_clock g) (position_history g).

Definition with_black_castling (g : game) (a : Z) : game :=
  mk_game (board g) (side_to_move g) (white_castling_avail g) a
          (en_passant_file g) (halfmove_clock g) (position_history g).

Definition with_en_passant (g : game) (f : Z) : game :=
  mk_game (board g) (side_to_move g) (white_castling_avail g)
          (black_castling_avail g) f (halfmove_clock g) (position_history g).

Definition with_clock (g : game) (n : Z) : game :=
  mk_game (board g) (side_to_move g) (white_castling_avail g)
          (black_castling_avail g) (en_passant_file g) n (position_history g).

Definition with_history (g : game) (h : Z -> Z) : game :=
  mk_game (board g) (side_to_move g) (white_castling_avail g)
          (black_castling_avail g) (en_passant_file g) (halfmove_clock g) h.

(** Lines 545-546: the fingerprint of the position a run starts from. *)
Definition record_setup (t : zobrist) (g : game) : game :=
  if halfmove_clock g =? 0
  then with_history g (set_history (position_history g) 0 (hash t g))
  else g.

(** Lines 549-560: the six tests on the origin square, one after the other. *)
Definition disable_castling (g : game) (from : square) : game :=
  let g := if (file from =? 0) && (rank from =? 0)
           then with_white_castling g (Z.land (white_castling_avail g) (Z.lnot QUEEN))
           else g in
  let g := if (file from =? 4) && (rank from =? 0)
           then with_white_castling g EMPTY else g in
  let g := if (file from =? 7) && (rank from =? 0)
           then with_white_castling g (Z.land (white_castling_avail g) (Z.lnot KING))
           else g in
  let g := if (file from =? 0) && (rank from =? 7)
           then with_black_castling g (Z.land (black_castling_avail g) (Z.lnot QUEEN))
           else g in
  let g := if (file from =? 4) && (rank from =? 7)
           then with_black_castling g EMPTY else g in
  if (file from =? 7) && (rank from =? 7)
  then with_black_castling g (Z.land (black_castling_avail g) (Z.lnot KING))
  else g.

(** Lines 563-570: the rook of a castling move. *)
Definition move_castling_rook (g : game) (from to : square) : game :=
  let g :=
    if negb (Z.land (piece_at g from) KING =? 0) && (file to - file from =? 2)
    then
      let b := set_board (board g) 5 (rank from) (board g 7 (rank from)) in
      with_board g (set_board b 7 (rank from) EMPTY)
    else g in
  if negb (Z.land (piece_at g from) KING =? 0) && (file to - file from =? -2)
  then
    let b := set_board (board g) 3 (rank from) (board g 0 (rank from)) in
    with_board g (set_board b 0 (rank from) EMPTY)
  else g.

(** Lines 573-577. *)
Definition update_en_passant (g : game) (from to : square) : game :=
  let g := with_en_passant g (-1) in
  if negb (Z.land (piece_at g from) PAWN =? 0) && (Z.abs (rank from - rank to) =? 2)
  then with_en_passant g (file from)
  else g.

(** Lines 580-582: the fifty-move counter. *)
Definition track_fifty_moves (g : game) (from to : square) : game :=
  let g := with_clock g (halfmove_clock g + 1) in
  if negb (Z.land (piece_at g from) PAWN =? 0) || negb (piece_at g to =? EMPTY)
  then with_clock g 0
  else g.

(** Lines 585-589: the piece goes to its destination, a promotion replaces
    it, and the turn passes. *)
Definition move_piece (g : game) (from to : square) (promotion : Z) : game :=
  let g := with_board g (set_board (board g) (file to) (rank to)
                                   (board g (file from) (rank from))) in
  let g := with_board g (set_board (board g) (file from) (rank from) EMPTY) in
  let g :=
    if negb (promotion =? EMPTY)
    then with_board g (set_board (board g) (file to) (rank to)
                         (Z.lor (Z.land promotion (Z.lnot COLOR)) (side_to_move g)))
    else g in
  with_side g (if side_to_move g =? WHITE then BLACK else WHITE).

(** Lines 592-595.  The statement under the test is the comparison
    [game->board[to.file][from.rank] == EMPTY;], whose value is dropped:
    nothing is stored on either branch. *)
Definition remove_en_passant (g : game) (from to : square) : game :=
  if negb (Z.land (piece_at g from) PAWN =? 0)
     && negb (file from =? file to) && (piece_at g to =? EMPTY)
  then let _ := board g (file to) (rank from) =? EMPTY in g
  else g.

(** Line 597. *)
Definition record_position (t : zobrist) (g : game) : game :=
  with_history g (set_history (position_history g) (halfmove_clock g) (hash t g)).

(** Everything [move] stores once the move is known to be legal
    (lines 545-597). *)
Definition move_update (t : zobrist) (g : game) (from to : square) (promotion : Z)
  : game :=
  let g := record_setup t g in
  let g := disable_castling g from in
  let g := move_castling_rook g from to in
  let g := update_en_passant g from to in
  let g := track_fifty_moves g from to in
  let g := move_piece g from to promotion in
  let g := remove_en_passant g from to in
  record_position t g.

(** Lines 598-601: [for (move = 0; move <= halfmove_clock; move++)]. *)
Definition repetitions (g : game) : Z :=
  let last := position_history g (halfmove_clock g) in
  Z.of_nat
    (List.length
       (filter (fun i => position_history g (Z.of_nat i) =? last)
               (seq 0 (Z.to_nat (halfmove_clock g + 1))))).

(** Lines 602-618: the result of a move whose changes are stored in [g]. *)
Definition move_status (d : nat) (g : game) : res move_result :=
  if repetitions g =? 3 then Ok DRAW
  else if negb (enough_material g) then Ok DRAW
  else
    any <- can_make_any_move d g ;;
    if negb any then
      checked <- is_checked d g (side_to_move g) ;;
      if checked then Ok CHECKMATE else Ok DRAW
    else if halfmove_clock g =? 100 then Ok DRAW
    else
      checked <- is_checked d g (side_to_move g) ;;
      if checked then Ok CHECK else Ok DEFAULT.

(** [move] returns its result and leaves the position in [*game]. *)
Definition move (d : nat) (t : zobrist) (g : game) (from to : square) (promotion : Z)
  : res (move_result * game) :=
  legal <- is_legal_move d g from to promotion ;;
  if negb legal then Ok (ILLEGAL, g)
  else
    let g' := move_update t g from to promotion in
    r <- move_status d g' ;;
    Ok (r, g').

(** ** Reading a position: [fen_to_game] *)

(** A C string is the list of its characters up to the terminating NUL;
    [fen + i] is a suffix of it. *)
Definition code (c : ascii) : Z := Z.of_N (N_of_ascii c).

Definition in_range (lo hi c : ascii) : bool :=
  (code lo <=? code c) && (code c <=? code hi).

(** The [switch] of the placement loop. *)
Definition piece_of_letter (c : ascii) : option Z :=
  if Ascii.eqb c "P" then Some (Z.lor WHITE PAWN)
  else if Ascii.eqb c "N" then Some (Z.lor WHITE KNIGHT)
  else if Ascii.eqb c "B" then Some (Z.lor WHITE BISHOP)
  else if Ascii.eqb c "R" then Some (Z.lor WHITE ROOK)
  else if Ascii.eqb c "Q" then Some (Z.lor WHITE QUEEN)
  else if Ascii.eqb c "K" then Some (Z.lor WHITE KING)
  else if Ascii.eqb c "p" then Some (Z.lor BLACK PAWN)
  else if Ascii.eqb c "n" then Some (Z.lor BLACK KNIGHT)
  else if Ascii.eqb c "b" then Some (Z.lor BLACK BISHOP)
  else if Ascii.eqb c "r" then Some (Z.lor BLACK ROOK)
  else if Ascii.eqb c "q" then Some (Z.lor BLACK QUEEN)
  else if Ascii.eqb c "k" then Some (Z.lor BLACK KING)
  else None.

(** Lines 51-83.  [None] is [goto ERROR]; otherwise the board and the string
    after the space that ends the loop.  At the end of the string the
    character read is the NUL, which no test of the loop accepts. *)
Fixpoint fen_placement (s : list ascii) (b : Z -> Z -> Z) (f r : Z)
  : option ((Z -> Z -> Z) * list ascii) :=
  match s with
  | [] => None
  | c :: s' =>
      if Ascii.eqb c " " then Some (b, s')
      else if Ascii.eqb c "/" then fen_placement s' b 0 (r - 1)
      else if (f >? 7) || (r <? 0) then None
      else if in_range "1" "8" c then fen_placement s' b (f + (code c - code "0")) r
      else
        match piece_of_letter c with
        | Some p => fen_placement s' (set_board b f r p) (f + 1) r
        | None => None
        end
  end.

(** Lines 94-103, on the white and the black castling flags. *)
Fixpoint fen_castling (s : list ascii) (w k : Z) : option (Z * Z * list ascii) :=
  match s with
  | [] => None
  | c :: s' =>
      if Ascii.eqb c " " then Some (w, k, s')
      else if Ascii.eqb c "-" then fen_castling s' w k
      else if Ascii.eqb c "K" then fen_castling s' (Z.lor w KING) k
      else if Ascii.eqb c "Q" then fen_castling s' (Z.lor w QUEEN) k
      else if Ascii.eqb c "k" then fen_castling s' w (Z.lor k KING)
      else if Ascii.eqb c "q" then fen_castling s' w (Z.lor k QUEEN)
      else None
  end.

(** [isspace] in the C locale. *)
Definition isspace (c : ascii) : bool :=
  Ascii.eqb c " " || in_range "009" "013" c.

Fixpoint skip_spaces (s : list ascii) : list ascii :=
  match s with
  | c :: s' => if isspace c then skip_spaces s' else s
  | [] => []
  end.

(** The decimal digits a string starts with, read after the value [acc];
    [None] when there is none. *)
Fixpoint scan_digits (s : list ascii) (acc : option Z) : option Z :=
  match s with
  | c :: s' =>
      if in_range "0" "9" c
      then scan_digits s' (Some (10 * match acc with Some n => n | None => 0 end
                                 + (code c - code "0")))
      else acc
  | [] => acc
  end.

(** What [sscanf(s, "%d", &n)] converts: white space, an optional sign and
    at least one digit; [None] when it does not return 1. *)
Definition scan_int (s : list ascii) : option Z :=
  match skip_spaces s with
  | c :: s' =>
      if Ascii.eqb c "-" then option_map Z.opp (scan_digits s' None)
      else if Ascii.eqb c "+" then scan_digits s' None
      else scan_digits (c :: s') None
  | [] => None
  end.

Definition INT_MIN : Z := - 2 ^ 31.
Definition INT_MAX : Z := 2 ^ 31 - 1.

(** The position [memset] leaves. *)
Definition zero_game : game :=
  mk_game (fun _ _ => 0) 0 0 0 0 0 (fun _ => 0).

(** Lines 105-122, from the first character of the en passant field. *)
Definition fen_tail (s : list ascii) (b : Z -> Z -> Z) (side w k : Z)
  : res (option game) :=
  let after_field :=
    match s with
    | c :: s' =>
        if in_range "a" "h" c then
          let ep := code c - code "a" in
          if (ep <? 0) || (ep >? 7) then None
          else
            match s' with
            | c2 :: _ => if in_range "1" "8" c2 then Some (ep, s') else None
            | [] => None
            end
        else if Ascii.eqb c "-" then Some (en_passant_file zero_game, s)
        else None
    | [] => None
    end in
  match after_field with
  | None => Ok None
  | Some (ep, at_last) =>
      (* i += 2 from the last character of the field *)
      match at_last with
      | _ :: _ :: clock =>
          match scan_int clock with
          | None => Ok None
          | Some n =>
              if (n <? INT_MIN) || (n >? INT_MAX) then Err Overflow
              else if (n <? 0) || (n >? 100) then Ok None
              else Ok (Some (mk_game b side w k ep n (position_history zero_game)))
          end
      | _ => Err OutOfBounds
      end
  end.

Definition fen_to_game (fen : list ascii) : res (option game) :=
  match fen_placement fen (board zero_game) 0 7 with
  | None => Ok None
  | Some (b, s) =>
      match s with
      | side_char :: sep :: s' =>
          if Ascii.eqb side_char "w" || Ascii.eqb side_char "b" then
            let side := if Ascii.eqb side_char "w" then WHITE else BLACK in
            if negb (Ascii.eqb sep " ") then Ok None
            else
              match fen_castling s' (white_castling_avail zero_game)
                                 (black_castling_avail zero_game) with
              | None => Ok None
              | Some (w, k, s'') => fen_tail s'' b side w k
              end
          else Ok None
      | [side_char] =>
          (* the character after the side is the NUL, which is not a space *)
          Ok None
      | [] => Ok None
      end
  end.

(** ** Reading a move: [parse_move] *)

(** [strcspn(s, "\r\n")] *)
Fixpoint strcspn_crlf (s : list ascii) : nat :=
  match s with
  | c :: s' =>
      if Ascii.eqb c "013" || Ascii.eqb c "010" then O else S (strcspn_crlf s')
  | [] => O
  end.

(** [tolower] in the C locale. *)
Definition tolower (c : ascii) : ascii :=
  if in_range "A" "Z" c then ascii_of_N (N_of_ascii c + 32) else c.

(** [s[i]], the terminating NUL at the end of the string. *)
Definition char_at (s : list ascii) (i : nat) : ascii := nth i s "000"%char.

(** Lines 635-638: the two squares of a token. *)
Definition token_squares (s : list ascii) : square * square :=
  (mk_square (code (char_at s 0) - code "a") (code (char_at s 1) - code "1"),
   mk_square (code (char_at s 2) - code "a") (code (char_at s 3) - code "1")).

(** Lines 639-644: the [switch] on the fifth character. *)
Definition token_promotion (s : list ascii) : Z :=
  let c := char_at s 4 in
  if Ascii.eqb c "n" then KNIGHT
  else if Ascii.eqb c "b" then BISHOP
  else if Ascii.eqb c "r" then ROOK
  else if Ascii.eqb c "q" then QUEEN
  else EMPTY.

(** [parse_move] returns its result and leaves the position in [*game] and
    the token in [move_str]. *)
Definition parse_move (d : nat) (t : zobrist) (g : game) (move_str : list ascii)
  : res (move_result * game * list ascii) :=
  let length := strcspn_crlf move_str in
  (* move_str[length] = 0 *)
  let move_str := firstn length move_str in
  if Nat.ltb length 4 || Nat.ltb 5 length then Ok (ILLEGAL, g, move_str)
  else
    let move_str := map tolower move_str in
    let (from, to) := token_squares move_str in
    let promotion := token_promotion move_str in
    r <- move d t g from to promotion ;;
    Ok (fst r, snd r, move_str).

(** ** The starting position and sample inputs *)

(** An array initializer [{ {..}, .., {..} }] read as [board[file][rank]];
    squares it does not list are zero. *)
Definition board_of_rows (rows : list (list Z)) : Z -> Z -> Z :=
  fun f r =>
    if (f <? 0) || (r <? 0) then 0
    else nth (Z.to_nat r) (nth (Z.to_nat f) rows []) 0.

(** [const struct game setup] (lines 23-39). *)
Definition setup : game :=
  let W := Z.lor WHITE in
  let B := Z.lor BLACK in
  mk_game
    (board_of_rows
       [ [W ROOK;   W PAWN; 0; 0; 0; 0; B PAWN; B ROOK];
         [W KNIGHT; W PAWN; 0; 0; 0; 0; B PAWN; B KNIGHT];
         [W BISHOP; W PAWN; 0; 0; 0; 0; B PAWN; B BISHOP];
         [W QUEEN;  W PAWN; 0; 0; 0; 0; B PAWN; B QUEEN];
         [W KING;   W PAWN; 0; 0; 0; 0; B PAWN; B KING];
         [W BISHOP; W PAWN; 0; 0; 0; 0; B PAWN; B BISHOP];
         [W KNIGHT; W PAWN; 0; 0; 0; 0; B PAWN; B KNIGHT];
         [W ROOK;   W PAWN; 0; 0; 0; 0; B PAWN; B ROOK] ])
    WHITE (Z.lor KING QUEEN) (Z.lor KING QUEEN) (-1) 0 (fun _ => 0).

(** One filling of the tables of [hash], used where a run needs numbers. *)
Definition sample_table : zobrist :=
  mk_zobrist (fun f r k => 1 + (1103515245 * ((f * 8 + r) * 12 + k) + 12345) mod 2 ^ 31)
             (fun f => 769 + (1103515245 * (800 + f) + 12345) mod 2 ^ 31)
             (fun i => 777 + (1103515245 * (900 + i) + 12345) mod 2 ^ 31)
             1804289383.

(** The position a FEN string stands for, [setup] when it is refused. *)
Definition position_of (fen : string) : game :=
  match fen_to_game (list_ascii_of_string fen) with
  | Ok (Some g) => g
  | _ => setup
  end.

(** A square by its name, as [parse_move] reads one. *)
Definition sq (name : string) : square :=
  fst (token_squares (list_ascii_of_string name)).

(** The result of a call, without the position it leaves. *)
Definition result_of {A B : Type} (x : res (A * B)) : res A :=
  a <- x ;; Ok (fst a).

(** The board on which lines 574-586 read [from] and [to]. *)
Definition board_before_move (g : game) (from to : square) : Z -> Z -> Z :=
  board (move_castling_rook g from to).

(** ** Runs of moves *)

(** The tests of line 581 on the position the call is given: the piece on
    [from] has the PAWN bit, the square [to] is occupied. *)
Definition is_pawn_move (g : game) (from : square) : bool :=
  negb (Z.land (piece_at g from) PAWN =? 0).

Definition is_capture (g : game) (to : square) : bool :=
  negb (piece_at g to =? EMPTY).

(** Neither a pawn move nor a capture. *)
Definition quiet_move (g : game) (from to : square) : bool :=
  negb (is_pawn_move g from) && negb (is_capture g to).

(** A piece with the KING bit that steps two files does so from the e-file,
    where the king stands as long as its side may castle in a game that
    began from [setup]. *)
Definition regular_castling (g : game) (from to : square) : bool :=
  (Z.land (piece_at g from) KING =? 0)
  || negb (Z.abs (file to - file from) =? 2)
  || (file from =? 4).

(** [quiet_run d t n g g']: [n] calls of [move], each of a legal move that
    is neither a pawn move nor a capture, lead from [g] to [g']. *)
Inductive quiet_run (d : nat) (t : zobrist) : nat -> game -> game -> Prop :=
| quiet_run_done g : quiet_run d t O g g
| quiet_run_step n g from to promotion r g1 g2 :
    is_legal_move d g from to promotion = Ok true ->
    quiet_move g from to = true ->
    regular_castling g from to = true ->
    move d t g from to promotion = Ok (r, g1) ->
    quiet_run d t n g1 g2 ->
    quiet_run d t (S n) g g2.

(** The two squares of a token such as [e2e4]. *)
Definition squares_of (token : string) : square * square :=
  token_squares (list_ascii_of_string token).

(** A run of quiet moves, checked move by move: the position it ends in. *)
Fixpoint quiet_play (d : nat) (t : zobrist) (g : game) (tokens : list string)
  : option game :=
  match tokens with
  | [] => Some g
  | token :: rest =>
      let (from, to) := squares_of token in
      match is_legal_move d g from to EMPTY, move d t g from to EMPTY with
      | Ok true, Ok (_, g1) =>
          if quiet_move g from to && regular_castling g from to
          then quiet_play d t g1 rest else None
      | _, _ => None
      end
  end.

Definition after_quiet_play (d : nat) (t : zobrist) (g : game) (tokens : list string)
  : game :=
  match quiet_play d t g tokens with
  | Some g' => g'
  | None => g
  end.

(** Ninety-nine moves of a king and a rook against a king, and a hundredth. *)
Definition ninety_nine_moves : list string :=
  ["h8g8"; "a1a2"; "g8h8"; "a2a3"; "h8g8"; "a3a4"; "g8h8"; "a4a5"; "h8g8"; "a5a6";
   "g8h8"; "a6b6"; "h8g8"; "b6b5"; "g8h8"; "b5b4"; "h8g8"; "b4b3"; "g8h8"; "b3b2";
   "h8g8"; "b2b1"; "g8h8"; "b1c1"; "h8g8"; "c1c2"; "g8h8"; "c2c3"; "h8g8"; "c3c4";
   "g8h8"; "c4c5"; "h8g8"; "c5c6"; "g8h8"; "c6d6"; "h8g8"; "d6d5"; "g8h8"; "d5d4";
   "h8g8"; "d4d3"; "g8h8"; "d3d2"; "h8g8"; "d2d1"; "g8h8"; "d1e1"; "h8g8"; "e1e2";
   "g8h8"; "e2e3"; "h8g8"; "e3e4"; "g8h8"; "e4e5"; "h8g8"; "e5e6"; "g8h8"; "e6e5";
   "h8g8"; "e5e4"; "g8h8"; "e4e3"; "h8g8"; "e3e2"; "g8h8"; "e2e1"; "h8g8"; "e1d1";
   "g8h8"; "d1d2"; "h8g8"; "d2d3"; "g8h8"; "d3d4"; "h8g8"; "d4d5"; "g8h8"; "d5d6";
   "h8g8"; "d6c6"; "g8h8"; "c6c5"; "h8g8"; "c5c4"; "g8h8"; "c4c3"; "h8g8"; "c3c2";
   "g8h8"; "c2c1"; "h8g8"; "c1b1"; "g8h8"; "b1b2"; "h8g8"; "b2b3"; "g8h8"]%string.

(** ** The strings [fen_to_game] accepts, said in words *)

(** How far one character of the placement moves the file counter. *)
Definition file_step (f : Z) (c : ascii) : Z :=
  if Ascii.eqb c "/" then 0
  else if in_range "1" "8" c then f + (code c - code "0")
  else f + 1.

(** The file counter after the characters of [p], from [f]. *)
Definition files_from (f : Z) (p : list ascii) : Z := fold_left file_step p f.

(** The number of rank separators in [p]. *)
Definition slashes (p : list ascii) : Z :=
  Z.of_nat (count_occ ascii_dec p "/"%char).

(** A digit 1-8 or a piece letter. *)
Definition placement_char (c : ascii) : bool :=
  in_range "1" "8" c
  || match piece_of_letter c with Some _ => true | None => false end.

(** The placement field as the code checks it, from file [f] and rank [r]:
    no space, and every character other than ['/'] is a digit 1-8 or a piece
    letter that comes when the file counter of its rank is at most 7 and at
    most [r] separators have been read. *)
Definition placement_ok_from (f r : Z) (p : list ascii) : Prop :=
  forall p1 c p2,
    p = p1 ++ c :: p2 ->
    c <> " "%char
    /\ (c <> "/"%char ->
        files_from f p1 <= 7 /\ slashes p1 <= r /\ placement_char c = true).

Definition castling_char (c : ascii) : bool :=
  Ascii.eqb c "-" || Ascii.eqb c "K" || Ascii.eqb c "Q"
  || Ascii.eqb c "k" || Ascii.eqb c "q".

(** ["-"], or a file letter a-h and a rank digit 1-8. *)
Definition en_passant_field (e : list ascii) : Prop :=
  e = ["-"%char]
  \/ exists f r, e = [f; r] /\ in_range "a" "h" f = true /\ in_range "1" "8" r = true.

(** The strings for which [fen_to_game] returns a position: the four fields
    each ended by one space (any character after the en passant field), and
    an integer in 0..100 that [sscanf] can read from what follows. *)
Definition fen_accepted (fen : list ascii) : Prop :=
  exists placement side castling e x clock n,
    fen = placement ++ " "%char :: side :: " "%char :: castling ++ " "%char
                    :: e ++ x :: clock
    /\ placement_ok_from 0 7 placement
    /\ (side = "w"%char \/ side = "b"%char)
    /\ Forall (fun c => castling_char c = true) castling
    /\ en_passant_field e
    /\ scan_int clock = Some n
    /\ 0 <= n <= 100.

(** The number of files each rank of the placement field fills, rank 8
    first; the field ends at the first space. *)
Fixpoint rank_widths_from (w : Z) (fen : list ascii) : list Z :=
  match fen with
  | [] => [w]
  | c :: rest =>
      if Ascii.eqb c " " then [w]
      else if Ascii.eqb c "/" then w :: rank_widths_from 0 rest
      else rank_widths_from (file_step w c) rest
  end.

Definition rank_widths (fen : list ascii) : list Z := rank_widths_from 0 fen.

(** ** Results under a larger depth bound *)

(** [below r r']: the call that gave [r] under a bound gives [r'] under a
    larger one: the same result, unless [r] was the bound being reached. *)
Definition below {A : Type} (r r' : res A) : Prop :=
  r = Err DepthExceeded \/ r = r'.

(** ** Kings that reach the attack tests of the castling branch *)

(** [castles_towards g k t]: the piece on [k] is a king, [t] lies two files
    from it on its rank, and the squares from [k] to the corner on the side
    of [t] are empty, as the loop of lines 331-333 requires. *)
Definition castles_towards (g : game) (k t : square) : Prop :=
  Z.land (piece_at g k) PIECE_TYPE = KING
  /\ rank t = rank k
  /\ ((file t = file k + 2
       /\ forall x, file k < x <= 6 -> board g x (rank k) = EMPTY)
      \/ (file t = file k - 2
          /\ forall x, 1 <= x < file k -> board g x (rank k) = EMPTY)).

(** [rook_to] of line 329. *)
Definition rook_to_of (k t : square) : square :=
  mk_square (if file t >? file k then 5 else 3) (rank k).

(** ** The promotion [can_make_any_move] tries *)

(** Lines 489-491: the promotion tried for a move from [from] to [to]. *)
Definition probe_promotion (g : game) (from to : square) : Z :=
  if negb (Z.land (piece_at g from) PAWN =? 0) && ((rank to =? 0) || (rank to =? 7))
  then QUEEN else EMPTY.

(** ** Counting pieces *)

(** The number of squares of [l] that hold the piece [p]. *)
Definition count_in (g : game) (p : Z) (l : list square) : Z :=
  Z.of_nat (List.length (filter (fun sq => piece_at g sq =? p) l)).

Definition count_piece (g : game) (p : Z) : Z := count_in g p all_squares.

(** The first six cases of the [switch] of [enough_material]. *)
Definition pawn_rook_or_queen (p : Z) : bool :=
  (p =? Z.lor WHITE PAWN) || (p =? Z.lor WHITE ROOK) || (p =? Z.lor WHITE QUEEN)
  || (p =? Z.lor BLACK ROOK) || (p =? Z.lor BLACK PAWN) || (p =? Z.lor BLACK QUEEN).

(** A pawn, a rook or a queen stands somewhere on the board. *)
Definition has_pawn_rook_or_queen (g : game) : bool :=
  existsb (fun sq => pawn_rook_or_queen (piece_at g sq)) all_squares.

(** ** Well-formed positions *)

(** A value a square may hold: EMPTY or one of the twelve pieces. *)
Definition square_value (v : Z) : Prop := v = EMPTY \/ piece_index v <> None.

(** The values of the castling rights of one side. *)
Definition castling_flags (a : Z) : Prop :=
  In a [EMPTY; KING; QUEEN; Z.lor KING QUEEN].

(** [well_formed g]: the squares of the board hold pieces or nothing, the
    cells beside the board hold nothing, the side to move is a color, the
    castling rights are sets of KING and QUEEN, and [en_passant_file] is a
    file, or -1 for none. *)
Definition well_formed (g : game) : Prop :=
  (forall f r, square_value (board g f r))
  /\ (forall f r, on_board f r = false -> board g f r = EMPTY)
  /\ (side_to_move g = WHITE \/ side_to_move g = BLACK)
  /\ castling_flags (white_castling_avail g)
  /\ castling_flags (black_castling_avail g)
  /\ -1 <= en_passant_file g <= 7.

(** * Theorems *)

(** ** Bits of a piece *)

Lemma land_through_mask (p m b : Z) :
  Z.land m b = b -> Z.land p b = Z.land (Z.land p m) b.
Proof. intros H. now rewrite <- Z.land_assoc, H. Qed.

Lemma pawn_type_bits (p : Z) :
  Z.land p PIECE_TYPE = PAWN -> Z.land p PAWN = PAWN /\ Z.land p KING = 0.
Proof.
  intros H. split.
  - rewrite (land_through_mask p PIECE_TYPE PAWN) by reflexivity. now rewrite H.
  - rewrite (land_through_mask p PIECE_TYPE KING) by reflexivity. now rewrite H.
Qed.

(** ** The two ways [move] returns *)

Lemma move_cases d t g from to promotion r g' :
  move d t g from to promotion = Ok (r, g') ->
  (is_legal_move d g from to promotion = Ok false /\ r = ILLEGAL /\ g' = g)
  \/ (is_legal_move d g from to promotion = Ok true
      /\ g' = move_update t g from to promotion
      /\ move_status d g' = Ok r).
Proof.
  unfold move. destruct (is_legal_move d g from to promotion) as [[|]|e]; simpl.
  - destruct (move_status d (move_update t g from to promotion)) as [r0|e] eqn:E;
      simpl; [|discriminate].
    intros H. inversion H; subst. right. auto.
  - intros H. inversion H; subst. left. auto.
  - discriminate.
Qed.

Lemma move_legal d t g from to promotion r :
  is_legal_move d g from to promotion = Ok true ->
  move_status d (move_update t g from to promotion) = Ok r ->
  move d t g from to promotion = Ok (r, move_update t g from to promotion).
Proof. intros L S. unfold move. rewrite L. simpl. rewrite S. reflexivity. Qed.

Lemma move_status_not_illegal d g r : move_status d g = Ok r -> r <> ILLEGAL.
Proof.
  unfold move_status.
  destruct (repetitions g =? 3); [intros [= <-]; discriminate|].
  destruct (negb (enough_material g)); [intros [= <-]; discriminate|].
  destruct (can_make_any_move d g) as [[|]|]; simpl; try discriminate.
  - destruct (halfmove_clock g =? 100); [intros [= <-]; discriminate|].
    destruct (is_checked d g _) as [[|]|]; simpl; intros [= <-]; discriminate.
  - destruct (is_checked d g _) as [[|]|]; simpl; intros [= <-]; discriminate.
Qed.

(** C2.  When [is_legal_move] returns false, [move] returns ILLEGAL and the
    position it leaves is the one it was given, field for field; called
    again on that position with the same move it does the same. *)
Theorem move_illegal_leaves_position d t g from to promotion :
  is_legal_move d g from to promotion = Ok false ->
  move d t g from to promotion = Ok (ILLEGAL, g)
  /\ (r1 <- move d t g from to promotion ;; move d t (snd r1) from to promotion)
     = Ok (ILLEGAL, g).
Proof.
  intros H. assert (M : move d t g from to promotion = Ok (ILLEGAL, g)).
  { unfold move. rewrite H. reflexivity. }
  split; [exact M|]. rewrite M. simpl. exact M.
Qed.

Lemma move_illegal_leaves_position_witness :
  is_legal_move 3 setup (sq "e2") (sq "e5") EMPTY = Ok false
  /\ move 3 sample_table setup (sq "e2") (sq "e5") EMPTY = Ok (ILLEGAL, setup).
Proof.
  split; [vm_compute; reflexivity|].
  apply (move_illegal_leaves_position 3 sample_table setup (sq "e2") (sq "e5") EMPTY).
  vm_compute; reflexivity.
Defined.

(** ** What each step of [move] stores *)

Ltac split_ifs :=
  repeat match goal with
         | |- context [if ?c then _ else _] => destruct c
         end.

(** Reduce the projections of a record that is written out. *)
Ltac fields :=
  cbn [board side_to_move white_castling_avail black_castling_avail
       en_passant_file halfmove_clock position_history].

Ltac frame_of step := intros; unfold step; split_ifs; repeat split; reflexivity.

Lemma record_setup_frame t g :
  board (record_setup t g) = board g
  /\ side_to_move (record_setup t g) = side_to_move g
  /\ white_castling_avail (record_setup t g) = white_castling_avail g
  /\ black_castling_avail (record_setup t g) = black_castling_avail g
  /\ en_passant_file (record_setup t g) = en_passant_file g
  /\ halfmove_clock (record_setup t g) = halfmove_clock g.
Proof. frame_of record_setup. Qed.

Lemma disable_castling_frame g from :
  board (disable_castling g from) = board g
  /\ side_to_move (disable_castling g from) = side_to_move g
  /\ en_passant_file (disable_castling g from) = en_passant_file g
  /\ halfmove_clock (disable_castling g from) = halfmove_clock g
  /\ position_history (disable_castling g from) = position_history g.
Proof. frame_of disable_castling. Qed.

Lemma move_castling_rook_frame g from to :
  side_to_move (move_castling_rook g from to) = side_to_move g
  /\ white_castling_avail (move_castling_rook g from to) = white_castling_avail g
  /\ black_castling_avail (move_castling_rook g from to) = black_castling_avail g
  /\ en_passant_file (move_castling_rook g from to) = en_passant_file g
  /\ halfmove_clock (move_castling_rook g from to) = halfmove_clock g
  /\ position_history (move_castling_rook g from to) = position_history g.
Proof. frame_of move_castling_rook. Qed.

Lemma update_en_passant_frame g from to :
  board (update_en_passant g from to) = board g
  /\ side_to_move (update_en_passant g from to) = side_to_move g
  /\ white_castling_avail (update_en_passant g from to) = white_castling_avail g
  /\ black_castling_avail (update_en_passant g from to) = black_castling_avail g
  /\ halfmove_clock (update_en_passant g from to) = halfmove_clock g
  /\ position_history (update_en_passant g from to) = position_history g.
Proof. frame_of update_en_passant. Qed.

Lemma track_fifty_moves_frame g from to :
  board (track_fifty_moves g from to) = board g
  /\ side_to_move (track_fifty_moves g from to) = side_to_move g
  /\ white_castling_avail (track_fifty_moves g from to) = white_castling_avail g
  /\ black_castling_avail (track_fifty_moves g from to) = black_castling_avail g
  /\ en_passant_file (track_fifty_moves g from to) = en_passant_file g
  /\ position_history (track_fifty_moves g from to) = position_history g.
Proof. frame_of track_fifty_moves. Qed.

Lemma move_piece_frame g from to promotion :
  white_castling_avail (move_piece g from to promotion) = white_castling_avail g
  /\ black_castling_avail (move_piece g from to promotion) = black_castling_avail g
  /\ en_passant_file (move_piece g from to promotion) = en_passant_file g
  /\ halfmove_clock (move_piece g from to promotion) = halfmove_clock g
  /\ position_history (move_piece g from to promotion) = position_history g.
Proof. frame_of move_piece. Qed.

(** The statement under the test of lines 592-595 stores nothing. *)
Lemma remove_en_passant_nothing g from to : remove_en_passant g from to = g.
Proof. unfold remove_en_passant. split_ifs; reflexivity. Qed.

Lemma record_position_frame t g :
  board (record_position t g) = board g
  /\ side_to_move (record_position t g) = side_to_move g
  /\ white_castling_avail (record_position t g) = white_castling_avail g
  /\ black_castling_avail (record_position t g) = black_castling_avail g
  /\ en_passant_file (record_position t g) = en_passant_file g
  /\ halfmove_clock (record_position t g) = halfmove_clock g.
Proof. frame_of record_position. Qed.

(** The board after the rook step depends on the board before it only. *)
Lemma move_castling_rook_board g1 g2 from to :
  board g1 = board g2 ->
  board (move_castling_rook g1 from to) = board (move_castling_rook g2 from to).
Proof.
  intros H. unfold move_castling_rook, piece_at. rewrite H.
  destruct (negb (Z.land (board g2 (file from) (rank from)) KING =? 0)
            && (file to - file from =? 2)); simpl; rewrite ?H;
    split_ifs; simpl; rewrite ?H; reflexivity.
Qed.

Lemma castling_rights_after_move t g from to promotion :
  white_castling_avail (move_update t g from to promotion)
  = white_castling_avail (disable_castling g from)
  /\ black_castling_avail (move_update t g from to promotion)
     = black_castling_avail (disable_castling g from).
Proof.
  unfold move_update. rewrite remove_en_passant_nothing.
  destruct (record_position_frame t
    (move_piece (track_fifty_moves (update_en_passant (move_castling_rook
       (disable_castling (record_setup t g) from) from to) from to) from to)
       from to promotion)) as (_ & _ & -> & -> & _).
  destruct (move_piece_frame (track_fifty_moves (update_en_passant (move_castling_rook
       (disable_castling (record_setup t g) from) from to) from to) from to)
       from to promotion) as (-> & -> & _).
  destruct (track_fifty_moves_frame (update_en_passant (move_castling_rook
       (disable_castling (record_setup t g) from) from to) from to) from to)
    as (_ & _ & -> & -> & _).
  destruct (update_en_passant_frame (move_castling_rook
       (disable_castling (record_setup t g) from) from to) from to)
    as (_ & _ & -> & -> & _).
  destruct (move_castling_rook_frame (disable_castling (record_setup t g) from) from to)
    as (_ & -> & -> & _).
  destruct (record_setup_frame t g) as (_ & _ & Hw & Hk & _).
  unfold disable_castling.
  split; split_ifs; simpl; rewrite ?Hw, ?Hk; reflexivity.
Qed.

(** ** Castling rights *)

Lemma land_clear_stays (a m flag : Z) :
  Z.land a flag = 0 -> Z.land (Z.land a m) flag = 0.
Proof.
  intros H. rewrite <- Z.land_assoc, (Z.land_comm m flag), Z.land_assoc, H.
  apply Z.land_0_l.
Qed.

Lemma disable_castling_clears_only g from flag :
  (Z.land (white_castling_avail g) flag = 0 ->
   Z.land (white_castling_avail (disable_castling g from)) flag = 0)
  /\ (Z.land (black_castling_avail g) flag = 0 ->
      Z.land (black_castling_avail (disable_castling g from)) flag = 0).
Proof.
  unfold disable_castling.
  split; intros H; split_ifs; simpl;
    repeat (apply land_clear_stays); try exact H; try reflexivity.
Qed.

(** C8.  A call of [move] that returns never sets a castling flag: every
    flag (KING or QUEEN, of White or of Black, and any mask of them) that is
    clear in the position before the call is clear in the position after. *)
Theorem castling_rights_never_restored d t g from to promotion r g' flag :
  move d t g from to promotion = Ok (r, g') ->
  (Z.land (white_castling_avail g) flag = 0 ->
   Z.land (white_castling_avail g') flag = 0)
  /\ (Z.land (black_castling_avail g) flag = 0 ->
      Z.land (black_castling_avail g') flag = 0).
Proof.
  intros H. destruct (move_cases _ _ _ _ _ _ _ _ H) as [(_ & _ & ->)|(_ & -> & _)].
  - auto.
  - destruct (castling_rights_after_move t g from to promotion) as [-> ->].
    apply disable_castling_clears_only.
Qed.

Lemma castling_rights_never_restored_witness :
  let g := position_of "r3k2r/8/8/8/8/8/8/R3K2R w Qq - 0 1" in
  let g' := move_update sample_table g (sq "a1") (sq "a2") EMPTY in
  move 3 sample_table g (sq "a1") (sq "a2") EMPTY = Ok (DEFAULT, g')
  /\ Z.land (white_castling_avail g) KING = 0
  /\ Z.land (black_castling_avail g) KING = 0
  /\ Z.land (white_castling_avail g') KING = 0
  /\ Z.land (black_castling_avail g') KING = 0.
Proof.
  intros g g'.
  assert (M : move 3 sample_table g (sq "a1") (sq "a2") EMPTY = Ok (DEFAULT, g'))
    by (apply move_legal; vm_compute; reflexivity).
  assert (W : Z.land (white_castling_avail g) KING = 0) by (vm_compute; reflexivity).
  assert (B : Z.land (black_castling_avail g) KING = 0) by (vm_compute; reflexivity).
  destruct (castling_rights_never_restored 3 sample_table g (sq "a1") (sq "a2") EMPTY
              DEFAULT g' KING M) as [HW HB].
  exact (conj M (conj W (conj B (conj (HW W) (HB B))))).
Defined.

(** ** The fields a legal move stores *)

Lemma board_before_clock t g from to :
  board (update_en_passant (move_castling_rook
           (disable_castling (record_setup t g) from) from to) from to)
  = board_before_move g from to.
Proof.
  destruct (update_en_passant_frame (move_castling_rook
              (disable_castling (record_setup t g) from) from to) from to) as (-> & _).
  apply move_castling_rook_board.
  destruct (disable_castling_frame (record_setup t g) from) as (-> & _).
  apply record_setup_frame.
Qed.

Lemma track_fifty_moves_clock g from to :
  halfmove_clock (track_fifty_moves g from to)
  = if negb (Z.land (board g (file from) (rank from)) PAWN =? 0)
       || negb (board g (file to) (rank to) =? EMPTY)
    then 0 else halfmove_clock g + 1.
Proof.
  unfold track_fifty_moves, piece_at, with_clock. cbv zeta. fields.
  split_ifs; reflexivity.
Qed.

Lemma move_piece_side g from to promotion :
  side_to_move (move_piece g from to promotion)
  = if side_to_move g =? WHITE then BLACK else WHITE.
Proof.
  unfold move_piece, with_side, with_board. cbv zeta.
  destruct (negb (promotion =? EMPTY)); fields; reflexivity.
Qed.

Lemma move_piece_board g from to promotion :
  board (move_piece g from to promotion)
  = let b := set_board (set_board (board g) (file to) (rank to)
                                  (board g (file from) (rank from)))
                       (file from) (rank from) EMPTY in
    if negb (promotion =? EMPTY)
    then set_board b (file to) (rank to)
                   (Z.lor (Z.land promotion (Z.lnot COLOR)) (side_to_move g))
    else b.
Proof.
  unfold move_piece, with_side, with_board. cbv zeta.
  destruct (negb (promotion =? EMPTY)); fields; reflexivity.
Qed.

(** The position on which lines 574-589 work. *)
Lemma before_move_fields t g from to :
  let g3 := update_en_passant (move_castling_rook
              (disable_castling (record_setup t g) from) from to) from to in
  board g3 = board_before_move g from to
  /\ side_to_move g3 = side_to_move g
  /\ halfmove_clock g3 = halfmove_clock g.
Proof.
  intros g3. split; [apply board_before_clock|]. subst g3.
  destruct (update_en_passant_frame (move_castling_rook
       (disable_castling (record_setup t g) from) from to) from to)
    as (_ & -> & _ & _ & -> & _).
  destruct (move_castling_rook_frame (disable_castling (record_setup t g) from) from to)
    as (-> & _ & _ & _ & -> & _).
  destruct (disable_castling_frame (record_setup t g) from) as (_ & -> & _ & -> & _).
  destruct (record_setup_frame t g) as (_ & -> & _ & _ & _ & ->).
  split; reflexivity.
Qed.

Lemma move_update_steps t g from to promotion :
  move_update t g from to promotion
  = record_position t
      (move_piece
         (track_fifty_moves
            (update_en_passant (move_castling_rook
               (disable_castling (record_setup t g) from) from to) from to)
            from to)
         from to promotion).
Proof. unfold move_update. cbv zeta. now rewrite remove_en_passant_nothing. Qed.

Lemma clock_after_move t g from to promotion :
  halfmove_clock (move_update t g from to promotion)
  = if negb (Z.land (board_before_move g from to (file from) (rank from)) PAWN =? 0)
       || negb (board_before_move g from to (file to) (rank to) =? EMPTY)
    then 0 else halfmove_clock g + 1.
Proof.
  rewrite move_update_steps.
  destruct (before_move_fields t g from to) as (Hb & Hs & Hc).
  etransitivity; [apply record_position_frame|].
  etransitivity; [apply move_piece_frame|].
  rewrite track_fifty_moves_clock, Hb, Hc. reflexivity.
Qed.

Lemma side_after_move t g from to promotion :
  side_to_move (move_update t g from to promotion)
  = if side_to_move g =? WHITE then BLACK else WHITE.
Proof.
  rewrite move_update_steps.
  destruct (before_move_fields t g from to) as (Hb & Hs & Hc).
  etransitivity; [apply record_position_frame|].
  rewrite move_piece_side.
  destruct (track_fifty_moves_frame (update_en_passant (move_castling_rook
       (disable_castling (record_setup t g) from) from to) from to) from to)
    as (_ & -> & _).
  rewrite Hs. reflexivity.
Qed.

Lemma board_after_move t g from to promotion :
  board (move_update t g from to promotion)
  = let b0 := board_before_move g from to in
    let b := set_board (set_board b0 (file to) (rank to) (b0 (file from) (rank from)))
                       (file from) (rank from) EMPTY in
    if negb (promotion =? EMPTY)
    then set_board b (file to) (rank to)
                   (Z.lor (Z.land promotion (Z.lnot COLOR)) (side_to_move g))
    else b.
Proof.
  rewrite move_update_steps.
  destruct (before_move_fields t g from to) as (Hb & Hs & Hc).
  etransitivity; [apply record_position_frame|].
  rewrite move_piece_board.
  destruct (track_fifty_moves_frame (update_en_passant (move_castling_rook
       (disable_castling (record_setup t g) from) from to) from to) from to)
    as (-> & -> & _).
  rewrite Hb, Hs. reflexivity.
Qed.

(** A piece without the KING bit takes no rook along. *)
Lemma move_castling_rook_other g from to :
  Z.land (piece_at g from) KING = 0 -> move_castling_rook g from to = g.
Proof.
  intros H. unfold move_castling_rook. rewrite H.
  change (negb (0 =? 0)) with false. cbv beta iota zeta delta [andb].
  rewrite H. reflexivity.
Qed.

Lemma board_before_move_other g from to :
  Z.land (piece_at g from) KING = 0 -> board_before_move g from to = board g.
Proof.
  intros H. unfold board_before_move. now rewrite move_castling_rook_other.
Qed.

(** ** The fifty-move counter *)

Lemma clock_after_move_cases t g from to promotion :
  halfmove_clock (move_update t g from to promotion) = 0
  \/ halfmove_clock (move_update t g from to promotion) = halfmove_clock g + 1.
Proof. rewrite clock_after_move. split_ifs; auto. Qed.

Lemma history_after_move t g from to promotion i :
  i <> 0 -> i <> halfmove_clock (move_update t g from to promotion) ->
  position_history (move_update t g from to promotion) i = position_history g i.
Proof.
  intros H0 Hi. rewrite move_update_steps in *.
  unfold record_position at 1. unfold with_history, set_history. fields.
  destruct (record_position_frame t
    (move_piece (track_fifty_moves (update_en_passant (move_castling_rook
       (disable_castling (record_setup t g) from) from to) from to) from to)
       from to promotion)) as (_ & _ & _ & _ & _ & Hc).
  rewrite Hc in Hi. apply Z.eqb_neq in Hi. rewrite Hi.
  destruct (move_piece_frame (track_fifty_moves (update_en_passant (move_castling_rook
       (disable_castling (record_setup t g) from) from to) from to) from to)
       from to promotion) as (_ & _ & _ & _ & ->).
  destruct (track_fifty_moves_frame (update_en_passant (move_castling_rook
       (disable_castling (record_setup t g) from) from to) from to) from to)
    as (_ & _ & _ & _ & _ & ->).
  destruct (update_en_passant_frame (move_castling_rook
       (disable_castling (record_setup t g) from) from to) from to)
    as (_ & _ & _ & _ & _ & ->).
  destruct (move_castling_rook_frame (disable_castling (record_setup t g) from) from to)
    as (_ & _ & _ & _ & _ & ->).
  destruct (disable_castling_frame (record_setup t g) from) as (_ & _ & _ & _ & ->).
  unfold record_setup. destruct (halfmove_clock g =? 0); [|reflexivity].
  unfold with_history, set_history. fields.
  apply Z.eqb_neq in H0. now rewrite H0.
Qed.

Lemma fen_tail_clock s b side w k g :
  fen_tail s b side w k = Ok (Some g) -> 0 <= halfmove_clock g <= 100.
Proof.
  unfold fen_tail.
  repeat match goal with
         | |- context [match ?x with _ => _ end] => destruct x eqn:?; try discriminate
         end.
  intros H. inversion H; subst. fields.
  match goal with
  | E : (?n <? 0) || (?n >? 100) = false |- _ =>
      apply orb_false_elim in E; destruct E as [E1 E2];
      apply Z.ltb_ge in E1; rewrite Z.gtb_ltb in E2; apply Z.ltb_ge in E2; lia
  end.
Qed.

Lemma fen_to_game_clock fen g :
  fen_to_game fen = Ok (Some g) -> 0 <= halfmove_clock g <= 100.
Proof.
  unfold fen_to_game.
  destruct (fen_placement fen (board zero_game) 0 7) as [[b s]|]; [|discriminate].
  destruct s as [|side_char [|sep s']]; try discriminate.
  destruct (Ascii.eqb side_char "w" || Ascii.eqb side_char "b"); [|discriminate].
  destruct (negb (Ascii.eqb sep " ")); [discriminate|].
  destruct (fen_castling s' _ _) as [[[w k] s'']|]; [|discriminate].
  apply fen_tail_clock.
Qed.

(** The clock around a call of [move].  A position read by [fen_to_game]
    has its clock in 0..100.  A call of [move] on a position with the clock
    in 0..100 leaves it in 0..101, and in 0..100 when it started at 99 or
    less; an ILLEGAL call leaves it as it was; the entries of
    [position_history] the call writes are those at index 0 and at the new
    clock. *)
Lemma halfmove_clock_steps fen g0 d t g from to promotion r g' :
  (fen_to_game fen = Ok (Some g0) -> 0 <= halfmove_clock g0 <= 100)
  /\ (0 <= halfmove_clock g <= 100 ->
      move d t g from to promotion = Ok (r, g') ->
      0 <= halfmove_clock g' <= 101
      /\ (halfmove_clock g <= 99 -> halfmove_clock g' <= 100)
      /\ (r = ILLEGAL -> halfmove_clock g' = halfmove_clock g)
      /\ (forall i, i <> 0 -> i <> halfmove_clock g' ->
                    position_history g' i = position_history g i)).
Proof.
  split; [apply fen_to_game_clock|].
  intros Hc H.
  destruct (move_cases _ _ _ _ _ _ _ _ H) as [(_ & -> & ->)|(L & -> & S)].
  - repeat split; auto; lia.
  - destruct (clock_after_move_cases t g from to promotion) as [E|E].
    + rewrite E. repeat split; try lia.
      * intros ->. exfalso. exact (move_status_not_illegal _ _ _ S eq_refl).
      * intros i H0 Hi. rewrite <- E in Hi. now apply history_after_move.
    + rewrite E. repeat split; try lia.
      * intros ->. exfalso. exact (move_status_not_illegal _ _ _ S eq_refl).
      * intros i H0 Hi. rewrite <- E in Hi. now apply history_after_move.
Qed.

(** A position read with the clock at 100 has it at 101 after a legal rook
    move, and the result is not DRAW. *)
Lemma halfmove_clock_reaches_101 :
  let fen := list_ascii_of_string "4k3/8/8/8/8/8/8/4K2R w - - 100 60" in
  let g := position_of "4k3/8/8/8/8/8/8/4K2R w - - 100 60" in
  fen_to_game fen = Ok (Some g)
  /\ 0 <= halfmove_clock g <= 100
  /\ (x <- move 3 sample_table g (sq "h1") (sq "h2") EMPTY ;;
      Ok (fst x, halfmove_clock (snd x))) = Ok (DEFAULT, 101).
Proof.
  intros fen g. split; [vm_compute; reflexivity|].
  split; [vm_compute; split; discriminate|].
  vm_compute; reflexivity.
Qed.

Lemma board_before_move_regular g from to :
  regular_castling g from to = true ->
  board_before_move g from to (file from) (rank from) = piece_at g from
  /\ board_before_move g from to (file to) (rank to) = piece_at g to.
Proof.
  unfold regular_castling. intros H.
  destruct (Z.land (piece_at g from) KING =? 0) eqn:K.
  { apply Z.eqb_eq in K. rewrite (board_before_move_other _ _ _ K). now split. }
  cbn [orb] in H.
  unfold board_before_move, move_castling_rook. rewrite K. cbn [negb andb].
  destruct from as [ff fr], to as [tf tr]. unfold piece_at in *. cbn [file rank] in *.
  destruct (tf - ff =? 2) eqn:E2.
  - apply Z.eqb_eq in E2.
    assert (A : (Z.abs (tf - ff) =? 2) = true) by (apply Z.eqb_eq; lia).
    rewrite A in H. cbn [negb orb] in H. apply Z.eqb_eq in H.
    unfold with_board, set_board. fields.
    replace (ff =? 7) with false by (symmetry; apply Z.eqb_neq; lia).
    replace (ff =? 5) with false by (symmetry; apply Z.eqb_neq; lia).
    cbn [andb]. rewrite K. cbn [negb andb].
    replace (tf - ff =? -2) with false by (symmetry; apply Z.eqb_neq; lia).
    fields.
    replace (tf =? 7) with false by (symmetry; apply Z.eqb_neq; lia).
    replace (tf =? 5) with false by (symmetry; apply Z.eqb_neq; lia).
    replace (ff =? 7) with false by (symmetry; apply Z.eqb_neq; lia).
    replace (ff =? 5) with false by (symmetry; apply Z.eqb_neq; lia).
    now split.
  - rewrite K. cbn [negb andb].
    destruct (tf - ff =? -2) eqn:E3; [|now split].
    apply Z.eqb_eq in E3.
    assert (A : (Z.abs (tf - ff) =? 2) = true) by (apply Z.eqb_eq; lia).
    rewrite A in H. cbn [negb orb] in H. apply Z.eqb_eq in H.
    unfold with_board, set_board. fields.
    replace (tf =? 0) with false by (symmetry; apply Z.eqb_neq; lia).
    replace (tf =? 3) with false by (symmetry; apply Z.eqb_neq; lia).
    replace (ff =? 0) with false by (symmetry; apply Z.eqb_neq; lia).
    replace (ff =? 3) with false by (symmetry; apply Z.eqb_neq; lia).
    now split.
Qed.

(** A legal move that is a pawn move or a capture leaves the clock at 0, any
    other legal move one higher. *)
Lemma clock_after_regular_move t g from to promotion :
  regular_castling g from to = true ->
  halfmove_clock (move_update t g from to promotion)
  = if quiet_move g from to then halfmove_clock g + 1 else 0.
Proof.
  intros H. rewrite clock_after_move.
  destruct (board_before_move_regular g from to H) as [-> ->].
  unfold quiet_move, is_pawn_move, is_capture.
  destruct (Z.land (piece_at g from) PAWN =? 0), (piece_at g to =? EMPTY); reflexivity.
Qed.

Lemma quiet_run_clock d t n g g' :
  quiet_run d t n g g' -> halfmove_clock g' = halfmove_clock g + Z.of_nat n.
Proof.
  induction 1 as [g|n g from to promotion r g1 g2 L Q C M R IH].
  - simpl. lia.
  - rewrite IH.
    destruct (move_cases _ _ _ _ _ _ _ _ M) as [(L' & _)|(_ & -> & _)].
    + rewrite L in L'. discriminate.
    + rewrite (clock_after_regular_move t g from to promotion C), Q. lia.
Qed.

Lemma quiet_play_run d t tokens :
  forall g g', quiet_play d t g tokens = Some g' ->
               quiet_run d t (List.length tokens) g g'.
Proof.
  induction tokens as [|token rest IH]; intros g g'; cbn [quiet_play List.length].
  - intros [= ->]. constructor.
  - destruct (squares_of token) as [from to].
    destruct (is_legal_move d g from to EMPTY) as [[|]|] eqn:L; try discriminate.
    destruct (move d t g from to EMPTY) as [[r g1]|] eqn:M; try discriminate.
    destruct (quiet_move g from to) eqn:Q; [|discriminate].
    destruct (regular_castling g from to) eqn:C; [|discriminate].
    cbn [andb]. intros P. eapply quiet_run_step; eauto.
Qed.

Lemma move_status_at_100 d g r :
  halfmove_clock g = 100 ->
  move_status d g = Ok r ->
  r = DRAW
  \/ (r = CHECKMATE
      /\ can_make_any_move d g = Ok false
      /\ is_checked d g (side_to_move g) = Ok true).
Proof.
  intros H. unfold move_status. rewrite H. change (100 =? 100) with true.
  destruct (repetitions g =? 3); [intros [= <-]; now left|].
  destruct (negb (enough_material g)); [intros [= <-]; now left|].
  destruct (can_make_any_move d g) as [[|]|]; simpl; try discriminate.
  - intros [= <-]; now left.
  - destruct (is_checked d g (side_to_move g)) as [[|]|]; simpl; try discriminate.
    + intros [= <-]. right. auto.
    + intros [= <-]. now left.
Qed.

(** C6, as the code has it.  After ninety-nine legal moves without a pawn
    move or a capture from a position with the clock at 0, a hundredth such
    move leaves the clock at 100 and returns DRAW, or CHECKMATE when it
    mates (the test for mate comes before the test of the clock).  A legal
    pawn move or capture leaves the clock at 0.  Two-file steps of a king
    are taken from the e-file. *)
Theorem fifty_move_rule d t :
  (forall g0 g from to promotion r g',
      halfmove_clock g0 = 0 ->
      quiet_run d t 99 g0 g ->
      is_legal_move d g from to promotion = Ok true ->
      quiet_move g from to = true ->
      regular_castling g from to = true ->
      move d t g from to promotion = Ok (r, g') ->
      halfmove_clock g' = 100
      /\ (r = DRAW
          \/ (r = CHECKMATE
              /\ can_make_any_move d g' = Ok false
              /\ is_checked d g' (side_to_move g') = Ok true)))
  /\ (forall g from to promotion r g',
         is_legal_move d g from to promotion = Ok true ->
         regular_castling g from to = true ->
         is_pawn_move g from || is_capture g to = true ->
         move d t g from to promotion = Ok (r, g') ->
         halfmove_clock g' = 0).
Proof.
  split.
  - intros g0 g from to promotion r g' H0 R L Q C M.
    apply quiet_run_clock in R.
    destruct (move_cases _ _ _ _ _ _ _ _ M) as [(L' & _)|(_ & E & S)].
    { rewrite L in L'. discriminate. }
    assert (H : halfmove_clock g' = 100).
    { rewrite E, (clock_after_regular_move t g from to promotion C), Q, R, H0.
      reflexivity. }
    split; [exact H|]. exact (move_status_at_100 d g' r H S).
  - intros g from to promotion r g' L C P M.
    destruct (move_cases _ _ _ _ _ _ _ _ M) as [(L' & _)|(_ & -> & _)].
    { rewrite L in L'. discriminate. }
    rewrite (clock_after_regular_move t g from to promotion C).
    unfold quiet_move.
    destruct (is_pawn_move g from), (is_capture g to); try reflexivity; discriminate.
Qed.

Lemma ninety_nine_quiet_moves :
  let g0 := position_of "7k/8/6K1/8/8/8/8/R7 b - - 0 1" in
  quiet_run 3 sample_table 99 g0 (after_quiet_play 3 sample_table g0 ninety_nine_moves).
Proof.
  intros g0.
  apply (quiet_play_run 3 sample_table ninety_nine_moves g0).
  vm_compute; reflexivity.
Qed.

Lemma fifty_move_rule_witness :
  let g0 := position_of "7k/8/6K1/8/8/8/8/R7 b - - 0 1" in
  let g := after_quiet_play 3 sample_table g0 ninety_nine_moves in
  let g' := move_update sample_table g (sq "b3") (sq "b4") EMPTY in
  let p := position_of "4k3/8/8/8/8/8/4P3/4K3 w - - 7 1" in
  let p' := move_update sample_table p (sq "e2") (sq "e3") EMPTY in
  (halfmove_clock g0 = 0
   /\ quiet_run 3 sample_table 99 g0 g
   /\ is_legal_move 3 g (sq "b3") (sq "b4") EMPTY = Ok true
   /\ quiet_move g (sq "b3") (sq "b4") = true
   /\ regular_castling g (sq "b3") (sq "b4") = true
   /\ move 3 sample_table g (sq "b3") (sq "b4") EMPTY = Ok (DRAW, g')
   /\ halfmove_clock g' = 100)
  /\ (halfmove_clock p = 7
      /\ is_legal_move 3 p (sq "e2") (sq "e3") EMPTY = Ok true
      /\ regular_castling p (sq "e2") (sq "e3") = true
      /\ is_pawn_move p (sq "e2") || is_capture p (sq "e3") = true
      /\ move 3 sample_table p (sq "e2") (sq "e3") EMPTY = Ok (DEFAULT, p')
      /\ halfmove_clock p' = 0).
Proof.
  intros g0 g g' p p'.
  destruct (fifty_move_rule 3 sample_table) as [A B].
  assert (H0 : halfmove_clock g0 = 0) by (vm_compute; reflexivity).
  assert (R : quiet_run 3 sample_table 99 g0 g) by apply ninety_nine_quiet_moves.
  assert (L : is_legal_move 3 g (sq "b3") (sq "b4") EMPTY = Ok true)
    by (vm_compute; reflexivity).
  assert (Q : quiet_move g (sq "b3") (sq "b4") = true) by (vm_compute; reflexivity).
  assert (C : regular_castling g (sq "b3") (sq "b4") = true)
    by (vm_compute; reflexivity).
  assert (M : move 3 sample_table g (sq "b3") (sq "b4") EMPTY = Ok (DRAW, g'))
    by (apply move_legal; vm_compute; reflexivity).
  assert (L2 : is_legal_move 3 p (sq "e2") (sq "e3") EMPTY = Ok true)
    by (vm_compute; reflexivity).
  assert (C2 : regular_castling p (sq "e2") (sq "e3") = true)
    by (vm_compute; reflexivity).
  assert (P2 : is_pawn_move p (sq "e2") || is_capture p (sq "e3") = true)
    by (vm_compute; reflexivity).
  assert (M2 : move 3 sample_table p (sq "e2") (sq "e3") EMPTY = Ok (DEFAULT, p'))
    by (apply move_legal; vm_compute; reflexivity).
  split.
  - refine (conj H0 (conj R (conj L (conj Q (conj C (conj M _)))))).
    exact (proj1 (A g0 g (sq "b3") (sq "b4") EMPTY DRAW g' H0 R L Q C M)).
  - assert (H7 : halfmove_clock p = 7) by (vm_compute; reflexivity).
    refine (conj H7 (conj L2 (conj C2 (conj P2 (conj M2 _))))).
    exact (B p (sq "e2") (sq "e3") EMPTY DEFAULT p' L2 C2 P2 M2).
Defined.

(** C6 fails as stated: the hundredth move of this run, a rook move that is
    neither a pawn move nor a capture, mates, and [move] returns CHECKMATE. *)
Lemma hundredth_move_checkmates :
  let g0 := position_of "7k/8/6K1/8/8/8/8/R7 b - - 0 1" in
  let g := after_quiet_play 3 sample_table g0 ninety_nine_moves in
  halfmove_clock g0 = 0
  /\ quiet_run 3 sample_table 99 g0 g
  /\ is_legal_move 3 g (sq "b3") (sq "b8") EMPTY = Ok true
  /\ quiet_move g (sq "b3") (sq "b8") = true
  /\ result_of (move 3 sample_table g (sq "b3") (sq "b8") EMPTY) = Ok CHECKMATE.
Proof.
  intros g0 g.
  split; [vm_compute; reflexivity|].
  split; [apply ninety_nine_quiet_moves|].
  split; [vm_compute; reflexivity|].
  split; vm_compute; reflexivity.
Qed.

(** Why the statement above starts from a clock at 0 and keeps to kings that
    castle from the e-file.  From a clock at 1 the same hundred moves leave
    it at 101 and the hundredth call returns DEFAULT. *)
Lemma hundred_moves_from_clock_1 :
  let g0 := position_of "7k/8/6K1/8/8/8/8/R7 b - - 1 1" in
  let g := after_quiet_play 3 sample_table g0 ninety_nine_moves in
  quiet_run 3 sample_table 99 g0 g
  /\ (x <- move 3 sample_table g (sq "b3") (sq "b4") EMPTY ;;
      Ok (fst x, halfmove_clock (snd x))) = Ok (DEFAULT, 101).
Proof.
  intros g0 g. split; [|vm_compute; reflexivity].
  apply (quiet_play_run 3 sample_table ninety_nine_moves g0).
  vm_compute; reflexivity.
Qed.

(** A king on d1 whose side may castle steps to f1: line 564 puts the rook
    of h1 on f1 before line 581 looks there, and the clock is reset by a
    move that captures nothing. *)
Lemma castling_from_d1_resets_clock :
  let g := position_of "4k3/8/8/8/8/8/8/3K3R w K - 5 1" in
  is_legal_move 3 g (sq "d1") (sq "f1") EMPTY = Ok true
  /\ quiet_move g (sq "d1") (sq "f1") = true
  /\ regular_castling g (sq "d1") (sq "f1") = false
  /\ (x <- move 3 sample_table g (sq "d1") (sq "f1") EMPTY ;;
      Ok (halfmove_clock (snd x))) = Ok 0.
Proof.
  intros g. split; [vm_compute; reflexivity|].
  split; [vm_compute; reflexivity|].
  split; vm_compute; reflexivity.
Qed.

(** A king on f1 whose side may castle takes the knight on h1: line 565
    empties h1 before line 581 looks there, and the clock runs on. *)
Lemma castling_from_f1_capture_keeps_clock :
  let g := position_of "4k3/8/8/8/8/8/8/5K1n w K - 5 1" in
  is_legal_move 3 g (sq "f1") (sq "h1") EMPTY = Ok true
  /\ is_capture g (sq "h1") = true
  /\ regular_castling g (sq "f1") (sq "h1") = false
  /\ (x <- move 3 sample_table g (sq "f1") (sq "h1") EMPTY ;;
      Ok (halfmove_clock (snd x))) = Ok 6.
Proof.
  intros g. split; [vm_compute; reflexivity|].
  split; [vm_compute; reflexivity|].
  split; vm_compute; reflexivity.
Qed.

(** ** What a legal move has passed *)

Lemma is_legal_move_true d g from to promotion :
  is_legal_move d g from to promotion = Ok true ->
  (0 <= file from <= 7 /\ 0 <= rank from <= 7
   /\ 0 <= file to <= 7 /\ 0 <= rank to <= 7)
  /\ piece_at g from <> EMPTY
  /\ Z.land (piece_at g from) COLOR = side_to_move g
  /\ Z.land (piece_at g to) COLOR <> side_to_move g
  /\ piece_has_way (is_attacked_by d) g from to = Ok true
  /\ promotion_fits g from to promotion = true
  /\ is_checked d (position_to_check g from to) (side_to_move g) = Ok false.
Proof.
  unfold is_legal_move.
  destruct ((rank from <? 0) || (rank from >? 7) || (file from <? 0) || (file from >? 7)
            || (rank to <? 0) || (rank to >? 7) || (file to <? 0) || (file to >? 7))
    eqn:R; [discriminate|].
  destruct (piece_at g from =? EMPTY) eqn:E; [discriminate|].
  destruct (Z.land (piece_at g from) COLOR =? side_to_move g) eqn:C; [|discriminate].
  cbn [negb].
  destruct (Z.land (piece_at g to) COLOR =? side_to_move g) eqn:C2; [discriminate|].
  destruct (piece_has_way (is_attacked_by d) g from to) as [[|]|] eqn:W;
    cbn [bind negb]; try discriminate.
  destruct (promotion_fits g from to promotion) eqn:P; cbn [negb]; [|discriminate].
  cbv zeta.
  destruct (is_checked d (position_to_check g from to) (side_to_move g)) as [[|]|] eqn:K;
    cbn [bind]; try discriminate.
  intros _.
  repeat (apply orb_false_elim in R; destruct R as [R ?]).
  repeat match goal with
         | H : (_ <? _) = false |- _ => apply Z.ltb_ge in H
         | H : (_ >? _) = false |- _ => rewrite Z.gtb_ltb in H; apply Z.ltb_ge in H
         end.
  apply Z.eqb_neq in E. apply Z.eqb_eq in C. apply Z.eqb_neq in C2.
  repeat split; auto; lia.
Qed.

Lemma piece_has_way_pawn att g from to :
  Z.land (piece_at g from) PIECE_TYPE = PAWN ->
  piece_has_way att g from to = pawn_has_way g from to.
Proof. intros H. unfold piece_has_way. rewrite H. reflexivity. Qed.

(** A pawn that changes file steps one file and one rank. *)
Lemma pawn_capture_step g from to :
  pawn_has_way g from to = Ok true ->
  file from <> file to ->
  Z.abs (file from - file to) = 1
  /\ (rank to - rank from = 1 \/ rank to - rank from = -1).
Proof.
  unfold pawn_has_way. intros H F.
  destruct (assert _); [|discriminate]. cbn [bind] in H.
  apply Z.eqb_neq in F. rewrite F in H.
  destruct (Z.abs (file from - file to) =? 1) eqn:A; [|discriminate].
  cbn [negb] in H.
  destruct (rank to - rank from =? _) eqn:D; [|discriminate].
  apply Z.eqb_eq in A, D. split; [exact A|].
  destruct (Z.land (piece_at g from) COLOR =? WHITE); auto.
Qed.

Lemma set_board_other b f r v f' r' :
  f' <> f \/ r' <> r -> set_board b f r v f' r' = b f' r'.
Proof.
  intros H. unfold set_board.
  destruct (Z.eqb_spec f' f), (Z.eqb_spec r' r); try reflexivity. lia.
Qed.

Lemma set_board_same b f r v : set_board b f r v f r = v.
Proof. unfold set_board. now rewrite !Z.eqb_refl. Qed.

(** C1 (what the code does).  A legal pawn move to an empty square of
    another file is an en passant capture; after [move] the square beside
    the destination on the rank of the origin holds what it held before the
    call, the captured pawn: the statement under the test of line 592 is a
    comparison and stores nothing. *)
Theorem en_passant_keeps_captured_pawn d t g from to promotion r g' :
  is_legal_move d g from to promotion = Ok true ->
  Z.land (piece_at g from) PIECE_TYPE = PAWN ->
  file from <> file to ->
  piece_at g to = EMPTY ->
  move d t g from to promotion = Ok (r, g') ->
  board g' (file to) (rank from) = board g (file to) (rank from).
Proof.
  intros L P F E M.
  destruct (move_cases _ _ _ _ _ _ _ _ M) as [(L' & _)|(_ & -> & _)].
  { rewrite L in L'. discriminate. }
  destruct (is_legal_move_true _ _ _ _ _ L) as (_ & _ & _ & _ & W & _).
  rewrite (piece_has_way_pawn _ _ _ _ P) in W.
  destruct (pawn_capture_step _ _ _ W F) as [_ D].
  rewrite board_after_move.
  rewrite (board_before_move_other g from to (proj2 (pawn_type_bits _ P))).
  cbv zeta.
  destruct (negb (promotion =? EMPTY)).
  - rewrite set_board_other by (right; lia).
    rewrite set_board_other by (left; lia).
    apply set_board_other. right; lia.
  - rewrite set_board_other by (left; lia).
    apply set_board_other. right; lia.
Qed.

Lemma en_passant_keeps_captured_pawn_witness :
  let g := position_of "4k3/8/8/3pP3/8/8/8/4K3 w - d6 0 1" in
  let g' := move_update sample_table g (sq "e5") (sq "d6") EMPTY in
  is_legal_move 3 g (sq "e5") (sq "d6") EMPTY = Ok true
  /\ Z.land (piece_at g (sq "e5")) PIECE_TYPE = PAWN
  /\ file (sq "e5") <> file (sq "d6")
  /\ piece_at g (sq "d6") = EMPTY
  /\ move 3 sample_table g (sq "e5") (sq "d6") EMPTY = Ok (DEFAULT, g')
  /\ board g' (file (sq "d6")) (rank (sq "e5")) = Z.lor BLACK PAWN.
Proof.
  intros g g'.
  assert (L : is_legal_move 3 g (sq "e5") (sq "d6") EMPTY = Ok true)
    by (vm_compute; reflexivity).
  assert (P : Z.land (piece_at g (sq "e5")) PIECE_TYPE = PAWN)
    by (vm_compute; reflexivity).
  assert (F : file (sq "e5") <> file (sq "d6")) by (vm_compute; discriminate).
  assert (E : piece_at g (sq "d6") = EMPTY) by (vm_compute; reflexivity).
  assert (M : move 3 sample_table g (sq "e5") (sq "d6") EMPTY = Ok (DEFAULT, g'))
    by (apply move_legal; vm_compute; reflexivity).
  refine (conj L (conj P (conj F (conj E (conj M _))))).
  rewrite (en_passant_keeps_captured_pawn 3 sample_table g (sq "e5") (sq "d6") EMPTY
             DEFAULT g' L P F E M).
  vm_compute; reflexivity.
Defined.

(** ** The en passant part of the fingerprint *)

Lemma lxor_if (c : bool) (r v : Z) :
  (if c then Z.lxor r v else r) = Z.lxor r (if c then v else 0).
Proof. destruct c; [reflexivity|]. now rewrite Z.lxor_0_r. Qed.

Lemma lxor_swap (x y z : Z) : Z.lxor (Z.lxor x y) z = Z.lxor (Z.lxor x z) y.
Proof. now rewrite !Z.lxor_assoc, (Z.lxor_comm y z). Qed.

Lemma hash_pieces_board t g1 g2 :
  board g1 = board g2 -> hash_pieces t g1 = hash_pieces t g2.
Proof. intros H. unfold hash_pieces, piece_at. now rewrite H. Qed.

(** The fingerprint is the fingerprint of the position without its en
    passant file, XORed with the table value exactly when
    [en_passant_hashed] holds. *)
Lemma hash_en_passant_part t g :
  hash t g
  = Z.lxor (hash t (with_en_passant g (-1)))
           (if en_passant_hashed g then en_passant_hash t (en_passant_file g) else 0).
Proof.
  unfold hash. cbv zeta.
  replace (en_passant_hashed (with_en_passant g (-1))) with false by reflexivity.
  rewrite (hash_pieces_board t (with_en_passant g (-1)) g) by reflexivity.
  unfold with_en_passant. fields.
  rewrite !lxor_if.
  set (X := hash_pieces t g).
  set (E := if en_passant_hashed g then _ else 0).
  set (A := if negb (Z.land (white_castling_avail g) QUEEN =? 0) then _ else 0).
  set (B := if negb (Z.land (white_castling_avail g) KING =? 0) then _ else 0).
  set (C := if negb (Z.land (black_castling_avail g) QUEEN =? 0) then _ else 0).
  set (D := if negb (Z.land (black_castling_avail g) KING =? 0) then _ else 0).
  set (S := if side_to_move g =? WHITE then _ else 0).
  rewrite (lxor_swap X E A), (lxor_swap _ E B), (lxor_swap _ E C),
    (lxor_swap _ E D), (lxor_swap _ E S).
  reflexivity.
Qed.

(** C4 (what the code does).  With an en passant file in 0..7 the table
    value is part of the fingerprint exactly when a pawn of the side to move
    stands on the capturing rank on file [en_passant_file - 1], that file
    being 1 or more, or on file [en_passant_file + 1], that file being 6 or
    less: a capturing pawn on file 0 or on file 7 is not looked at. *)
Theorem en_passant_hash_skips_edge_files t g :
  0 <= en_passant_file g <= 7 ->
  let pawn := Z.lor (side_to_move g) PAWN in
  let r := if side_to_move g =? WHITE then 4 else 3 in
  hash t g
  = Z.lxor (hash t (with_en_passant g (-1)))
           (if en_passant_hashed g then en_passant_hash t (en_passant_file g) else 0)
  /\ (en_passant_hashed g = true <->
      (2 <= en_passant_file g /\ board g (en_passant_file g - 1) r = pawn)
      \/ (en_passant_file g <= 5 /\ board g (en_passant_file g + 1) r = pawn)).
Proof.
  intros H pawn r. split; [apply hash_en_passant_part|].
  unfold en_passant_hashed. fold pawn. fold r.
  replace (en_passant_file g >=? 0) with true
    by (symmetry; rewrite Z.geb_leb; apply Z.leb_le; lia).
  destruct (Z.geb_spec (en_passant_file g - 1) 1) as [G1|G1];
    destruct (Z.eqb_spec (board g (en_passant_file g - 1) r) pawn) as [P1|P1];
    destruct (Z.leb_spec (en_passant_file g + 1) 6) as [G2|G2];
    destruct (Z.eqb_spec (board g (en_passant_file g + 1) r) pawn) as [P2|P2];
    cbn [andb]; split; intros; try discriminate; try reflexivity;
    (left; split; [lia|assumption]) || (right; split; [lia|assumption])
    || (exfalso; intuition lia).
Qed.

Lemma en_passant_hash_skips_edge_files_witness :
  let before := position_of "4k3/1p6/8/P7/8/8/8/4K3 b - - 0 1" in
  let g := move_update sample_table before (sq "b7") (sq "b5") EMPTY in
  move 3 sample_table before (sq "b7") (sq "b5") EMPTY = Ok (DEFAULT, g)
  /\ 0 <= en_passant_file g <= 7
  /\ en_passant_file g = 1
  /\ board g 0 4 = Z.lor (side_to_move g) PAWN
  /\ is_legal_move 3 g (sq "a5") (sq "b6") EMPTY = Ok true
  /\ en_passant_hashed g = false
  /\ hash sample_table g = hash sample_table (with_en_passant g (-1)).
Proof.
  intros before g.
  assert (M : move 3 sample_table before (sq "b7") (sq "b5") EMPTY = Ok (DEFAULT, g))
    by (apply move_legal; vm_compute; reflexivity).
  assert (F : en_passant_file g = 1) by (vm_compute; reflexivity).
  assert (R : 0 <= en_passant_file g <= 7) by (rewrite F; lia).
  assert (P : board g 0 4 = Z.lor (side_to_move g) PAWN) by (vm_compute; reflexivity).
  assert (L : is_legal_move 3 g (sq "a5") (sq "b6") EMPTY = Ok true)
    by (vm_compute; reflexivity).
  destruct (en_passant_hash_skips_edge_files sample_table g R) as [H I].
  assert (N : en_passant_hashed g = false).
  { destruct (en_passant_hashed g); [|reflexivity].
    destruct (proj1 I eq_refl) as [[A _]|[_ A]].
    - rewrite F in A. lia.
    - exfalso. revert A. rewrite F. vm_compute. discriminate. }
  refine (conj M (conj R (conj F (conj P (conj L (conj N _)))))).
  rewrite H, N. apply Z.lxor_0_r.
Defined.

(** ** Promotion *)

Lemma piece_has_way_type att g from to b :
  piece_has_way att g from to = Ok b ->
  let type := Z.land (piece_at g from) PIECE_TYPE in
  type = PAWN \/ type = KNIGHT \/ type = BISHOP \/ type = ROOK
  \/ type = QUEEN \/ type = KING.
Proof.
  unfold piece_has_way. cbv zeta.
  destruct (Z.eqb_spec (Z.land (piece_at g from) PIECE_TYPE) PAWN); [auto|].
  destruct (Z.eqb_spec (Z.land (piece_at g from) PIECE_TYPE) KNIGHT); [auto|].
  destruct (Z.eqb_spec (Z.land (piece_at g from) PIECE_TYPE) BISHOP); [auto|].
  destruct (Z.eqb_spec (Z.land (piece_at g from) PIECE_TYPE) ROOK); [auto|].
  destruct (Z.eqb_spec (Z.land (piece_at g from) PIECE_TYPE) QUEEN); [auto 6|].
  destruct (Z.eqb_spec (Z.land (piece_at g from) PIECE_TYPE) KING); [auto 6|].
  discriminate.
Qed.

(** For a piece that [piece_has_way] accepts, the test [piece & PAWN] of the
    source holds exactly when its type is PAWN. *)
Lemma pawn_bit_iff_type att g from to b :
  piece_has_way att g from to = Ok b ->
  (Z.land (piece_at g from) PAWN =? 0) = false
  <-> Z.land (piece_at g from) PIECE_TYPE = PAWN.
Proof.
  intros H. apply piece_has_way_type in H. cbv zeta in H.
  rewrite (land_through_mask (piece_at g from) PIECE_TYPE PAWN) by reflexivity.
  destruct H as [H|[H|[H|[H|[H|H]]]]]; rewrite H; split; intros E;
    try reflexivity; try discriminate.
Qed.

(** A value of [enum piece] has no bit outside the two masks; clearing its
    color bits then leaves its type. *)
Lemma land_lnot_color (p : Z) :
  0 <= p < 256 -> Z.land p (Z.lnot COLOR) = Z.land p PIECE_TYPE.
Proof.
  intros H. apply Z.bits_inj'. intros n Hn.
  rewrite !Z.land_spec, Z.lnot_spec by lia.
  destruct (Z.lt_ge_cases n 8) as [L|G].
  - assert (C : n = 0 \/ n = 1 \/ n = 2 \/ n = 3 \/ n = 4 \/ n = 5 \/ n = 6 \/ n = 7)
      by lia.
    destruct C as [->|[->|[->|[->|[->|[->|[->| ->]]]]]]]; reflexivity.
  - replace (Z.testbit p n) with false; [reflexivity|].
    symmetry. destruct (Z.eq_dec p 0) as [->|NZ]; [apply Z.testbit_0_l|].
    apply Z.bits_above_log2; [lia|].
    assert (Z.log2 p < 8) by (apply Z.log2_lt_pow2; lia). lia.
Qed.

(** A value with no bit outside the type mask is its own type. *)
Lemma land_piece_type (p : Z) : 0 <= p < 64 -> Z.land p PIECE_TYPE = p.
Proof.
  intros H. change PIECE_TYPE with (Z.ones 6).
  rewrite Z.land_ones by lia. apply Z.mod_small. exact H.
Qed.

(** C7, as the code has it.  [is_legal_move] reads the promotion through
    [promotion & PIECE_TYPE] (line 448) and [move] stores
    [(promotion & ~COLOR) | side_to_move] (line 588): the argument may carry
    color bits.  A move that [is_legal_move] accepts has the type bits of
    [promotion] be one of KNIGHT, BISHOP, ROOK, QUEEN when a pawn reaches
    the last rank of the side to move, so [promotion] itself is one of the
    four when it has no other bit, and has [promotion] empty otherwise.
    Applied, a promotion leaves [(promotion & ~COLOR) | side_to_move] on the
    destination, which is the named type in the color of the mover for a
    [promotion] with no bit outside the two masks. *)
Theorem promotion_consistency d t g from to promotion :
  is_legal_move d g from to promotion = Ok true ->
  let last_rank := if side_to_move g =? WHITE then 7 else 0 in
  let pawn_to_last_rank :=
    Z.land (piece_at g from) PIECE_TYPE = PAWN /\ rank to = last_rank in
  let named := Z.land promotion PIECE_TYPE in
  (pawn_to_last_rank ->
   named = KNIGHT \/ named = BISHOP \/ named = ROOK \/ named = QUEEN)
  /\ (pawn_to_last_rank -> 0 <= promotion < 64 ->
      promotion = KNIGHT \/ promotion = BISHOP \/ promotion = ROOK
      \/ promotion = QUEEN)
  /\ (~ pawn_to_last_rank -> promotion = EMPTY)
  /\ (pawn_to_last_rank ->
      forall r g', move d t g from to promotion = Ok (r, g') ->
                   board g' (file to) (rank to)
                   = Z.lor (Z.land promotion (Z.lnot COLOR)) (side_to_move g))
  /\ (pawn_to_last_rank -> 0 <= promotion < 256 ->
      forall r g', move d t g from to promotion = Ok (r, g') ->
                   board g' (file to) (rank to) = Z.lor named (side_to_move g)).
Proof.
  intros L last_rank pawn_to_last_rank named.
  destruct (is_legal_move_true _ _ _ _ _ L) as (_ & _ & _ & _ & W & F & _).
  pose proof (pawn_bit_iff_type _ _ _ _ _ W) as PB.
  unfold promotion_fits in F. cbv zeta in F. fold last_rank in F. fold named in F.
  assert (A : pawn_to_last_rank ->
              named = KNIGHT \/ named = BISHOP \/ named = ROOK \/ named = QUEEN).
  { intros [P R]. apply PB in P. rewrite P in F. apply Z.eqb_eq in R. rewrite R in F.
    cbn [negb andb] in F.
    destruct (Z.eqb_spec named KNIGHT); [auto|].
    destruct (Z.eqb_spec named BISHOP); [auto|].
    destruct (Z.eqb_spec named ROOK); [auto|].
    destruct (Z.eqb_spec named QUEEN); [auto|]. discriminate. }
  assert (S : pawn_to_last_rank ->
              forall r g', move d t g from to promotion = Ok (r, g') ->
                           board g' (file to) (rank to)
                           = Z.lor (Z.land promotion (Z.lnot COLOR)) (side_to_move g)).
  { intros PL r g' M.
    destruct (move_cases _ _ _ _ _ _ _ _ M) as [(L' & _)|(_ & -> & _)].
    { rewrite L in L'. discriminate. }
    rewrite board_after_move.
    rewrite (board_before_move_other g from to (proj2 (pawn_type_bits _ (proj1 PL)))).
    cbv zeta.
    assert (NE : (promotion =? EMPTY) = false).
    { apply Z.eqb_neq. intros ->.
      destruct (A PL) as [H|[H|[H|H]]]; discriminate H. }
    rewrite NE. cbn [negb]. apply set_board_same. }
  split; [exact A|]. split; [|split; [|split; [exact S|]]].
  - intros PL B. pose proof (A PL) as H. unfold named in H.
    now rewrite (land_piece_type promotion B) in H.
  - intros N.
    destruct (Z.land (piece_at g from) PAWN =? 0) eqn:P;
      destruct (Z.eqb_spec (rank to) last_rank) as [R|R]; cbn [negb andb] in F;
      try (now apply Z.eqb_eq in F).
    exfalso. apply N. split; [now apply PB|exact R].
  - intros PL B r g' M. rewrite (S PL r g' M).
    now rewrite (land_lnot_color promotion B).
Qed.

Lemma promotion_consistency_witness :
  let g := position_of "7k/4P3/8/8/8/8/8/4K3 w - - 0 1" in
  let g' := move_update sample_table g (sq "e7") (sq "e8") QUEEN in
  is_legal_move 3 g (sq "e7") (sq "e8") QUEEN = Ok true
  /\ is_legal_move 3 g (sq "e7") (sq "e8") EMPTY = Ok false
  /\ move 3 sample_table g (sq "e7") (sq "e8") QUEEN = Ok (CHECK, g')
  /\ board g' (file (sq "e8")) (rank (sq "e8")) = Z.lor QUEEN WHITE.
Proof.
  intros g g'.
  assert (L : is_legal_move 3 g (sq "e7") (sq "e8") QUEEN = Ok true)
    by (vm_compute; reflexivity).
  assert (M : move 3 sample_table g (sq "e7") (sq "e8") QUEEN = Ok (CHECK, g'))
    by (apply move_legal; vm_compute; reflexivity).
  refine (conj L (conj _ (conj M _))); [vm_compute; reflexivity|].
  destruct (promotion_consistency 3 sample_table g (sq "e7") (sq "e8") QUEEN L)
    as (_ & _ & _ & _ & P).
  assert (PL : Z.land (piece_at g (sq "e7")) PIECE_TYPE = PAWN
               /\ rank (sq "e8") = (if side_to_move g =? WHITE then 7 else 0))
    by (split; vm_compute; reflexivity).
  assert (B : 0 <= QUEEN < 256) by (unfold QUEEN; lia).
  rewrite (P PL B CHECK g' M). vm_compute; reflexivity.
Defined.

(** C7 fails as stated: a pawn reaches the last rank, [is_legal_move]
    accepts the promotion [WHITE | QUEEN], which is none of KNIGHT, BISHOP,
    ROOK and QUEEN, and [move] puts a white queen on the square. *)
Lemma promotion_with_color_is_accepted :
  let g := position_of "7k/4P3/8/8/8/8/8/4K3 w - - 0 1" in
  let promotion := Z.lor WHITE QUEEN in
  Z.land (piece_at g (sq "e7")) PIECE_TYPE = PAWN
  /\ rank (sq "e8") = 7
  /\ is_legal_move 3 g (sq "e7") (sq "e8") promotion = Ok true
  /\ ~ In promotion [KNIGHT; BISHOP; ROOK; QUEEN]
  /\ (x <- move 3 sample_table g (sq "e7") (sq "e8") promotion ;;
      Ok (fst x, board (snd x) (file (sq "e8")) (rank (sq "e8"))))
     = Ok (CHECK, Z.lor WHITE QUEEN).
Proof.
  intros g promotion.
  split; [vm_compute; reflexivity|]. split; [vm_compute; reflexivity|].
  split; [vm_compute; reflexivity|]. split; [|vm_compute; reflexivity].
  vm_compute. intros [H|[H|[H|[H|[]]]]]; discriminate H.
Qed.

(** The bound 256 is needed: a [promotion] with a bit outside the two masks
    is accepted by its type bits, and [move] leaves a value on the square
    that is no piece. *)
Lemma promotion_with_stray_bit_leaves_no_piece :
  let g := position_of "7k/4P3/8/8/8/8/8/4K3 w - - 0 1" in
  let promotion := Z.lor 256 QUEEN in
  is_legal_move 3 g (sq "e7") (sq "e8") promotion = Ok true
  /\ (x <- move 3 sample_table g (sq "e7") (sq "e8") promotion ;;
      Ok (board (snd x) (file (sq "e8")) (rank (sq "e8"))))
     = Ok (Z.lor 256 (Z.lor WHITE QUEEN))
  /\ piece_index (Z.lor 256 (Z.lor WHITE QUEEN)) = None.
Proof.
  intros g promotion.
  split; [vm_compute; reflexivity|]. split; vm_compute; reflexivity.
Qed.

(** ** Mate and stalemate *)

(** C3, as the code has it.  After a legal move that does not bring the
    third repetition and leaves enough material, if the side now to move has
    no legal move, [move] returns CHECKMATE when that side is in check and
    DRAW when it is not. *)
Theorem mate_or_stalemate d t g from to promotion checked :
  let g' := move_update t g from to promotion in
  is_legal_move d g from to promotion = Ok true ->
  repetitions g' <> 3 ->
  enough_material g' = true ->
  can_make_any_move d g' = Ok false ->
  is_checked d g' (side_to_move g') = Ok checked ->
  move d t g from to promotion = Ok (if checked then CHECKMATE else DRAW, g').
Proof.
  intros g' L R E A K. apply move_legal; [exact L|]. fold g'.
  unfold move_status. apply Z.eqb_neq in R. rewrite R, E, A. cbn [negb bind].
  rewrite K. destruct checked; reflexivity.
Qed.

Lemma mate_or_stalemate_witness :
  let g := position_of "7k/8/6K1/8/8/8/8/1R6 w - - 0 1" in
  let g' := move_update sample_table g (sq "b1") (sq "b8") EMPTY in
  is_legal_move 3 g (sq "b1") (sq "b8") EMPTY = Ok true
  /\ repetitions g' <> 3
  /\ enough_material g' = true
  /\ can_make_any_move 3 g' = Ok false
  /\ is_checked 3 g' (side_to_move g') = Ok true
  /\ move 3 sample_table g (sq "b1") (sq "b8") EMPTY = Ok (CHECKMATE, g').
Proof.
  intros g g'.
  assert (L : is_legal_move 3 g (sq "b1") (sq "b8") EMPTY = Ok true)
    by (vm_compute; reflexivity).
  assert (R : repetitions g' <> 3) by (vm_compute; discriminate).
  assert (E : enough_material g' = true) by (vm_compute; reflexivity).
  assert (A : can_make_any_move 3 g' = Ok false) by (vm_compute; reflexivity).
  assert (K : is_checked 3 g' (side_to_move g') = Ok true) by (vm_compute; reflexivity).
  refine (conj L (conj R (conj E (conj A (conj K _))))).
  exact (mate_or_stalemate 3 sample_table g (sq "b1") (sq "b8") EMPTY true L R E A K).
Defined.

(** C3 fails as stated: after this knight move Black is in check and has no
    legal move, and [move] returns DRAW, because the test of the material
    comes first and two knights count as not enough. *)
Lemma mate_with_two_knights_is_draw :
  let g := position_of "7k/4N3/7K/6N1/8/8/8/8 w - - 0 1" in
  let g' := move_update sample_table g (sq "g5") (sq "f7") EMPTY in
  is_legal_move 3 g (sq "g5") (sq "f7") EMPTY = Ok true
  /\ can_make_any_move 3 g' = Ok false
  /\ is_checked 3 g' (side_to_move g') = Ok true
  /\ enough_material g' = false
  /\ result_of (move 3 sample_table g (sq "g5") (sq "f7") EMPTY) = Ok DRAW.
Proof.
  intros g g'.
  split; [vm_compute; reflexivity|].
  split; [vm_compute; reflexivity|].
  split; [vm_compute; reflexivity|].
  split; vm_compute; reflexivity.
Qed.

(** ** The token of [parse_move] *)

Lemma strcspn_crlf_spec (s : list ascii) :
  let cut := firstn (strcspn_crlf s) s in
  List.length cut = strcspn_crlf s
  /\ Forall (fun c => c <> "013"%char /\ c <> "010"%char) cut
  /\ (s = cut
      \/ exists c rest, s = cut ++ c :: rest /\ (c = "013"%char \/ c = "010"%char)).
Proof.
  induction s as [|c s IH]; cbn [strcspn_crlf].
  - cbn. repeat split; auto.
  - destruct (Ascii.eqb_spec c "013") as [->|N1].
    { cbn. repeat split; auto. right. exists "013"%char, s. auto. }
    destruct (Ascii.eqb_spec c "010") as [->|N2].
    { cbn. repeat split; auto. right. exists "010"%char, s. auto. }
    cbn [orb firstn List.length]. destruct IH as (L & F & E).
    split; [now rewrite L|]. split; [constructor; auto|].
    destruct E as [E|(c' & rest & E & C)].
    + left. now rewrite <- E.
    + right. exists c', rest. split; [|exact C]. cbn. now rewrite <- E.
Qed.

Lemma tolower_not_upper (c : ascii) : in_range "A" "Z" (tolower c) = false.
Proof. destruct c as [[] [] [] [] [] [] [] []]; vm_compute; reflexivity. Qed.

(** C10, as the code has it.  [parse_move] cuts the token at its first
    carriage return or newline.  A cut token of fewer than 4 or more than 5
    characters is left as cut, not lowercased, and the result is ILLEGAL.
    A cut token of 4 or 5 characters is lowercased before [move] decides:
    whatever [move] returns, ILLEGAL too, the token is left in lower case. *)
Theorem parse_move_rewrites_token d t g move_str :
  let cut := firstn (strcspn_crlf move_str) move_str in
  let low := map tolower cut in
  (Forall (fun c => c <> "013"%char /\ c <> "010"%char) cut
   /\ (move_str = cut
       \/ exists c rest, move_str = cut ++ c :: rest
                         /\ (c = "013"%char \/ c = "010"%char)))
  /\ ((List.length cut < 4)%nat \/ (5 < List.length cut)%nat ->
      parse_move d t g move_str = Ok (ILLEGAL, g, cut))
  /\ ((4 <= List.length cut <= 5)%nat ->
      Forall (fun c => in_range "A" "Z" c = false) low
      /\ parse_move d t g move_str
         = (x <- move d t g (fst (token_squares low)) (snd (token_squares low))
                      (token_promotion low) ;;
            Ok (fst x, snd x, low))).
Proof.
  intros cut low.
  destruct (strcspn_crlf_spec move_str) as (L & F & E). fold cut in L, F, E.
  split; [split; assumption|]. split.
  - intros H. unfold parse_move. cbv zeta.
    replace (Nat.ltb (strcspn_crlf move_str) 4 || Nat.ltb 5 (strcspn_crlf move_str))
      with true; [reflexivity|].
    symmetry. apply orb_true_iff. rewrite <- L.
    destruct H; [left|right]; now apply Nat.ltb_lt.
  - intros H. split.
    + unfold low. apply Forall_map, Forall_forall. intros c _.
      apply tolower_not_upper.
    + unfold parse_move. cbv zeta.
      replace (Nat.ltb (strcspn_crlf move_str) 4 || Nat.ltb 5 (strcspn_crlf move_str))
        with false.
      * fold cut. fold low. now destruct (token_squares low).
      * symmetry. apply orb_false_iff. rewrite <- L. split; apply Nat.ltb_ge; lia.
Qed.

Lemma parse_move_rewrites_token_witness :
  let token := list_ascii_of_string "E2E5" ++ ["010"%char] in
  let cut := firstn (strcspn_crlf token) token in
  (4 <= List.length cut <= 5)%nat
  /\ parse_move 3 sample_table setup token
     = Ok (ILLEGAL, setup, list_ascii_of_string "e2e5").
Proof.
  intros token cut.
  assert (H : (4 <= List.length cut <= 5)%nat) by (vm_compute; split; repeat constructor).
  split; [exact H|].
  destruct (parse_move_rewrites_token 3 sample_table setup token) as (_ & _ & P).
  destruct (P H) as [_ ->].
  vm_compute; reflexivity.
Defined.

(** C10 fails as stated: a token of six letters is refused before the loop
    that lowercases, and the caller's buffer keeps its capital letters. *)
Lemma long_token_keeps_capitals :
  let token := list_ascii_of_string "E2E4E5" in
  parse_move 3 sample_table setup token = Ok (ILLEGAL, setup, token)
  /\ map tolower token <> token.
Proof.
  intros token. split; [vm_compute; reflexivity|].
  vm_compute. discriminate.
Qed.

(** ** The strings [fen_to_game] accepts *)

Lemma files_from_cons f c p : files_from f (c :: p) = files_from (file_step f c) p.
Proof. reflexivity. Qed.

Lemma slashes_cons c p :
  slashes (c :: p) = (if Ascii.eqb c "/" then 1 else 0) + slashes p.
Proof.
  unfold slashes. cbn [count_occ].
  destruct (ascii_dec c "/") as [->|N].
  - rewrite Ascii.eqb_refl. lia.
  - apply Ascii.eqb_neq in N. rewrite N. lia.
Qed.

(** [placement_ok_from], one character at a time. *)
Lemma placement_ok_from_cons f r c p :
  placement_ok_from f r (c :: p)
  <-> c <> " "%char
      /\ (c <> "/"%char -> f <= 7 /\ 0 <= r /\ placement_char c = true)
      /\ placement_ok_from (file_step f c) (if Ascii.eqb c "/" then r - 1 else r) p.
Proof.
  unfold placement_ok_from. split.
  - intros H. destruct (H [] c p eq_refl) as [S0 T0].
    split; [exact S0|]. split.
    { intros N. destruct (T0 N) as (A & B & C). cbn in A. unfold slashes in B.
      cbn in B. auto. }
    intros p1 c' p2 E. destruct (H (c :: p1) c' p2) as [S1 T1]; [now rewrite E|].
    split; [exact S1|]. intros N. destruct (T1 N) as (A & B & C).
    rewrite files_from_cons in A. rewrite slashes_cons in B.
    revert B. destruct (Ascii.eqb c "/"); intros B; repeat split; auto; lia.
  - intros (S0 & T0 & H) p1 c' p2 E. destruct p1 as [|c1 p1].
    + cbn in E. injection E as <- <-. split; [exact S0|].
      intros N. destruct (T0 N) as (A & B & C). cbn. unfold slashes. cbn. auto.
    + cbn in E. injection E as <- ->. destruct (H p1 c' p2 eq_refl) as [S1 T1].
      split; [exact S1|]. intros N. destruct (T1 N) as (A & B & C).
      rewrite files_from_cons, slashes_cons.
      revert B. destruct (Ascii.eqb c "/"); intros B; repeat split; auto; lia.
Qed.

Lemma placement_ok_from_nil f r : placement_ok_from f r [].
Proof. intros [|? ?] ? ? E; discriminate E. Qed.

Lemma fen_placement_sound s :
  forall b f r b' rest,
    fen_placement s b f r = Some (b', rest) ->
    exists p, s = p ++ " "%char :: rest /\ placement_ok_from f r p.
Proof.
  induction s as [|c s IH]; intros b f r b' rest; cbn [fen_placement]; [discriminate|].
  destruct (Ascii.eqb_spec c " ") as [->|NS].
  { intros [= <- <-]. exists []. split; [reflexivity|apply placement_ok_from_nil]. }
  destruct (Ascii.eqb_spec c "/") as [->|NL].
  { intros H. destruct (IH _ _ _ _ _ H) as (p & -> & O). exists ("/"%char :: p).
    split; [reflexivity|]. apply placement_ok_from_cons.
    split; [discriminate|]. split; [intros N; now elim N|exact O]. }
  destruct (Z.gtb_spec f 7) as [|F]; [discriminate|].
  destruct (Z.ltb_spec r 0) as [|R]; [discriminate|]. cbn [orb].
  destruct (in_range "1" "8" c) eqn:D.
  - intros H. destruct (IH _ _ _ _ _ H) as (p & -> & O). exists (c :: p).
    split; [reflexivity|]. apply placement_ok_from_cons.
    split; [exact NS|]. unfold placement_char, file_step. rewrite D.
    apply Ascii.eqb_neq in NL. rewrite NL.
    split; [intros _; split; [lia|split; [lia|reflexivity]]|exact O].
  - destruct (piece_of_letter c) as [piece|] eqn:P; [|discriminate].
    intros H. destruct (IH _ _ _ _ _ H) as (p & -> & O). exists (c :: p).
    split; [reflexivity|]. apply placement_ok_from_cons.
    split; [exact NS|]. unfold placement_char, file_step. rewrite D, P.
    apply Ascii.eqb_neq in NL. rewrite NL.
    split; [intros _; split; [lia|split; [lia|reflexivity]]|exact O].
Qed.

Lemma fen_placement_complete p :
  forall f r b rest,
    placement_ok_from f r p ->
    exists b', fen_placement (p ++ " "%char :: rest) b f r = Some (b', rest).
Proof.
  induction p as [|c p IH]; intros f r b rest O; cbn [app fen_placement].
  - exists b. reflexivity.
  - apply placement_ok_from_cons in O. destruct O as (NS & T & O).
    apply Ascii.eqb_neq in NS. rewrite NS.
    revert T O. unfold file_step.
    destruct (Ascii.eqb_spec c "/") as [->|NL]; intros T O; [now apply IH|].
    destruct (T NL) as (F & R & C).
    replace (f >? 7) with false by (symmetry; rewrite Z.gtb_ltb; apply Z.ltb_ge; lia).
    replace (r <? 0) with false by (symmetry; apply Z.ltb_ge; lia).
    cbn [orb]. unfold placement_char in C.
    destruct (in_range "1" "8" c); [now apply IH|].
    destruct (piece_of_letter c); [now apply IH|discriminate].
Qed.

Lemma fen_castling_sound s :
  forall w k w' k' rest,
    fen_castling s w k = Some (w', k', rest) ->
    exists c, s = c ++ " "%char :: rest /\ Forall (fun x => castling_char x = true) c.
Proof.
  induction s as [|x s IH]; intros w k w' k' rest; cbn [fen_castling]; [discriminate|].
  destruct (Ascii.eqb_spec x " ") as [->|NS].
  { intros [= <- <- <-]. exists []. split; [reflexivity|constructor]. }
  assert (step : forall w1 k1,
             castling_char x = true ->
             fen_castling s w1 k1 = Some (w', k', rest) ->
             exists c, x :: s = c ++ " "%char :: rest
                       /\ Forall (fun x => castling_char x = true) c).
  { intros w1 k1 C H. destruct (IH _ _ _ _ _ H) as (c & -> & F).
    exists (x :: c). split; [reflexivity|constructor; assumption]. }
  unfold castling_char in step.
  destruct (Ascii.eqb x "-"); [now apply step|].
  destruct (Ascii.eqb x "K"); [now apply step|].
  destruct (Ascii.eqb x "Q"); [now apply step|].
  destruct (Ascii.eqb x "k"); [now apply step|].
  destruct (Ascii.eqb x "q"); [now apply step|].
  discriminate.
Qed.

Lemma fen_castling_complete c :
  forall w k rest,
    Forall (fun x => castling_char x = true) c ->
    exists w' k', fen_castling (c ++ " "%char :: rest) w k = Some (w', k', rest).
Proof.
  induction c as [|x c IH]; intros w k rest F; cbn [app fen_castling].
  - exists w, k. reflexivity.
  - inversion F as [|? ? C F']; subst. unfold castling_char in C.
    destruct (Ascii.eqb_spec x " ") as [->|_]; [discriminate C|].
    destruct (Ascii.eqb x "-"); [now apply IH|].
    destruct (Ascii.eqb x "K"); [now apply IH|].
    destruct (Ascii.eqb x "Q"); [now apply IH|].
    destruct (Ascii.eqb x "k"); [now apply IH|].
    destruct (Ascii.eqb x "q"); [now apply IH|].
    discriminate C.
Qed.

Lemma clock_in_range n :
  0 <= n <= 100 ->
  ((n <? INT_MIN) || (n >? INT_MAX) = false) /\ ((n <? 0) || (n >? 100) = false).
Proof.
  intros H. unfold INT_MIN, INT_MAX. rewrite !Z.gtb_ltb.
  split; apply orb_false_iff; split; apply Z.ltb_ge; lia.
Qed.

Lemma fen_tail_accepts s b side w k :
  (exists g, fen_tail s b side w k = Ok (Some g))
  <-> exists e x clock n,
      s = e ++ x :: clock /\ en_passant_field e
      /\ scan_int clock = Some n /\ 0 <= n <= 100.
Proof.
  unfold fen_tail. split.
  - intros [g H]. destruct s as [|c s]; [discriminate|].
    destruct (in_range "a" "h" c) eqn:A.
    + destruct ((code c - code "a" <? 0) || (code c - code "a" >? 7));
        [discriminate|].
      destruct s as [|c2 s]; [discriminate|].
      destruct (in_range "1" "8" c2) eqn:D; [|discriminate].
      destruct s as [|x clock]; [discriminate|].
      destruct (scan_int clock) as [n|] eqn:N; [|discriminate].
      destruct ((n <? INT_MIN) || (n >? INT_MAX)); [discriminate|].
      destruct ((n <? 0) || (n >? 100)) eqn:R; [discriminate|].
      exists [c; c2], x, clock, n. split; [reflexivity|].
      split; [right; exists c, c2; auto|]. split; [exact N|].
      apply orb_false_iff in R. rewrite Z.gtb_ltb in R.
      destruct R as [R1 R2]. apply Z.ltb_ge in R1, R2. lia.
    + destruct (Ascii.eqb_spec c "-") as [->|]; [|discriminate].
      destruct s as [|x clock]; [discriminate|].
      destruct (scan_int clock) as [n|] eqn:N; [|discriminate].
      destruct ((n <? INT_MIN) || (n >? INT_MAX)); [discriminate|].
      destruct ((n <? 0) || (n >? 100)) eqn:R; [discriminate|].
      exists ["-"%char], x, clock, n. split; [reflexivity|].
      split; [now left|]. split; [exact N|].
      apply orb_false_iff in R. rewrite Z.gtb_ltb in R.
      destruct R as [R1 R2]. apply Z.ltb_ge in R1, R2. lia.
  - intros (e & x & clock & n & -> & E & N & R).
    destruct (clock_in_range n R) as [R1 R2].
    destruct E as [->|(f & r & -> & A & D)]; cbn [app].
    + change (in_range "a" "h" "-") with false. cbn [Ascii.eqb Bool.eqb andb].
      rewrite N, R1, R2. eauto.
    + rewrite A, D.
      replace ((code f - code "a" <? 0) || (code f - code "a" >? 7)) with false.
      * rewrite N, R1, R2. eauto.
      * symmetry. unfold in_range in A. apply andb_true_iff in A.
        destruct A as [A1 A2]. apply Z.leb_le in A1, A2.
        change (code "a") with 97 in *. change (code "h") with 104 in *.
        rewrite Z.gtb_ltb. apply orb_false_iff. split; apply Z.ltb_ge; lia.
Qed.

Lemma fen_to_game_accepted_iff fen :
  (exists g, fen_to_game fen = Ok (Some g)) <-> fen_accepted fen.
Proof.
  unfold fen_to_game, fen_accepted. split.
  - intros [g H].
    destruct (fen_placement fen (board zero_game) 0 7) as [[b s]|] eqn:P;
      [|discriminate].
    destruct (fen_placement_sound _ _ _ _ _ _ P) as (p & -> & O).
    destruct s as [|side [|sep s]]; try discriminate.
    destruct (Ascii.eqb side "w" || Ascii.eqb side "b") eqn:S; [|discriminate].
    destruct (Ascii.eqb_spec sep " ") as [->|]; [|discriminate]. cbn [negb] in H.
    destruct (fen_castling s _ _) as [[[w k] s']|] eqn:C; [|discriminate].
    destruct (fen_castling_sound _ _ _ _ _ _ C) as (c & -> & F).
    destruct (proj1 (fen_tail_accepts _ _ _ _ _) (ex_intro _ g H))
      as (e & x & clock & n & -> & E & N & R).
    exists p, side, c, e, x, clock, n.
    split; [reflexivity|]. split; [exact O|]. split; [|auto].
    apply orb_true_iff in S. destruct S as [S|S]; apply Ascii.eqb_eq in S; auto.
  - intros (p & side & c & e & x & clock & n & -> & O & S & F & E & N & R).
    destruct (fen_placement_complete p 0 7 (board zero_game)
                (side :: " "%char :: c ++ " "%char :: e ++ x :: clock) O) as [b ->].
    replace (Ascii.eqb side "w" || Ascii.eqb side "b") with true
      by (destruct S as [-> | ->]; reflexivity).
    cbn [Ascii.eqb Bool.eqb andb negb].
    destruct (fen_castling_complete c (white_castling_avail zero_game)
                (black_castling_avail zero_game) (e ++ x :: clock) F)
      as (w & k & ->).
    apply fen_tail_accepts. exists e, x, clock, n. auto.
Qed.

(** C5 (what the code does).  [fen_to_game] returns a position exactly for
    the strings of [fen_accepted]; when it returns at all (it does not read
    past the end of the string and the number fits an [int]) it returns NULL,
    and no position, exactly for the other strings.  The test of line 58,
    [file > 7 || rank < 0], comes before a character is read and not after:
    a run of empty squares that starts on the board is accepted wherever it
    ends, a ['/'] is accepted on any rank, and nothing asks that a rank is
    full or that there are eight of them.  Such strings are not refused,
    against the comment of line 43. *)
Theorem fen_to_game_null_iff fen :
  ((exists g, fen_to_game fen = Ok (Some g)) <-> fen_accepted fen)
  /\ ((forall e, fen_to_game fen <> Err e) ->
      (fen_to_game fen = Ok None <-> ~ fen_accepted fen)).
Proof.
  split; [apply fen_to_game_accepted_iff|].
  intros D. split.
  - intros H A. apply fen_to_game_accepted_iff in A. destruct A as [g A].
    rewrite H in A. discriminate.
  - intros N. destruct (fen_to_game fen) as [[g|]|e] eqn:H.
    + exfalso. apply N. apply fen_to_game_accepted_iff. rewrite H. eauto.
    + reflexivity.
    + exfalso. now apply (D e).
Qed.

Lemma fen_to_game_null_iff_witness :
  let wide := list_ascii_of_string "k68/K7/8/8/8/8/8/8 w - - 0 1" in
  let nine := list_ascii_of_string "4k3/8/8/8/8/8/8/4K3/ w - - 0 1" in
  let refused := list_ascii_of_string "8/8/8/8/8/8/8/8p w - - 0 1" in
  (rank_widths wide = [15; 8; 8; 8; 8; 8; 8; 8]
   /\ fen_to_game wide = Ok (Some (position_of "k68/K7/8/8/8/8/8/8 w - - 0 1"))
   /\ fen_accepted wide)
  /\ (rank_widths nine = [8; 8; 8; 8; 8; 8; 8; 8; 0]
      /\ fen_to_game nine
         = Ok (Some (position_of "4k3/8/8/8/8/8/8/4K3/ w - - 0 1"))
      /\ fen_accepted nine)
  /\ ((forall e, fen_to_game refused <> Err e)
      /\ fen_to_game refused = Ok None
      /\ ~ fen_accepted refused).
Proof.
  intros wide nine refused.
  assert (W : fen_to_game wide
              = Ok (Some (position_of "k68/K7/8/8/8/8/8/8 w - - 0 1")))
    by (vm_compute; reflexivity).
  assert (N : fen_to_game nine
              = Ok (Some (position_of "4k3/8/8/8/8/8/8/4K3/ w - - 0 1")))
    by (vm_compute; reflexivity).
  assert (H : fen_to_game refused = Ok None) by (vm_compute; reflexivity).
  assert (D : forall e, fen_to_game refused <> Err e)
    by (intros e; rewrite H; discriminate).
  split; [|split].
  - split; [vm_compute; reflexivity|]. split; [exact W|].
    exact (proj1 (proj1 (fen_to_game_null_iff wide)) (ex_intro _ _ W)).
  - split; [vm_compute; reflexivity|]. split; [exact N|].
    exact (proj1 (proj1 (fen_to_game_null_iff nine)) (ex_intro _ _ N)).
  - refine (conj D (conj H _)).
    exact (proj1 (proj2 (fen_to_game_null_iff refused) D) H).
Defined.

(** The last rank of this placement fills seven files, and [fen_to_game]
    returns a position. *)
Lemma short_rank_is_accepted :
  let fen := list_ascii_of_string "4k3/8/8/8/8/8/8/4K2 w - - 0 1" in
  rank_widths fen = [8; 8; 8; 8; 8; 8; 8; 7]
  /\ fen_to_game fen = Ok (Some (position_of "4k3/8/8/8/8/8/8/4K2 w - - 0 1")).
Proof.
  intros fen. split; vm_compute; reflexivity.
Qed.

(** What else [fen_accepted] lets through: two ranks only, a run of empty
    squares that passes the eighth file, any character after the en passant
    field, and text after the number. *)
Lemma lenient_fen_is_accepted :
  let fen := list_ascii_of_string "K7/k68 w - -x5abc" in
  rank_widths fen = [8; 15]
  /\ fen_to_game fen = Ok (Some (position_of "K7/k68 w - -x5abc"))
  /\ halfmove_clock (position_of "K7/k68 w - -x5abc") = 5.
Proof.
  intros fen. split; [vm_compute; reflexivity|].
  split; vm_compute; reflexivity.
Qed.

(** A string that ends with its en passant field makes [sscanf] read past
    its end. *)
Lemma fen_without_clock_is_read_past_its_end :
  fen_to_game (list_ascii_of_string "8/8/8/8/8/8/8/8 w - -") = Err OutOfBounds.
Proof. vm_compute; reflexivity. Qed.

(** ** The depth bound only cuts calls off *)

Lemma below_refl {A : Type} (r : res A) : below r r.
Proof. now right. Qed.

Lemma below_bind {A B : Type} (m m' : res A) (k k' : A -> res B) :
  below m m' -> (forall a, below (k a) (k' a)) -> below (bind m k) (bind m' k').
Proof.
  intros [->|<-] K; [now left|]. destruct m as [a|e]; [apply K|now right].
Qed.

Lemma below_exists_m {A : Type} (f f' : A -> res bool) (l : list A) :
  (forall x, below (f x) (f' x)) -> below (exists_m f l) (exists_m f' l).
Proof.
  intros F. induction l as [|x l IH]; [apply below_refl|].
  cbn [exists_m]. apply below_bind; [apply F|].
  intros [|]; [apply below_refl|exact IH].
Qed.

Section Deeper.

Variables att att' : game -> square -> Z -> res bool.
Hypothesis att_below : forall g s c, below (att g s c) (att' g s c).

Lemma below_is_attacked_with g s :
  below (is_attacked_with att g s) (is_attacked_with att' g s).
Proof.
  unfold is_attacked_with. apply below_bind; [apply below_refl|].
  intros _. apply att_below.
Qed.

Lemma below_king_has_way g from to :
  below (king_has_way att g from to) (king_has_way att' g from to).
Proof.
  unfold king_has_way. apply below_bind; [apply below_refl|]. intros _. cbv zeta.
  destruct ((Z.abs (file from - file to) =? 2) && (Z.abs (rank from - rank to) =? 0));
    [|apply below_refl].
  destruct (Z.land _ _ =? 0); [apply below_refl|].
  apply below_bind; [apply below_refl|]. intros free.
  destruct (negb free); [apply below_refl|].
  apply below_bind; [apply below_is_attacked_with|]. intros a.
  destruct a; [apply below_refl|].
  apply below_bind; [apply att_below|]. intros b. apply below_refl.
Qed.

Lemma below_piece_has_way g from to :
  below (piece_has_way att g from to) (piece_has_way att' g from to).
Proof.
  unfold piece_has_way. cbv zeta.
  repeat (match goal with
          | |- context [if ?c then _ else _] => destruct c
          end; [apply below_refl|]);
    try apply below_refl.
  destruct (_ =? _); [apply below_king_has_way|apply below_refl].
Qed.

Lemma below_attackers_scan g s c :
  below (attackers_scan att g s c) (attackers_scan att' g s c).
Proof.
  unfold attackers_scan. apply below_exists_m. intros from. cbv zeta.
  destruct (negb _); [apply below_piece_has_way|apply below_refl].
Qed.

End Deeper.

Lemma below_is_attacked_by d :
  forall g s c, below (is_attacked_by d g s c) (is_attacked_by (S d) g s c).
Proof.
  induction d as [|d IH]; intros g s c; [now left|].
  change (below (attackers_scan (is_attacked_by d) g s c)
                (attackers_scan (is_attacked_by (S d)) g s c)).
  apply below_attackers_scan. exact IH.
Qed.

Lemma below_is_checked d g c :
  below (is_checked d g c) (is_checked (S d) g c).
Proof.
  unfold is_checked. destruct (find _ all_squares); [|apply below_refl].
  apply below_is_attacked_with, below_is_attacked_by.
Qed.

Lemma below_is_legal_move d g from to promotion :
  below (is_legal_move d g from to promotion) (is_legal_move (S d) g from to promotion).
Proof.
  unfold is_legal_move.
  repeat (match goal with
          | |- context [if ?c then Ok false else _] => destruct c
          end; [apply below_refl|]).
  apply below_bind; [apply below_piece_has_way, below_is_attacked_by|]. intros way.
  destruct (negb way); [apply below_refl|].
  destruct (negb (promotion_fits g from to promotion)); [apply below_refl|].
  cbv zeta. apply below_bind; [apply below_is_checked|]. intros c. apply below_refl.
Qed.

Lemma below_can_make_any_move d g :
  below (can_make_any_move d g) (can_make_any_move (S d) g).
Proof.
  unfold can_make_any_move. apply below_exists_m. intros from.
  destruct (negb _); [|apply below_refl].
  apply below_exists_m. intros to. apply below_is_legal_move.
Qed.

Lemma below_move_status d g : below (move_status d g) (move_status (S d) g).
Proof.
  unfold move_status.
  destruct (repetitions g =? 3); [apply below_refl|].
  destruct (negb (enough_material g)); [apply below_refl|].
  apply below_bind; [apply below_can_make_any_move|]. intros any.
  destruct (negb any).
  - apply below_bind; [apply below_is_checked|]. intros c. apply below_refl.
  - destruct (halfmove_clock g =? 100); [apply below_refl|].
    apply below_bind; [apply below_is_checked|]. intros c. apply below_refl.
Qed.

Lemma below_move d t g from to promotion :
  below (move d t g from to promotion) (move (S d) t g from to promotion).
Proof.
  unfold move. apply below_bind; [apply below_is_legal_move|]. intros legal.
  destruct (negb legal); [apply below_refl|]. cbv zeta.
  apply below_bind; [apply below_move_status|]. intros r. apply below_refl.
Qed.

(** What [move] returns under a depth bound it returns under every larger
    one: the bound never changes a result, it only keeps a call from
    returning. *)
Lemma move_deeper d d' t g from to promotion x :
  (d <= d')%nat ->
  move d t g from to promotion = Ok x ->
  move d' t g from to promotion = Ok x.
Proof.
  induction 1 as [|d' _ IH]; [auto|].
  intros H. specialize (IH H).
  destruct (below_move d' t g from to promotion) as [E|E]; congruence.
Qed.

Lemma is_legal_move_deeper d d' g from to promotion b :
  (d <= d')%nat ->
  is_legal_move d g from to promotion = Ok b ->
  is_legal_move d' g from to promotion = Ok b.
Proof.
  induction 1 as [|d' _ IH]; [auto|].
  intros H. specialize (IH H).
  destruct (below_is_legal_move d' g from to promotion) as [E|E]; congruence.
Qed.

(** ** The attack test nests at most three deep *)

Lemma exists_m_false {A : Type} (f : A -> res bool) (l : list A) :
  exists_m f l = Ok false -> forall x, In x l -> f x = Ok false.
Proof.
  induction l as [|y l IH]; cbn [exists_m In]; [tauto|].
  destruct (f y) as [[|]|e] eqn:E; cbn [bind]; try discriminate.
  intros H x [<-|I]; auto.
Qed.

Lemma exists_m_error {A : Type} (f : A -> res bool) (l : list A) (e : error) :
  exists_m f l = Err e -> exists x, In x l /\ f x = Err e.
Proof.
  induction l as [|y l IH]; cbn [exists_m In]; [discriminate|].
  destruct (f y) as [[|]|e'] eqn:E; cbn [bind]; try discriminate.
  - intros H. destruct (IH H) as (x & I & F). eauto.
  - intros [= ->]. eauto.
Qed.

Lemma in_all_squares (s : square) :
  In s all_squares -> 0 <= file s <= 7 /\ 0 <= rank s <= 7.
Proof.
  unfold all_squares. rewrite in_flat_map. intros (f & F & I).
  apply in_map_iff in I. destruct I as (r & <- & R). cbn [file rank].
  unfold coords in F, R. cbn [In] in F, R. lia.
Qed.

(** The loops that walk towards a corner found every square on their way
    empty when they return [true]. *)
Lemma free_until_left g n r :
  forall f, free_until g n f r (-1) 0 0 r = Ok true ->
            forall x, 1 <= x <= f -> board g x r = EMPTY.
Proof.
  induction n as [|n IH]; intros f; cbn [free_until]; [discriminate|].
  destruct (Z.eqb_spec f 0) as [->|N]; cbn [andb].
  - rewrite Z.eqb_refl. intros _ x X. lia.
  - destruct (negb (on_board f r)); [discriminate|].
    destruct (Z.eqb_spec (board g f r) EMPTY) as [E|]; cbn [negb]; [|discriminate].
    replace (r + 0) with r by lia. intros H x X.
    destruct (Z.eq_dec x f) as [->|D]; [exact E|].
    apply (IH (f + -1) H). lia.
Qed.

Lemma free_until_right g n r :
  forall f, free_until g n f r 1 0 7 r = Ok true ->
            forall x, f <= x <= 6 -> board g x r = EMPTY.
Proof.
  induction n as [|n IH]; intros f; cbn [free_until]; [discriminate|].
  destruct (Z.eqb_spec f 7) as [->|N]; cbn [andb].
  - rewrite Z.eqb_refl. intros _ x X. lia.
  - destruct (negb (on_board f r)); [discriminate|].
    destruct (Z.eqb_spec (board g f r) EMPTY) as [E|]; cbn [negb]; [|discriminate].
    replace (r + 0) with r by lia. intros H x X.
    destruct (Z.eq_dec x f) as [->|D]; [exact E|].
    apply (IH (f + 1) H). lia.
Qed.

Lemma free_until_no_depth g n :
  forall f r df dr tf tr, free_until g n f r df dr tf tr <> Err DepthExceeded.
Proof.
  induction n as [|n IH]; intros f r df dr tf tr; cbn [free_until]; [discriminate|].
  destruct ((f =? tf) && (r =? tr)); [discriminate|].
  destruct (negb (on_board f r)); [discriminate|].
  destruct (negb (board g f r =? EMPTY)); [discriminate|]. apply IH.
Qed.

(** [king_has_way] meets the depth bound only in one of its two attack
    tests, and those it reaches only past the loop of the castling branch. *)
Lemma king_has_way_depth att g k t :
  king_has_way att g k t = Err DepthExceeded ->
  castles_towards g k t
  /\ (is_attacked_with att g k = Err DepthExceeded
      \/ (is_attacked_with att g k = Ok false
          /\ att g (rook_to_of k t) (opposite (Z.land (piece_at g k) COLOR))
             = Err DepthExceeded)).
Proof.
  unfold king_has_way, castles_towards, rook_to_of.
  destruct (Z.eqb_spec (Z.land (piece_at g k) PIECE_TYPE) KING) as [T|];
    cbn [assert bind]; [|discriminate].
  destruct (Z.eqb_spec (Z.abs (file k - file t)) 2) as [F|]; cbn [andb];
    [|destruct (_ || _); discriminate].
  destruct (Z.eqb_spec (Z.abs (rank k - rank t)) 0) as [R|];
    [|destruct (_ || _); discriminate].
  destruct (Z.gtb_spec (file t) (file k)) as [G|G].
  - change (KING =? QUEEN) with false. cbv iota zeta. cbn [file rank].
    destruct (Z.land KING _ =? 0); [discriminate|].
    destruct (free_until g 8 (file k + 1) (rank k) 1 0 7 (rank k)) as [[|]|e] eqn:W;
      cbn [bind negb]; try discriminate.
    + intros H. split.
      * split; [exact T|]. split; [lia|]. left. split; [lia|].
        intros x X. apply (free_until_right _ _ _ _ W). lia.
      * destruct (is_attacked_with att g k) as [[|]|e] eqn:A; cbn [bind] in H;
          try discriminate; [right|left; congruence].
        split; [reflexivity|].
        destruct (att g _ _) as [[|]|e] eqn:B; cbn [bind] in H; try discriminate.
        congruence.
    + intros [= ->]. now elim (free_until_no_depth _ _ _ _ _ _ _ _ W).
  - change (QUEEN =? QUEEN) with true. cbv iota zeta. cbn [file rank].
    destruct (Z.land QUEEN _ =? 0); [discriminate|].
    destruct (free_until g 8 (file k + -1) (rank k) (-1) 0 0 (rank k)) as [[|]|e] eqn:W;
      cbn [bind negb]; try discriminate.
    + intros H. split.
      * split; [exact T|]. split; [lia|]. right. split; [lia|].
        intros x X. apply (free_until_left _ _ _ _ W). lia.
      * destruct (is_attacked_with att g k) as [[|]|e] eqn:A; cbn [bind] in H;
          try discriminate; [right|left; congruence].
        split; [reflexivity|].
        destruct (att g _ _) as [[|]|e] eqn:B; cbn [bind] in H; try discriminate.
        congruence.
    + intros [= ->]. now elim (free_until_no_depth _ _ _ _ _ _ _ _ W).
Qed.

Lemma king_not_empty g k :
  Z.land (piece_at g k) PIECE_TYPE = KING -> board g (file k) (rank k) <> EMPTY.
Proof. unfold piece_at. intros T E. rewrite E in T. discriminate T. Qed.

(** No king castles towards a king that itself castles. *)
Lemma castling_kings_apart g k t k1 :
  0 <= file k <= 7 -> 0 <= file t <= 7 ->
  castles_towards g k t -> castles_towards g k1 k -> False.
Proof.
  intros Bk Bt (T & R & P) (T1 & R1 & P1).
  apply king_not_empty in T, T1.
  destruct k as [kf kr], t as [tf tr], k1 as [f1 r1]. cbn [file rank] in *. subst.
  destruct P1 as [[F1 P1]|[F1 P1]]; destruct P as [[F P]|[F P]].
  - apply T; apply P1; lia.
  - destruct (Z.le_gt_cases kf 6); [apply T; apply P1; lia|apply T1; apply P; lia].
  - destruct (Z.le_gt_cases 1 kf); [apply T; apply P1; lia|apply T1; apply P; lia].
  - apply T; apply P1; lia.
Qed.

(** The kings that castle towards the [rook_to] square of a castling king:
    that king itself, or the king on the h-file for a king on the a-file. *)
Lemma castling_towards_rook_to g k t k' :
  0 <= file k <= 7 -> 0 <= file t <= 7 ->
  castles_towards g k t -> castles_towards g k' (rook_to_of k t) ->
  k' = k
  \/ (file k = 0 /\ file k' = 7 /\ file (rook_to_of k t) = file k' - 2).
Proof.
  intros Bk Bt (T & R & P) (T1 & R1 & P1). unfold rook_to_of in *.
  apply king_not_empty in T, T1.
  destruct k as [kf kr], t as [tf tr], k' as [f1 r1]. cbn [file rank] in *. subst.
  destruct (Z.gtb_spec tf kf) as [G|G].
  - destruct P as [[F P]|[F P]]; [|lia].
    destruct P1 as [[F1 P1]|[F1 P1]].
    + assert (f1 = 3) by lia. subst f1.
      destruct (Z.eq_dec kf 3) as [->|N]; [now left|]. exfalso.
      destruct (Z.lt_ge_cases kf 3); [apply T1; apply P; lia|apply T; apply P1; lia].
    + assert (f1 = 7) by lia. subst f1. right.
      destruct (Z.eq_dec kf 0) as [->|N]; [lia|]. exfalso. apply T. apply P1. lia.
  - destruct P as [[F P]|[F P]]; [lia|].
    destruct P1 as [[F1 P1]|[F1 P1]].
    + assert (f1 = 1) by lia. subst f1. exfalso. apply T1. apply P. lia.
    + assert (f1 = 5) by lia. subst f1.
      destruct (Z.eq_dec kf 5) as [->|N]; [now left|]. exfalso.
      destruct (Z.lt_ge_cases kf 5); [apply T; apply P1; lia|apply T1; apply P; lia].
Qed.

Lemma on_board_in_all_squares (s : square) :
  0 <= file s <= 7 -> 0 <= rank s <= 7 -> In s all_squares.
Proof.
  destruct s as [f r]. cbn [file rank]. intros F R.
  unfold all_squares. apply in_flat_map. exists f. split.
  - unfold coords. cbn [In]. lia.
  - apply in_map. unfold coords. cbn [In]. lia.
Qed.

Ltac pass_assert :=
  unfold assert;
  match goal with
  | |- context [bind (if ?c then Ok tt else Err AssertFailed) _] =>
      destruct c; cbn [bind]; [|discriminate]
  end.

Lemma piece_has_way_depth att g from to :
  piece_has_way att g from to = Err DepthExceeded ->
  king_has_way att g from to = Err DepthExceeded.
Proof.
  unfold piece_has_way. cbv zeta.
  destruct (_ =? PAWN).
  { unfold pawn_has_way. pass_assert. cbv zeta. split_ifs; discriminate. }
  destruct (_ =? KNIGHT); [discriminate|].
  destruct (_ =? BISHOP); [discriminate|].
  assert (R : rook_has_way g from to <> Err DepthExceeded).
  { unfold rook_has_way. destruct (_ && _); [discriminate|].
    destruct (file from =? file to); cbv zeta.
    - destruct (free_until _ _ _ _ _ _ _ _) as [[|]|e] eqn:W; cbn [bind negb];
        try discriminate.
      + destruct (rank from =? rank to); cbv zeta; [|discriminate].
        destruct (free_until g 8 (file from + _) _ _ _ _ _) as [[|]|e'] eqn:W';
          cbn [bind negb]; try discriminate.
        intros [= ->]. now elim (free_until_no_depth _ _ _ _ _ _ _ _ W').
      + intros [= ->]. now elim (free_until_no_depth _ _ _ _ _ _ _ _ W).
    - cbn [bind negb]. destruct (rank from =? rank to); cbv zeta; [|discriminate].
      destruct (free_until _ _ _ _ _ _ _ _) as [[|]|e] eqn:W; cbn [bind negb];
        try discriminate.
      intros [= ->]. now elim (free_until_no_depth _ _ _ _ _ _ _ _ W). }
  destruct (_ =? ROOK); [intros H; now elim R|].
  destruct (_ =? QUEEN).
  { unfold queen_has_way. pass_assert.
    destruct (bishop_has_way g from to); [discriminate|]. intros H; now elim R. }
  destruct (_ =? KING); [auto|discriminate].
Qed.

Lemma attackers_scan_depth att g s c :
  attackers_scan att g s c = Err DepthExceeded ->
  exists k, In k all_squares
            /\ Z.land (piece_at g k) c <> 0
            /\ king_has_way att g k s = Err DepthExceeded.
Proof.
  unfold attackers_scan. intros H. apply exists_m_error in H.
  destruct H as (k & I & H). exists k. split; [exact I|]. cbv beta zeta in H.
  destruct (Z.eqb_spec (Z.land (piece_at g k) c) 0) as [|N]; cbn [negb] in H;
    [discriminate|].
  split; [exact N|]. now apply piece_has_way_depth.
Qed.

(** A king at which the scan finds no attacker does not have the color the
    scan looks for: it would have a way to its own square. *)
Lemma king_not_scanned att g k c :
  Z.land (piece_at g k) PIECE_TYPE = KING ->
  In k all_squares ->
  attackers_scan att g k c = Ok false ->
  Z.land (piece_at g k) c = 0.
Proof.
  intros T I H. unfold attackers_scan in H.
  pose proof (exists_m_false _ _ H k I) as F. cbv beta zeta in F.
  destruct (Z.eqb_spec (Z.land (piece_at g k) c) 0) as [E|N]; [exact E|].
  exfalso. cbn [negb] in F.
  revert F. unfold piece_has_way. rewrite T.
  change (KING =? PAWN) with false. change (KING =? KNIGHT) with false.
  change (KING =? BISHOP) with false. change (KING =? ROOK) with false.
  change (KING =? QUEEN) with false. change (KING =? KING) with true.
  cbv iota zeta. unfold king_has_way. rewrite T.
  change (KING =? KING) with true. cbn [assert bind]. cbv zeta.
  rewrite !Z.sub_diag. change (Z.abs 0 =? 2) with false.
  change (Z.abs 0 >? 1) with false. cbn [andb orb]. discriminate.
Qed.

Lemma is_attacked_with_depth att g k :
  is_attacked_with att g k = Err DepthExceeded ->
  att g k (opposite (Z.land (piece_at g k) COLOR)) = Err DepthExceeded.
Proof.
  unfold is_attacked_with. pass_assert. auto.
Qed.

Lemma is_attacked_with_false att g k :
  is_attacked_with att g k = Ok false ->
  att g k (opposite (Z.land (piece_at g k) COLOR)) = Ok false.
Proof.
  unfold is_attacked_with. pass_assert. auto.
Qed.

Lemma rook_to_of_file k t : 0 <= file (rook_to_of k t) <= 7.
Proof. unfold rook_to_of. cbn [file]. destruct (file t >? file k); lia. Qed.

(** The scan for attackers of a castling king calls no attack test. *)
Lemma scan_at_castling_king att g k t c :
  In k all_squares -> 0 <= file t <= 7 ->
  castles_towards g k t ->
  attackers_scan att g k c <> Err DepthExceeded.
Proof.
  intros Ik Bt C H. apply in_all_squares in Ik.
  destruct (attackers_scan_depth _ _ _ _ H) as (k1 & _ & _ & K).
  apply king_has_way_depth in K. destruct K as [C1 _].
  exact (castling_kings_apart g k t k1 (proj1 Ik) Bt C C1).
Qed.

Section Nesting.

Variable d : nat.
Variable g : game.

Let att1 := is_attacked_by (S d).
Let att2 := is_attacked_by (S (S d)).

(** A castling king off the a-file: its attack tests return under any
    bound of 1 or more. *)
Lemma king_off_a_file_returns k t :
  In k all_squares -> 0 <= file t <= 7 -> file k <> 0 ->
  king_has_way att1 g k t <> Err DepthExceeded.
Proof.
  intros Ik Bt N H. apply king_has_way_depth in H. destruct H as [C [A|[A B]]].
  - apply is_attacked_with_depth in A.
    exact (scan_at_castling_king _ _ _ _ _ Ik Bt C A).
  - apply is_attacked_with_false in A.
    pose proof (king_not_scanned _ _ _ _ (proj1 C) Ik A) as O.
    destruct (attackers_scan_depth _ _ _ _ B) as (k' & _ & Ck & K).
    apply king_has_way_depth in K. destruct K as [C' _].
    destruct (castling_towards_rook_to g k t k'
                (proj1 (in_all_squares _ Ik)) Bt C C') as [->|[Z0 _]].
    + now apply Ck.
    + now apply N.
Qed.

(** Any castling king: its attack tests return under a bound of 2 or more. *)
Lemma king_returns k t :
  In k all_squares -> 0 <= file t <= 7 ->
  king_has_way att2 g k t <> Err DepthExceeded.
Proof.
  intros Ik Bt H. apply king_has_way_depth in H. destruct H as [C [A|[A B]]].
  - apply is_attacked_with_depth in A.
    exact (scan_at_castling_king _ _ _ _ _ Ik Bt C A).
  - apply is_attacked_with_false in A.
    pose proof (king_not_scanned _ _ _ _ (proj1 C) Ik A) as O.
    destruct (attackers_scan_depth _ _ _ _ B) as (k' & Ik' & Ck & K).
    pose proof K as K'. apply king_has_way_depth in K'. destruct K' as [C' _].
    destruct (castling_towards_rook_to g k t k'
                (proj1 (in_all_squares _ Ik)) Bt C C') as [->|(_ & F7 & _)].
    + now apply Ck.
    + apply (king_off_a_file_returns k' (rook_to_of k t) Ik'
               (rook_to_of_file k t)); [lia|exact K].
Qed.

(** The attack test of any square returns under a bound of 3 or more. *)
Lemma is_attacked_by_returns s c :
  0 <= file s <= 7 ->
  is_attacked_by (S (S (S d))) g s c <> Err DepthExceeded.
Proof.
  intros Bs H.
  destruct (attackers_scan_depth _ _ _ _ H) as (k & Ik & _ & K).
  exact (king_returns k s Ik Bs K).
Qed.

End Nesting.

Lemma bind_error {A B : Type} (m : res A) (k : A -> res B) (e : error) :
  bind m k = Err e -> m = Err e \/ exists a, m = Ok a /\ k a = Err e.
Proof. destruct m as [a|e']; cbn [bind]; [eauto|]. intros [= ->]. now left. Qed.

Lemma is_checked_returns d g c :
  is_checked (S (S (S d))) g c <> Err DepthExceeded.
Proof.
  unfold is_checked.
  destruct (find _ all_squares) as [king|] eqn:F; [|discriminate].
  apply find_some in F. destruct F as [I _]. intros H.
  apply is_attacked_with_depth in H.
  apply in_all_squares in I.
  exact (is_attacked_by_returns d g king _ (proj1 I) H).
Qed.

Lemma is_legal_move_returns d g from to promotion :
  is_legal_move (S (S (S d))) g from to promotion <> Err DepthExceeded.
Proof.
  unfold is_legal_move.
  destruct ((rank from <? 0) || (rank from >? 7) || (file from <? 0) || (file from >? 7)
            || (rank to <? 0) || (rank to >? 7) || (file to <? 0) || (file to >? 7))
    eqn:R; [discriminate|].
  repeat (apply orb_false_elim in R; destruct R as [R ?]).
  repeat match goal with
         | H : (_ <? _) = false |- _ => apply Z.ltb_ge in H
         | H : (_ >? _) = false |- _ => rewrite Z.gtb_ltb in H; apply Z.ltb_ge in H
         end.
  destruct (piece_at g from =? EMPTY); [discriminate|].
  destruct (negb _); [discriminate|].
  destruct (_ =? side_to_move g); [discriminate|].
  intros D. apply bind_error in D. destruct D as [D|(way & _ & D)].
  - apply piece_has_way_depth in D.
    apply (king_returns (S d) g from to); [|lia|exact D].
    apply on_board_in_all_squares; lia.
  - destruct (negb way); [discriminate|].
    destruct (negb _); [discriminate|]. cbv zeta in D.
    apply bind_error in D. destruct D as [D|(c & _ & D)].
    + exact (is_checked_returns d _ _ D).
    + destruct c; discriminate.
Qed.

Lemma can_make_any_move_returns d g :
  can_make_any_move (S (S (S d))) g <> Err DepthExceeded.
Proof.
  unfold can_make_any_move. intros H.
  apply exists_m_error in H. destruct H as (from & _ & H). cbv beta in H.
  destruct (negb _); [|discriminate].
  apply exists_m_error in H. destruct H as (to & _ & H).
  exact (is_legal_move_returns d _ _ _ _ H).
Qed.

Lemma move_status_returns d g :
  move_status (S (S (S d))) g <> Err DepthExceeded.
Proof.
  unfold move_status.
  destruct (repetitions g =? 3); [discriminate|].
  destruct (negb (enough_material g)); [discriminate|].
  intros H. apply bind_error in H. destruct H as [H|(any & _ & H)].
  { exact (can_make_any_move_returns d g H). }
  destruct (negb any).
  - apply bind_error in H. destruct H as [H|(c & _ & H)].
    + exact (is_checked_returns d _ _ H).
    + destruct c; discriminate.
  - destruct (halfmove_clock g =? 100); [discriminate|].
    apply bind_error in H. destruct H as [H|(c & _ & H)].
    + exact (is_checked_returns d _ _ H).
    + destruct c; discriminate.
Qed.

(** X20.  The calls of the attack test never nest more than three deep:
    under a bound of 3 or more [move] does not meet the bound, on any
    position and for any squares, and gives what it gives under the
    bound 3. *)
Theorem move_returns d t g from to promotion :
  move (3 + d) t g from to promotion <> Err DepthExceeded
  /\ move (3 + d) t g from to promotion = move 3 t g from to promotion.
Proof.
  assert (R : forall n, move (3 + n) t g from to promotion <> Err DepthExceeded).
  { intros n. cbn [Nat.add]. unfold move. intros H.
    apply bind_error in H. destruct H as [H|(legal & _ & H)].
    { exact (is_legal_move_returns n _ _ _ _ H). }
    destruct (negb legal); [discriminate|]. cbv zeta in H.
    apply bind_error in H. destruct H as [H|(r & _ & H)]; [|discriminate].
    exact (move_status_returns n _ H). }
  split; [apply R|].
  induction d as [|d IH]; [reflexivity|].
  rewrite <- IH. replace (3 + S d)%nat with (S (3 + d)) by lia.
  destruct (below_move (3 + d) t g from to promotion) as [E|E]; [|now symmetry].
  now elim (R d).
Qed.

Lemma is_legal_move_exact d g from to promotion :
  is_legal_move (3 + d) g from to promotion = is_legal_move 3 g from to promotion.
Proof.
  induction d as [|d IH]; [reflexivity|].
  rewrite <- IH. replace (3 + S d)%nat with (S (3 + d)) by lia.
  destruct (below_is_legal_move (3 + d) g from to promotion) as [E|E]; [|now symmetry].
  now elim (is_legal_move_returns d g from to promotion).
Qed.

(** * Further properties of the engine *)

(** ** What the results of [move] mean *)

(** [is_legal_move] looks at the promotion through [promotion_fits] only. *)
Lemma is_legal_move_promotion d g from to p q :
  promotion_fits g from to p = promotion_fits g from to q ->
  is_legal_move d g from to p = is_legal_move d g from to q.
Proof. intros H. unfold is_legal_move. now rewrite H. Qed.

(** A pawn goes one or two ranks in the direction of its color. *)
Lemma pawn_advance g from to :
  pawn_has_way g from to = Ok true ->
  let direction := if Z.land (piece_at g from) COLOR =? WHITE then 1 else -1 in
  rank to - rank from = direction \/ rank to - rank from = 2 * direction.
Proof.
  unfold pawn_has_way. pass_assert. cbv zeta.
  destruct (file from =? file to).
  - destruct (negb (piece_at g to =? EMPTY)); [discriminate|].
    destruct (Z.eqb_spec (rank to - rank from)
                (if Z.land (piece_at g from) COLOR =? WHITE then 1 else -1));
      [auto|]. cbn [andb].
    destruct (Z.eqb_spec (rank to - rank from)
                (2 * (if Z.land (piece_at g from) COLOR =? WHITE then 1 else -1)));
      [auto|discriminate].
  - destruct (negb (Z.abs (file from - file to) =? 1)); [discriminate|].
    destruct (Z.eqb_spec (rank to - rank from)
                (if Z.land (piece_at g from) COLOR =? WHITE then 1 else -1));
      [auto|discriminate].
Qed.

(** The promotion [can_make_any_move] tries fits whenever some promotion
    makes the move legal. *)
Lemma probe_promotion_fits d g from to p :
  is_legal_move d g from to p = Ok true ->
  promotion_fits g from to (probe_promotion g from to) = true.
Proof.
  intros L.
  destruct (is_legal_move_true _ _ _ _ _ L) as ((_ & Rf & _ & _) & _ & C & _ & W & F & _).
  pose proof (pawn_bit_iff_type _ _ _ _ _ W) as PB.
  unfold promotion_fits, probe_promotion in *. cbv zeta in *.
  destruct (Z.land (piece_at g from) PAWN =? 0) eqn:P; cbn [negb andb] in *.
  { reflexivity. }
  assert (T : Z.land (piece_at g from) PIECE_TYPE = PAWN) by now apply PB.
  rewrite (piece_has_way_pawn _ _ _ _ T) in W.
  apply pawn_advance in W. cbv zeta in W. rewrite C in W.
  destruct (Z.eqb_spec (side_to_move g) WHITE) as [S|S].
  - destruct (Z.eqb_spec (rank to) 7) as [->|N7]; [reflexivity|].
    destruct (Z.eqb_spec (rank to) 0) as [R0|N0]; [lia|reflexivity].
  - destruct (Z.eqb_spec (rank to) 0) as [->|N0]; [reflexivity|].
    destruct (Z.eqb_spec (rank to) 7) as [R7|N7]; [lia|reflexivity].
Qed.

Lemma land_own_color (p side : Z) :
  Z.land p COLOR = side -> Z.land p side = side.
Proof.
  intros <-. now rewrite Z.land_assoc, Z.land_diag.
Qed.

(** When [can_make_any_move] finds nothing, nothing is legal. *)
Lemma no_move_found d g :
  side_to_move g <> 0 ->
  can_make_any_move d g = Ok false ->
  forall from to p, is_legal_move d g from to p <> Ok true.
Proof.
  intros S H from to p L.
  pose proof (probe_promotion_fits _ _ _ _ _ L) as PF.
  destruct (is_legal_move_true _ _ _ _ _ L)
    as ((Ff & Rf & Ft & Rt) & _ & C & _ & _ & F & _).
  unfold can_make_any_move in H.
  pose proof (exists_m_false _ _ H from (on_board_in_all_squares from Ff Rf)) as H1.
  cbv beta in H1. rewrite (land_own_color _ _ C) in H1.
  apply Z.eqb_neq in S. rewrite S in H1. cbn [negb] in H1.
  pose proof (exists_m_false _ _ H1 to (on_board_in_all_squares to Ft Rt)) as H2.
  cbv beta zeta in H2. fold (probe_promotion g from to) in H2.
  rewrite (is_legal_move_promotion d g from to _ p) in H2; [congruence|].
  now rewrite PF, F.
Qed.

Lemma exists_m_true {A : Type} (f : A -> res bool) (l : list A) :
  exists_m f l = Ok true -> exists x, In x l /\ f x = Ok true.
Proof.
  induction l as [|y l IH]; cbn [exists_m In]; [discriminate|].
  destruct (f y) as [[|]|e] eqn:E; cbn [bind]; try discriminate.
  - intros _. eauto.
  - intros H. destruct (IH H) as (x & I & F). eauto.
Qed.

(** X1.  [can_make_any_move] answers for every move: when it returns true
    some move on the board is legal with the promotion it tried, and when it
    returns false no move is legal, whatever the squares and the promotion
    (the side to move being a color). *)
Theorem can_make_any_move_decides d g :
  side_to_move g <> 0 ->
  (can_make_any_move d g = Ok true ->
   exists from to,
     (0 <= file from <= 7 /\ 0 <= rank from <= 7)
     /\ (0 <= file to <= 7 /\ 0 <= rank to <= 7)
     /\ is_legal_move d g from to (probe_promotion g from to) = Ok true)
  /\ (can_make_any_move d g = Ok false ->
      forall from to p, is_legal_move d g from to p <> Ok true).
Proof.
  intros S. split; [|apply no_move_found; exact S].
  unfold can_make_any_move. intros H.
  apply exists_m_true in H. destruct H as (from & If & H).
  destruct (negb _); [|discriminate].
  apply exists_m_true in H. destruct H as (to & It & H).
  exists from, to. split; [now apply in_all_squares|].
  split; [now apply in_all_squares|exact H].
Qed.

Lemma can_make_any_move_decides_witness :
  let g := position_of "7k/5K2/6Q1/8/8/8/8/8 b - - 0 1" in
  side_to_move g <> 0
  /\ can_make_any_move 3 g = Ok false
  /\ is_legal_move 3 g (sq "h8") (sq "h7") EMPTY <> Ok true.
Proof.
  intros g.
  assert (S : side_to_move g <> 0) by (vm_compute; discriminate).
  assert (N : can_make_any_move 3 g = Ok false) by (vm_compute; reflexivity).
  refine (conj S (conj N _)).
  exact (proj2 (can_make_any_move_decides 3 g S) N (sq "h8") (sq "h7") EMPTY).
Defined.

Lemma side_after_move_is_color t g from to promotion :
  side_to_move (move_update t g from to promotion) <> 0.
Proof.
  rewrite side_after_move. destruct (side_to_move g =? WHITE); discriminate.
Qed.

Lemma move_status_cases d g r :
  move_status d g = Ok r ->
  (r = CHECKMATE ->
   is_checked d g (side_to_move g) = Ok true /\ can_make_any_move d g = Ok false)
  /\ (r = CHECK ->
      is_checked d g (side_to_move g) = Ok true /\ can_make_any_move d g = Ok true)
  /\ (r = DEFAULT ->
      is_checked d g (side_to_move g) = Ok false
      /\ can_make_any_move d g = Ok true
      /\ halfmove_clock g <> 100
      /\ enough_material g = true
      /\ repetitions g <> 3).
Proof.
  unfold move_status.
  destruct (Z.eqb_spec (repetitions g) 3) as [|R].
  { intros [= <-]. repeat split; discriminate. }
  destruct (enough_material g); cbn [negb].
  2: { intros [= <-]. repeat split; discriminate. }
  destruct (can_make_any_move d g) as [[|]|]; cbn [bind negb]; try discriminate.
  - destruct (Z.eqb_spec (halfmove_clock g) 100) as [|C].
    { intros [= <-]. repeat split; discriminate. }
    destruct (is_checked d g (side_to_move g)) as [[|]|]; cbn [bind];
      try discriminate; intros [= <-]; repeat split; auto; discriminate.
  - destruct (is_checked d g (side_to_move g)) as [[|]|]; cbn [bind];
      try discriminate; intros [= <-]; repeat split; auto; discriminate.
Qed.

(** X2.  The results of [move] are sound.  CHECKMATE: the side now to move
    is in check and has no legal move at all.  CHECK: it is in check and has
    a legal move.  DEFAULT: it is not in check and has a legal move. *)
Theorem move_result_sound d t g from to promotion r g' :
  move d t g from to promotion = Ok (r, g') ->
  (r = CHECKMATE ->
   is_checked d g' (side_to_move g') = Ok true
   /\ forall from' to' p, is_legal_move d g' from' to' p <> Ok true)
  /\ (r = CHECK ->
      is_checked d g' (side_to_move g') = Ok true
      /\ exists from' to' p, is_legal_move d g' from' to' p = Ok true)
  /\ (r = DEFAULT ->
      is_checked d g' (side_to_move g') = Ok false
      /\ exists from' to' p, is_legal_move d g' from' to' p = Ok true).
Proof.
  intros M.
  destruct (move_cases _ _ _ _ _ _ _ _ M) as [(_ & -> & _)|(_ & E & S)].
  { repeat split; discriminate. }
  assert (C : side_to_move g' <> 0) by (rewrite E; apply side_after_move_is_color).
  destruct (move_status_cases _ _ _ S) as (A1 & A2 & A3).
  destruct (can_make_any_move_decides d g' C) as [T F].
  split; [|split].
  - intros R. destruct (A1 R) as [K N]. split; [exact K|exact (F N)].
  - intros R. destruct (A2 R) as [K N]. split; [exact K|].
    destruct (T N) as (f & t' & _ & _ & L). eauto.
  - intros R. destruct (A3 R) as (K & N & _). split; [exact K|].
    destruct (T N) as (f & t' & _ & _ & L). eauto.
Qed.

Lemma move_result_sound_witness :
  let g := position_of "7k/8/6K1/8/8/8/8/1R6 w - - 0 1" in
  let g' := move_update sample_table g (sq "b1") (sq "b8") EMPTY in
  move 3 sample_table g (sq "b1") (sq "b8") EMPTY = Ok (CHECKMATE, g')
  /\ is_checked 3 g' (side_to_move g') = Ok true
  /\ is_legal_move 3 g' (sq "h8") (sq "h7") EMPTY <> Ok true.
Proof.
  intros g g'.
  assert (M : move 3 sample_table g (sq "b1") (sq "b8") EMPTY = Ok (CHECKMATE, g'))
    by (apply move_legal; vm_compute; reflexivity).
  destruct (move_result_sound 3 sample_table g (sq "b1") (sq "b8") EMPTY
              CHECKMATE g' M) as (A & _).
  destruct (A eq_refl) as [K N].
  exact (conj M (conj K (N (sq "h8") (sq "h7") EMPTY))).
Defined.

(** ** What a legal move changes *)

Lemma disable_castling_rights g from :
  let cleared (avail : Z) :=
    if file from =? 4 then EMPTY
    else if file from =? 0 then Z.land avail (Z.lnot QUEEN)
    else if file from =? 7 then Z.land avail (Z.lnot KING)
    else avail in
  white_castling_avail (disable_castling g from)
  = (if rank from =? 0 then cleared (white_castling_avail g)
     else white_castling_avail g)
  /\ black_castling_avail (disable_castling g from)
     = (if rank from =? 7 then cleared (black_castling_avail g)
        else black_castling_avail g).
Proof.
  intros cleared. subst cleared. cbv beta.
  destruct from as [f r]. cbn [file rank].
  unfold disable_castling. cbn [file rank].
  destruct (Z.eqb_spec f 0), (Z.eqb_spec f 4), (Z.eqb_spec f 7),
    (Z.eqb_spec r 0), (Z.eqb_spec r 7);
    try (exfalso; lia); split; reflexivity.
Qed.

(** X3.  The castling rights after a legal move depend on the square the
    piece left and on nothing else: leaving the e-file square of the first
    (eighth) rank clears both of White's (Black's) rights, leaving its a-file
    or h-file square clears the QUEEN or the KING right, and every other move
    keeps all four rights; so a rook captured on its corner leaves its
    owner's right set. *)
Theorem castling_rights_by_origin d t g from to promotion r g' :
  move d t g from to promotion = Ok (r, g') ->
  r <> ILLEGAL ->
  let cleared (avail : Z) :=
    if file from =? 4 then EMPTY
    else if file from =? 0 then Z.land avail (Z.lnot QUEEN)
    else if file from =? 7 then Z.land avail (Z.lnot KING)
    else avail in
  white_castling_avail g'
  = (if rank from =? 0 then cleared (white_castling_avail g)
     else white_castling_avail g)
  /\ black_castling_avail g'
     = (if rank from =? 7 then cleared (black_castling_avail g)
        else black_castling_avail g).
Proof.
  intros M N.
  destruct (move_cases _ _ _ _ _ _ _ _ M) as [(_ & I & _)|(_ & -> & _)];
    [contradiction|].
  destruct (castling_rights_after_move t g from to promotion) as [-> ->].
  apply disable_castling_rights.
Qed.

Lemma castling_rights_by_origin_witness :
  let g := position_of "4k2r/7p/8/8/8/8/1B5P/4K3 w k - 0 1" in
  let g' := move_update sample_table g (sq "b2") (sq "h8") EMPTY in
  move 3 sample_table g (sq "b2") (sq "h8") EMPTY = Ok (DEFAULT, g')
  /\ DEFAULT <> ILLEGAL
  /\ piece_at g (sq "h8") = Z.lor BLACK ROOK
  /\ black_castling_avail g = KING
  /\ black_castling_avail g' = black_castling_avail g.
Proof.
  intros g g'.
  assert (M : move 3 sample_table g (sq "b2") (sq "h8") EMPTY = Ok (DEFAULT, g'))
    by (apply move_legal; vm_compute; reflexivity).
  assert (N : DEFAULT <> ILLEGAL) by discriminate.
  assert (P : piece_at g (sq "h8") = Z.lor BLACK ROOK) by (vm_compute; reflexivity).
  assert (K : black_castling_avail g = KING) by (vm_compute; reflexivity).
  refine (conj M (conj N (conj P (conj K _)))).
  exact (proj2 (castling_rights_by_origin 3 sample_table g (sq "b2") (sq "h8")
                  EMPTY DEFAULT g' M N)).
Defined.

Lemma king_has_way_near att g from to :
  king_has_way att g from to = Ok true ->
  Z.abs (rank from - rank to) <= 1
  /\ (Z.abs (file from - file to) <= 1
      \/ (Z.abs (file from - file to) = 2 /\ rank from = rank to)).
Proof.
  unfold king_has_way, assert.
  destruct (_ =? KING); cbn [bind]; [|discriminate]. cbv zeta.
  destruct (Z.eqb_spec (Z.abs (file from - file to)) 2) as [F|F],
    (Z.eqb_spec (Z.abs (rank from - rank to)) 0) as [R|R]; cbn [andb];
    try (intros _; lia);
    destruct (Z.gtb_spec (Z.abs (file from - file to)) 1),
      (Z.gtb_spec (Z.abs (rank from - rank to)) 1); cbn [orb];
    try discriminate; intros _; lia.
Qed.

Lemma king_type_bits (p : Z) :
  Z.land p PIECE_TYPE = KING -> Z.land p PAWN = 0 /\ Z.land p KING = KING.
Proof.
  intros H. split.
  - rewrite (land_through_mask p PIECE_TYPE PAWN) by reflexivity. now rewrite H.
  - rewrite (land_through_mask p PIECE_TYPE KING) by reflexivity. now rewrite H.
Qed.

(** A piece that has a way and carries the KING bit is a king. *)
Lemma king_bit_type att g from to b :
  piece_has_way att g from to = Ok b ->
  Z.land (piece_at g from) KING <> 0 ->
  Z.land (piece_at g from) PIECE_TYPE = KING.
Proof.
  intros H. apply piece_has_way_type in H. cbv zeta in H.
  rewrite (land_through_mask (piece_at g from) PIECE_TYPE KING) by reflexivity.
  destruct H as [H|[H|[H|[H|[H|H]]]]]; rewrite H; intros E;
    try reflexivity; now elim E.
Qed.

Lemma piece_has_way_king att g from to :
  Z.land (piece_at g from) PIECE_TYPE = KING ->
  piece_has_way att g from to = king_has_way att g from to.
Proof. intros H. unfold piece_has_way. rewrite H. reflexivity. Qed.

Lemma board_before_disable t g from to :
  board (move_castling_rook (disable_castling (record_setup t g) from) from to)
  = board_before_move g from to.
Proof.
  apply move_castling_rook_board.
  destruct (disable_castling_frame (record_setup t g) from) as (-> & _).
  apply record_setup_frame.
Qed.

Lemma update_en_passant_file g from to :
  en_passant_file (update_en_passant g from to)
  = if negb (Z.land (board g (file from) (rank from)) PAWN =? 0)
       && (Z.abs (rank from - rank to) =? 2)
    then file from else -1.
Proof.
  unfold update_en_passant, piece_at, with_en_passant. cbv zeta. fields.
  split_ifs; reflexivity.
Qed.

Lemma en_passant_after_move t g from to promotion :
  en_passant_file (move_update t g from to promotion)
  = if negb (Z.land (board_before_move g from to (file from) (rank from)) PAWN =? 0)
       && (Z.abs (rank from - rank to) =? 2)
    then file from else -1.
Proof.
  rewrite move_update_steps.
  etransitivity; [apply record_position_frame|].
  etransitivity; [apply move_piece_frame|].
  etransitivity; [apply track_fifty_moves_frame|].
  rewrite update_en_passant_file, board_before_disable. reflexivity.
Qed.

(** X4.  After a legal move [en_passant_file] is the file of the moved piece
    when a pawn advanced two ranks, and -1 after every other move; it is set
    whether or not a pawn stands where it could capture. *)
Theorem en_passant_file_after_move d t g from to promotion r g' :
  move d t g from to promotion = Ok (r, g') ->
  r <> ILLEGAL ->
  en_passant_file g'
  = if is_pawn_move g from && (Z.abs (rank from - rank to) =? 2)
    then file from else -1.
Proof.
  intros M N.
  destruct (move_cases _ _ _ _ _ _ _ _ M) as [(_ & I & _)|(L & -> & _)];
    [contradiction|].
  rewrite en_passant_after_move. unfold is_pawn_move.
  apply is_legal_move_true in L. destruct L as (_ & _ & _ & _ & W & _).
  destruct (Z.eq_dec (Z.land (piece_at g from) KING) 0) as [K|K].
  - rewrite (board_before_move_other _ _ _ K). reflexivity.
  - pose proof (king_bit_type _ _ _ _ _ W K) as T.
    rewrite (piece_has_way_king _ _ _ _ T) in W.
    apply king_has_way_near in W. destruct W as [R _].
    destruct (Z.eqb_spec (Z.abs (rank from - rank to)) 2) as [E|E]; [lia|].
    now rewrite !andb_false_r.
Qed.

Lemma en_passant_file_after_move_witness :
  let g := position_of "rnbqkbnr/pppppppp/8/8/8/8/PPPPPPPP/RNBQKBNR w KQkq - 0 1" in
  let g' := move_update sample_table g (sq "e2") (sq "e4") EMPTY in
  move 3 sample_table g (sq "e2") (sq "e4") EMPTY = Ok (DEFAULT, g')
  /\ DEFAULT <> ILLEGAL
  /\ en_passant_file g' = 4.
Proof.
  intros g g'.
  assert (M : move 3 sample_table g (sq "e2") (sq "e4") EMPTY = Ok (DEFAULT, g'))
    by (apply move_legal; vm_compute; reflexivity).
  assert (N : DEFAULT <> ILLEGAL) by discriminate.
  refine (conj M (conj N _)).
  rewrite (en_passant_file_after_move 3 sample_table g (sq "e2") (sq "e4")
             EMPTY DEFAULT g' M N).
  vm_compute. reflexivity.
Defined.

Lemma move_castling_rook_short g from to :
  Z.abs (file to - file from) <> 2 -> move_castling_rook g from to = g.
Proof.
  intros H. unfold move_castling_rook.
  destruct (Z.eqb_spec (file to - file from) 2); [lia|].
  destruct (Z.eqb_spec (file to - file from) (-2)); [lia|].
  now rewrite !andb_false_r.
Qed.

(** A legal move leads to another square. *)
Lemma legal_move_leaves d g from to promotion :
  is_legal_move d g from to promotion = Ok true ->
  file to <> file from \/ rank to <> rank from.
Proof.
  intros L. apply is_legal_move_true in L.
  destruct L as (_ & _ & C & C' & _). unfold piece_at in C, C'.
  destruct (Z.eq_dec (file to) (file from)) as [F|F]; [|now left].
  destruct (Z.eq_dec (rank to) (rank from)) as [R|R]; [|now right].
  rewrite F, R in C'. contradiction.
Qed.

(** X5.  A legal move other than a king's step of two files empties the
    square it leaves, puts the moved piece (or, with a promotion, the
    promoted piece in the mover's color) on the square it reaches, leaves
    every other square of the board as it was, and passes the turn. *)
Theorem legal_move_board d t g from to promotion r g' :
  move d t g from to promotion = Ok (r, g') ->
  r <> ILLEGAL ->
  Z.land (piece_at g from) KING = 0 \/ Z.abs (file to - file from) <> 2 ->
  board g' (file from) (rank from) = EMPTY
  /\ board g' (file to) (rank to)
     = (if promotion =? EMPTY then piece_at g from
        else Z.lor (Z.land promotion (Z.lnot COLOR)) (side_to_move g))
  /\ (forall f r0,
        f <> file from \/ r0 <> rank from ->
        f <> file to \/ r0 <> rank to ->
        board g' f r0 = board g f r0)
  /\ side_to_move g' = (if side_to_move g =? WHITE then BLACK else WHITE).
Proof.
  intros M N K.
  destruct (move_cases _ _ _ _ _ _ _ _ M) as [(_ & I & _)|(L & -> & _)];
    [contradiction|].
  pose proof (legal_move_leaves _ _ _ _ _ L) as D.
  assert (B : board_before_move g from to = board g).
  { destruct K as [K|K]; [now apply board_before_move_other|].
    unfold board_before_move. now rewrite move_castling_rook_short. }
  rewrite side_after_move, board_after_move, B. cbv zeta. unfold piece_at.
  assert (D' : file from <> file to \/ rank from <> rank to) by lia.
  destruct (promotion =? EMPTY); cbn [negb].
  - split; [apply set_board_same|].
    split; [rewrite set_board_other by exact D; apply set_board_same|].
    split; [|reflexivity].
    intros f r0 Hf Ht. now rewrite !set_board_other.
  - split; [rewrite set_board_other by exact D'; apply set_board_same|].
    split; [apply set_board_same|].
    split; [|reflexivity].
    intros f r0 Hf Ht. now rewrite !set_board_other.
Qed.

Lemma legal_move_board_witness :
  let g := position_of "rnbqkbnr/pppppppp/8/8/8/8/PPPPPPPP/RNBQKBNR w KQkq - 0 1" in
  let g' := move_update sample_table g (sq "g1") (sq "f3") EMPTY in
  move 3 sample_table g (sq "g1") (sq "f3") EMPTY = Ok (DEFAULT, g')
  /\ DEFAULT <> ILLEGAL
  /\ (Z.land (piece_at g (sq "g1")) KING = 0
      \/ Z.abs (file (sq "f3") - file (sq "g1")) <> 2)
  /\ board g' (file (sq "g1")) (rank (sq "g1")) = EMPTY.
Proof.
  intros g g'.
  assert (M : move 3 sample_table g (sq "g1") (sq "f3") EMPTY = Ok (DEFAULT, g'))
    by (apply move_legal; vm_compute; reflexivity).
  assert (N : DEFAULT <> ILLEGAL) by discriminate.
  assert (K : Z.land (piece_at g (sq "g1")) KING = 0
              \/ Z.abs (file (sq "f3") - file (sq "g1")) <> 2)
    by (left; vm_compute; reflexivity).
  refine (conj M (conj N (conj K _))).
  exact (proj1 (legal_move_board 3 sample_table g (sq "g1") (sq "f3") EMPTY
                  DEFAULT g' M N K)).
Defined.

Lemma board_before_castling g from to :
  Z.land (piece_at g from) KING <> 0 ->
  (file to - file from = 2 ->
   board_before_move g from to
   = set_board (set_board (board g) 5 (rank from) (board g 7 (rank from)))
               7 (rank from) EMPTY)
  /\ (file to - file from = -2 ->
      board_before_move g from to
      = set_board (set_board (board g) 3 (rank from) (board g 0 (rank from)))
                  0 (rank from) EMPTY).
Proof.
  intros K. apply Z.eqb_neq in K.
  unfold board_before_move, move_castling_rook. split; intros E.
  - rewrite K, E. cbn [negb andb Z.eqb Pos.eqb]. unfold with_board. fields.
    now rewrite andb_false_r.
  - rewrite K, E. cbn [negb andb Z.eqb Pos.eqb]. rewrite K. reflexivity.
Qed.

(** What a legal step of two files by a king has passed. *)
Lemma legal_castling d g from to promotion :
  is_legal_move d g from to promotion = Ok true ->
  Z.land (piece_at g from) KING <> 0 ->
  Z.abs (file to - file from) = 2 ->
  rank to = rank from /\ promotion = EMPTY.
Proof.
  intros L K A. apply is_legal_move_true in L.
  destruct L as (_ & _ & _ & _ & W & P & _).
  pose proof (king_bit_type _ _ _ _ _ W K) as T.
  rewrite (piece_has_way_king _ _ _ _ T) in W.
  apply king_has_way_near in W. destruct W as [_ W].
  split; [lia|].
  unfold promotion_fits in P.
  destruct (king_type_bits _ T) as [Pw _]. rewrite Pw in P.
  cbn [Z.eqb negb andb] in P. now apply Z.eqb_eq.
Qed.

Ltac squares :=
  unfold set_board; cbv beta;
  repeat match goal with
         | |- context [?a =? ?b] => destruct (Z.eqb_spec a b); cbn [andb]
         end;
  try reflexivity; try (exfalso; lia).

(** X6.  Castling from the e-file: the king stands two files further, and
    whatever stood on the corner square of that side, a rook or not, has
    been carried over the king to the f-file or the d-file; the e-file
    square and the corner are empty and every other square is as before. *)
Theorem castling_board d t g from to promotion r g' :
  move d t g from to promotion = Ok (r, g') ->
  r <> ILLEGAL ->
  Z.land (piece_at g from) KING <> 0 ->
  Z.abs (file to - file from) = 2 ->
  file from = 4 ->
  let corner := if file to >? file from then 7 else 0 in
  let rook_to := if file to >? file from then 5 else 3 in
  rank to = rank from
  /\ board g' (file to) (rank from) = piece_at g from
  /\ board g' rook_to (rank from) = board g corner (rank from)
  /\ board g' 4 (rank from) = EMPTY
  /\ board g' corner (rank from) = EMPTY
  /\ (forall f r0,
        r0 <> rank from \/ (f <> 4 /\ f <> file to /\ f <> rook_to /\ f <> corner) ->
        board g' f r0 = board g f r0).
Proof.
  intros M N K A F.
  destruct (move_cases _ _ _ _ _ _ _ _ M) as [(_ & I & _)|(L & -> & _)];
    [contradiction|].
  destruct (legal_castling _ _ _ _ _ L K A) as [R ->].
  destruct (board_before_castling g from to K) as [Bk Bq].
  rewrite board_after_move. change (EMPTY =? EMPTY) with true.
  cbn [negb]. cbv zeta. unfold piece_at. rewrite R.
  destruct (Z.gtb_spec (file to) (file from)) as [G|G].
  - assert (T : file to = 6) by lia.
    rewrite Bk by lia. rewrite T, F.
    repeat match goal with |- _ /\ _ => split end;
      try reflexivity; try (intros f r0 H); squares.
  - assert (T : file to = 2) by lia.
    rewrite Bq by lia. rewrite T, F.
    repeat match goal with |- _ /\ _ => split end;
      try reflexivity; try (intros f r0 H); squares.
Qed.

Lemma castling_board_witness :
  let g := position_of "4k3/7p/8/8/8/8/7P/4K2N w K - 0 1" in
  let g' := move_update sample_table g (sq "e1") (sq "g1") EMPTY in
  move 3 sample_table g (sq "e1") (sq "g1") EMPTY = Ok (DEFAULT, g')
  /\ DEFAULT <> ILLEGAL
  /\ Z.land (piece_at g (sq "e1")) KING <> 0
  /\ Z.abs (file (sq "g1") - file (sq "e1")) = 2
  /\ file (sq "e1") = 4
  /\ piece_at g (sq "h1") = Z.lor WHITE KNIGHT
  /\ board g' 5 (rank (sq "e1")) = board g 7 (rank (sq "e1")).
Proof.
  intros g g'.
  assert (M : move 3 sample_table g (sq "e1") (sq "g1") EMPTY = Ok (DEFAULT, g'))
    by (apply move_legal; vm_compute; reflexivity).
  assert (N : DEFAULT <> ILLEGAL) by discriminate.
  assert (K : Z.land (piece_at g (sq "e1")) KING <> 0) by (vm_compute; discriminate).
  assert (A : Z.abs (file (sq "g1") - file (sq "e1")) = 2) by (vm_compute; reflexivity).
  assert (F : file (sq "e1") = 4) by (vm_compute; reflexivity).
  assert (P : piece_at g (sq "h1") = Z.lor WHITE KNIGHT) by (vm_compute; reflexivity).
  refine (conj M (conj N (conj K (conj A (conj F (conj P _)))))).
  exact (proj1 (proj2 (proj2 (castling_board 3 sample_table g (sq "e1") (sq "g1")
                                EMPTY DEFAULT g' M N K A F)))).
Defined.

(** X7.  [move] does not ask that a castling king stands on the e-file.  A
    king on the f-file that steps two files to the h-file, a legal move when
    its side has the KING right, is overwritten by the piece of the corner
    before it is moved: after the call its square is empty and every other
    square is as before, so the king is on no square of the board. *)
Theorem castling_from_f_file_removes_king d t g from to promotion r g' :
  move d t g from to promotion = Ok (r, g') ->
  r <> ILLEGAL ->
  Z.land (piece_at g from) KING <> 0 ->
  file from = 5 ->
  file to = 7 ->
  forall f r0,
    board g' f r0 = if (f =? 5) && (r0 =? rank from) then EMPTY else board g f r0.
Proof.
  intros M N K F T f r0.
  destruct (move_cases _ _ _ _ _ _ _ _ M) as [(_ & I & _)|(L & -> & _)];
    [contradiction|].
  assert (A : Z.abs (file to - file from) = 2) by lia.
  destruct (legal_castling _ _ _ _ _ L K A) as [R ->].
  destruct (board_before_castling g from to K) as [Bk _].
  rewrite board_after_move. change (EMPTY =? EMPTY) with true.
  cbn [negb]. cbv zeta. rewrite Bk by lia. rewrite R, T, F.
  squares. now subst.
Qed.

Lemma castling_from_f_file_removes_king_witness :
  let g := position_of "4k3/7p/8/8/8/8/P7/5K2 w K - 0 1" in
  let g' := move_update sample_table g (sq "f1") (sq "h1") EMPTY in
  move 3 sample_table g (sq "f1") (sq "h1") EMPTY = Ok (DEFAULT, g')
  /\ DEFAULT <> ILLEGAL
  /\ Z.land (piece_at g (sq "f1")) KING <> 0
  /\ file (sq "f1") = 5
  /\ file (sq "h1") = 7
  /\ board g 7 0 = EMPTY
  /\ board g' 7 0 = board g 7 0.
Proof.
  intros g g'.
  assert (M : move 3 sample_table g (sq "f1") (sq "h1") EMPTY = Ok (DEFAULT, g'))
    by (apply move_legal; vm_compute; reflexivity).
  assert (N : DEFAULT <> ILLEGAL) by discriminate.
  assert (K : Z.land (piece_at g (sq "f1")) KING <> 0) by (vm_compute; discriminate).
  assert (F : file (sq "f1") = 5) by (vm_compute; reflexivity).
  assert (T : file (sq "h1") = 7) by (vm_compute; reflexivity).
  assert (E : board g 7 0 = EMPTY) by (vm_compute; reflexivity).
  refine (conj M (conj N (conj K (conj F (conj T (conj E _)))))).
  exact (castling_from_f_file_removes_king 3 sample_table g (sq "f1") (sq "h1")
           EMPTY DEFAULT g' M N K F T 7 0).
Defined.

(** ** Positions read by [fen_to_game] *)

Lemma piece_of_letter_index c p :
  piece_of_letter c = Some p -> piece_index p <> None.
Proof.
  unfold piece_of_letter.
  repeat (destruct (Ascii.eqb c _);
          [intros [= <-]; vm_compute; discriminate|]).
  discriminate.
Qed.

Lemma in_range_code lo hi c :
  in_range lo hi c = true -> code lo <= code c <= code hi.
Proof. unfold in_range. intros H. apply andb_true_iff in H. lia. Qed.

(** The placement loop stores piece codes, and only on squares of the
    board. *)
Lemma fen_placement_board s : forall b f r b' s',
  0 <= f -> r <= 7 ->
  fen_placement s b f r = Some (b', s') ->
  forall f0 r0,
    b' f0 r0 = b f0 r0
    \/ (on_board f0 r0 = true /\ piece_index (b' f0 r0) <> None).
Proof.
  induction s as [|c s IH]; intros b f r b' s' Hf Hr; cbn [fen_placement];
    [discriminate|].
  destruct (Ascii.eqb c " "); [intros [= <- <-]; now left|].
  destruct (Ascii.eqb c "/"); [apply IH; lia|].
  destruct (Z.gtb_spec f 7) as [G|G]; cbn [orb]; [discriminate|].
  destruct (Z.ltb_spec r 0) as [R|R]; [discriminate|].
  destruct (in_range "1" "8" c) eqn:D.
  { apply in_range_code in D. change (code "1") with 49 in D.
    change (code "0") with 48. apply IH; lia. }
  destruct (piece_of_letter c) as [p|] eqn:P; [|discriminate].
  intros H f0 r0.
  assert (Hf1 : 0 <= f + 1) by lia.
  destruct (IH _ _ _ _ _ Hf1 Hr H f0 r0) as [E|E]; [|now right].
  rewrite E. unfold set_board.
  destruct (Z.eqb_spec f0 f) as [->|]; [|now left].
  destruct (Z.eqb_spec r0 r) as [->|]; [|now left].
  cbn [andb]. right. split.
  - unfold on_board. apply andb_true_iff. split; [|now apply Z.leb_le].
    apply andb_true_iff. split; [|now apply Z.leb_le].
    apply andb_true_iff. split; apply Z.leb_le; lia.
  - now apply piece_of_letter_index in P.
Qed.

Lemma castling_flags_lor (w flag : Z) :
  In w [EMPTY; KING; QUEEN; Z.lor KING QUEEN] ->
  flag = KING \/ flag = QUEEN ->
  In (Z.lor w flag) [EMPTY; KING; QUEEN; Z.lor KING QUEEN].
Proof.
  intros W [-> | ->]; cbn [In] in W;
    destruct W as [<-|[<-|[<-|[<-|[]]]]]; vm_compute; tauto.
Qed.

Lemma fen_castling_flags s : forall w k w' k' s',
  In w [EMPTY; KING; QUEEN; Z.lor KING QUEEN] ->
  In k [EMPTY; KING; QUEEN; Z.lor KING QUEEN] ->
  fen_castling s w k = Some (w', k', s') ->
  In w' [EMPTY; KING; QUEEN; Z.lor KING QUEEN]
  /\ In k' [EMPTY; KING; QUEEN; Z.lor KING QUEEN].
Proof.
  induction s as [|c s IH]; intros w k w' k' s' W K; cbn [fen_castling];
    [discriminate|].
  destruct (Ascii.eqb c " "); [intros [= <- <- <-]; now split|].
  destruct (Ascii.eqb c "-"); [now apply IH|].
  destruct (Ascii.eqb c "K"); [apply IH; auto using castling_flags_lor|].
  destruct (Ascii.eqb c "Q"); [apply IH; auto using castling_flags_lor|].
  destruct (Ascii.eqb c "k"); [apply IH; auto using castling_flags_lor|].
  destruct (Ascii.eqb c "q"); [apply IH; auto using castling_flags_lor|].
  discriminate.
Qed.

Lemma fen_tail_fields s b side w k g :
  fen_tail s b side w k = Ok (Some g) ->
  board g = b /\ side_to_move g = side
  /\ white_castling_avail g = w /\ black_castling_avail g = k
  /\ 0 <= en_passant_file g <= 7
  /\ position_history g = position_history zero_game.
Proof.
  unfold fen_tail. destruct s as [|c s]; [discriminate|].
  assert (T : forall ep at_last,
             0 <= ep <= 7 ->
             match at_last with
             | _ :: _ :: clock =>
                 match scan_int clock with
                 | None => Ok None
                 | Some n =>
                     if (n <? INT_MIN) || (n >? INT_MAX) then Err Overflow
                     else if (n <? 0) || (n >? 100) then Ok None
                     else Ok (Some (mk_game b side w k ep n
                                            (position_history zero_game)))
                 end
             | _ => Err OutOfBounds
             end = Ok (Some g) ->
             board g = b /\ side_to_move g = side
             /\ white_castling_avail g = w /\ black_castling_avail g = k
             /\ 0 <= en_passant_file g <= 7
             /\ position_history g = position_history zero_game).
  { intros ep [|x [|y clock]] E; try discriminate.
    destruct (scan_int clock) as [n|]; [|discriminate].
    destruct ((n <? INT_MIN) || (n >? INT_MAX)); [discriminate|].
    destruct ((n <? 0) || (n >? 100)); [discriminate|].
    intros [= <-]. fields. repeat split; try reflexivity; lia. }
  destruct (in_range "a" "h" c) eqn:A.
  - destruct (Z.ltb_spec (code c - code "a") 0); cbn [orb]; [discriminate|].
    destruct (Z.gtb_spec (code c - code "a") 7); [discriminate|].
    destruct s as [|c2 s]; [discriminate|].
    destruct (in_range "1" "8" c2); [|discriminate].
    intros Hg. refine (T (code c - code "a") (c2 :: s) _ Hg). lia.
  - destruct (Ascii.eqb c "-"); [|discriminate].
    intros Hg. refine (T (en_passant_file zero_game) (c :: s) _ Hg).
    cbn [zero_game en_passant_file]. lia.
Qed.

(** X8.  A position [fen_to_game] returns is well formed: every square
    holds EMPTY or one of the twelve piece codes, and nothing was stored
    outside the 8 x 8 board; the side to move is WHITE or BLACK; each side's
    castling rights are a set of KING and QUEEN; the history is all zero.
    Its [en_passant_file] is a file 0..7, never the -1 that [move] uses for
    none: the field [-] leaves the 0 of [memset], the a-file. *)
Theorem fen_to_game_well_formed fen g :
  fen_to_game fen = Ok (Some g) ->
  (forall f r, board g f r = EMPTY \/ piece_index (board g f r) <> None)
  /\ (forall f r, on_board f r = false -> board g f r = EMPTY)
  /\ (side_to_move g = WHITE \/ side_to_move g = BLACK)
  /\ In (white_castling_avail g) [EMPTY; KING; QUEEN; Z.lor KING QUEEN]
  /\ In (black_castling_avail g) [EMPTY; KING; QUEEN; Z.lor KING QUEEN]
  /\ 0 <= en_passant_file g <= 7
  /\ (forall i, position_history g i = 0).
Proof.
  unfold fen_to_game.
  destruct (fen_placement fen (board zero_game) 0 7) as [[b s]|] eqn:P;
    [|discriminate].
  destruct s as [|side_char [|sep s']]; try discriminate.
  destruct (Ascii.eqb side_char "w" || Ascii.eqb side_char "b"); [|discriminate].
  destruct (negb (Ascii.eqb sep " ")); [discriminate|].
  destruct (fen_castling s' _ _) as [[[w k] s'']|] eqn:C; [|discriminate].
  intros T. apply fen_tail_fields in T.
  destruct T as (-> & -> & -> & -> & E & ->).
  pose proof (fen_placement_board _ _ _ _ _ _ (Z.le_refl 0) (Z.le_refl 7) P) as B.
  apply fen_castling_flags in C; [|now left|now left].
  split; [|split; [|split; [|split; [|split; [|split]]]]].
  - intros f r. destruct (B f r) as [->|[_ I]]; [now left|now right].
  - intros f r O. destruct (B f r) as [->|[I _]]; [reflexivity|congruence].
  - destruct (Ascii.eqb side_char "w"); [now left|now right].
  - apply C.
  - apply C.
  - exact E.
  - reflexivity.
Qed.

Lemma fen_to_game_well_formed_witness :
  let fen := list_ascii_of_string "4k3/8/8/1P6/8/8/8/4K3 w - - 0 1" in
  let g := position_of "4k3/8/8/1P6/8/8/8/4K3 w - - 0 1" in
  fen_to_game fen = Ok (Some g)
  /\ 0 <= en_passant_file g <= 7
  /\ en_passant_file g = 0
  /\ is_legal_move 3 g (sq "b5") (sq "a6") EMPTY = Ok true.
Proof.
  intros fen g.
  assert (F : fen_to_game fen = Ok (Some g)) by (vm_compute; reflexivity).
  assert (E : en_passant_file g = 0) by (vm_compute; reflexivity).
  assert (L : is_legal_move 3 g (sq "b5") (sq "a6") EMPTY = Ok true)
    by (vm_compute; reflexivity).
  refine (conj F (conj _ (conj E L))).
  exact (proj1 (proj2 (proj2 (proj2 (proj2 (proj2
           (fen_to_game_well_formed fen g F))))))).
Defined.

(** ** Material *)

Lemma count_in_cons g p sq l :
  count_in g p (sq :: l)
  = (if piece_at g sq =? p then 1 else 0) + count_in g p l.
Proof.
  unfold count_in. cbn [filter].
  destruct (piece_at g sq =? p); cbn [List.length]; lia.
Qed.

(** The loop of [enough_material] returns at the first pawn, rook or queen,
    and counts the knights and bishops of each side otherwise. *)
Lemma count_minor_spec g l : forall m,
  match count_minor g l m with
  | None => existsb (fun sq => pawn_rook_or_queen (piece_at g sq)) l = true
  | Some m' =>
      existsb (fun sq => pawn_rook_or_queen (piece_at g sq)) l = false
      /\ w_knights m' = w_knights m + count_in g (Z.lor WHITE KNIGHT) l
      /\ b_knights m' = b_knights m + count_in g (Z.lor BLACK KNIGHT) l
      /\ w_bishops m' = w_bishops m + count_in g (Z.lor WHITE BISHOP) l
      /\ b_bishops m' = b_bishops m + count_in g (Z.lor BLACK BISHOP) l
  end.
Proof.
  induction l as [|sq l IH]; intros m; cbn [count_minor existsb].
  { unfold count_in. cbn [filter List.length Z.of_nat]. repeat split; lia. }
  rewrite !count_in_cons. cbv zeta. fold (pawn_rook_or_queen (piece_at g sq)).
  destruct (pawn_rook_or_queen (piece_at g sq)); cbn [orb]; [reflexivity|].
  change (Z.lor WHITE KNIGHT) with 66. change (Z.lor BLACK KNIGHT) with 130.
  change (Z.lor WHITE BISHOP) with 68. change (Z.lor BLACK BISHOP) with 132.
  destruct (Z.eqb_spec (piece_at g sq) 66) as [E|_];
    [|destruct (Z.eqb_spec (piece_at g sq) 130) as [E|_];
      [|destruct (Z.eqb_spec (piece_at g sq) 68) as [E|_];
        [|destruct (Z.eqb_spec (piece_at g sq) 132) as [E|_]]]];
    try rewrite E; cbn [Z.eqb Pos.eqb];
    match goal with
    | |- context [count_minor g l ?m1] =>
        specialize (IH m1); destruct (count_minor g l m1); [|exact IH]
    end;
    cbn [w_knights b_knights w_bishops b_bishops] in IH;
    destruct IH as (H0 & H1 & H2 & H3 & H4);
    change (Z.lor WHITE KNIGHT) with 66 in H1;
    change (Z.lor BLACK KNIGHT) with 130 in H2;
    change (Z.lor WHITE BISHOP) with 68 in H3;
    change (Z.lor BLACK BISHOP) with 132 in H4;
    repeat split; try exact H0; lia.
Qed.

(** X9.  [enough_material] is true exactly when a pawn, a rook or a queen
    stands on the board, or one side has two bishops or more, or one side
    has exactly one bishop and at least one knight; bishops are counted
    whatever the color of their squares, and knights alone, however many,
    are never enough. *)
Theorem enough_material_spec g :
  let wn := count_piece g (Z.lor WHITE KNIGHT) in
  let bn := count_piece g (Z.lor BLACK KNIGHT) in
  let wb := count_piece g (Z.lor WHITE BISHOP) in
  let bb := count_piece g (Z.lor BLACK BISHOP) in
  enough_material g
  = has_pawn_rook_or_queen g
    || (wb >=? 2) || (bb >=? 2)
    || ((wb =? 1) && (wn >=? 1)) || ((bb =? 1) && (bn >=? 1)).
Proof.
  cbv zeta. unfold enough_material, has_pawn_rook_or_queen, count_piece.
  pose proof (count_minor_spec g all_squares (mk_minor 0 0 0 0)) as H.
  destruct (count_minor g all_squares (mk_minor 0 0 0 0)) as [m|].
  - cbn [w_knights b_knights w_bishops b_bishops] in H.
    destruct H as (-> & H1 & H2 & H3 & H4).
    rewrite H1, H2, H3, H4. cbn [orb Z.add].
    generalize (count_in g (Z.lor WHITE KNIGHT) all_squares),
      (count_in g (Z.lor BLACK KNIGHT) all_squares),
      (count_in g (Z.lor WHITE BISHOP) all_squares),
      (count_in g (Z.lor BLACK BISHOP) all_squares).
    intros wn bn wb bb.
    destruct (wb >=? 2), (bb >=? 2); cbn [orb]; try reflexivity.
    destruct (((wb =? 1) && (wn >=? 1)) || ((bb =? 1) && (bn >=? 1)));
      reflexivity.
  - now rewrite H.
Qed.

(** ** Lines of the board *)

(** The loop that walks from [(f, r)] in steps of [(df, dr)] to the square
    [k] steps away, over squares of the board: it returns, and returns
    [true] exactly when the [k] squares before that one are empty. *)
Lemma free_until_steps g (k : nat) : forall (n : nat) f r df dr,
  (k < n)%nat ->
  df <> 0 \/ dr <> 0 ->
  (forall i, 0 <= i < Z.of_nat k -> on_board (f + i * df) (r + i * dr) = true) ->
  exists b,
    free_until g n f r df dr (f + Z.of_nat k * df) (r + Z.of_nat k * dr) = Ok b
    /\ (b = true
        <-> forall i, 0 <= i < Z.of_nat k -> board g (f + i * df) (r + i * dr) = EMPTY).
Proof.
  induction k as [|k IH]; intros n f r df dr Hn Hd Hb;
    (destruct n as [|n]; [lia|]); cbn [free_until].
  - replace (f + Z.of_nat 0 * df) with f by lia.
    replace (r + Z.of_nat 0 * dr) with r by lia.
    rewrite !Z.eqb_refl. cbn [andb]. exists true. split; [reflexivity|].
    split; [intros _ i Hi; lia|reflexivity].
  - assert (N : (f =? f + Z.of_nat (S k) * df) && (r =? r + Z.of_nat (S k) * dr) = false).
    { apply andb_false_iff.
      destruct Hd as [D|D]; [left|right]; apply Z.eqb_neq; nia. }
    rewrite N.
    assert (B0 : on_board f r = true).
    { specialize (Hb 0). replace (f + 0 * df) with f in Hb by lia.
      replace (r + 0 * dr) with r in Hb by lia. apply Hb. lia. }
    rewrite B0. cbn [negb].
    destruct (Z.eqb_spec (board g f r) EMPTY) as [E|E]; cbn [negb].
    + destruct (IH n (f + df) (r + dr) df dr) as (b & Fb & Hb').
      * lia.
      * exact Hd.
      * intros i Hi. specialize (Hb (i + 1)).
        replace (f + df + i * df) with (f + (i + 1) * df) by lia.
        replace (r + dr + i * dr) with (r + (i + 1) * dr) by lia.
        apply Hb. lia.
      * exists b. split.
        { rewrite <- Fb. f_equal; lia. }
        rewrite Hb'. split; intros H i Hi.
        { destruct (Z.eq_dec i 0) as [->|Z0].
          - replace (f + 0 * df) with f by lia.
            replace (r + 0 * dr) with r by lia. exact E.
          - specialize (H (i - 1)).
            replace (f + df + (i - 1) * df) with (f + i * df) in H by lia.
            replace (r + dr + (i - 1) * dr) with (r + i * dr) in H by lia.
            apply H. lia. }
        { specialize (H (i + 1)).
          replace (f + (i + 1) * df) with (f + df + i * df) in H by lia.
          replace (r + (i + 1) * dr) with (r + dr + i * dr) in H by lia.
          apply H. lia. }
    + exists false. split; [reflexivity|].
      split; [discriminate|]. intros H. elim E.
      specialize (H 0). replace (f + 0 * df) with f in H by lia.
      replace (r + 0 * dr) with r in H by lia. apply H. lia.
Qed.

Lemma free_until_to g (k n : nat) f r df dr tf tr :
  (k < n)%nat ->
  df <> 0 \/ dr <> 0 ->
  tf = f + Z.of_nat k * df ->
  tr = r + Z.of_nat k * dr ->
  (forall i, 0 <= i < Z.of_nat k -> on_board (f + i * df) (r + i * dr) = true) ->
  exists b,
    free_until g n f r df dr tf tr = Ok b
    /\ (b = true
        <-> forall i, 0 <= i < Z.of_nat k -> board g (f + i * df) (r + i * dr) = EMPTY).
Proof. intros Hn Hd -> ->. now apply free_until_steps. Qed.

Lemma on_board_iff f r : on_board f r = true <-> 0 <= f <= 7 /\ 0 <= r <= 7.
Proof.
  unfold on_board. rewrite !andb_true_iff, !Z.leb_le. lia.
Qed.

(** X10.  [rook_has_way] between two different squares of the board returns,
    and returns [true] exactly when the squares share a file or a rank and
    every square strictly between them is empty: a rook does not jump. *)
Theorem rook_has_way_spec g from to :
  0 <= file from <= 7 -> 0 <= rank from <= 7 ->
  0 <= file to <= 7 -> 0 <= rank to <= 7 ->
  file from <> file to \/ rank from <> rank to ->
  exists b,
    rook_has_way g from to = Ok b
    /\ (b = true
        <-> (file from = file to
             /\ forall r, Z.min (rank from) (rank to) < r < Z.max (rank from) (rank to) ->
                          board g (file from) r = EMPTY)
            \/ (rank from = rank to
                /\ forall f, Z.min (file from) (file to) < f < Z.max (file from) (file to) ->
                             board g f (rank from) = EMPTY)).
Proof.
  intros Ff Fr Tf Tr D. unfold rook_has_way.
  destruct (Z.eqb_spec (file from) (file to)) as [F|F];
    destruct (Z.eqb_spec (rank from) (rank to)) as [R|R]; cbn [negb andb].
  - lia.
  - set (d := if rank to >? rank from then 1 else -1).
    assert (Hd : (d = 1 /\ rank from < rank to) \/ (d = -1 /\ rank to < rank from)).
    { subst d. destruct (Z.gtb_spec (rank to) (rank from)); lia. }
    destruct (free_until_to g (Z.to_nat (Z.abs (rank to - rank from) - 1)) 8
                (file from) (rank from + d) 0 d (file from) (rank to))
      as (b & Fb & Hb); try lia.
    { intros i Hi. apply on_board_iff. lia. }
    rewrite Fb. cbn [bind]. exists b. split; [destruct b; reflexivity|].
    rewrite Hb. split.
    + intros H. left. split; [exact F|]. intros r Hr.
      specialize (H (Z.abs (r - rank from) - 1)).
      replace (file from + (Z.abs (r - rank from) - 1) * 0) with (file from) in H by lia.
      replace (rank from + d + (Z.abs (r - rank from) - 1) * d) with r in H by lia.
      apply H. lia.
    + intros [[_ H]|[C _]]; [|contradiction]. intros i Hi.
      replace (file from + i * 0) with (file from) by lia. apply H. lia.
  - cbn [bind negb].
    set (d := if file to >? file from then 1 else -1).
    assert (Hd : (d = 1 /\ file from < file to) \/ (d = -1 /\ file to < file from)).
    { subst d. destruct (Z.gtb_spec (file to) (file from)); lia. }
    destruct (free_until_to g (Z.to_nat (Z.abs (file to - file from) - 1)) 8
                (file from + d) (rank from) d 0 (file to) (rank from))
      as (b & Fb & Hb); try lia.
    { intros i Hi. apply on_board_iff. lia. }
    rewrite Fb. cbn [bind]. exists b. split; [destruct b; reflexivity|].
    rewrite Hb. split.
    + intros H. right. split; [exact R|]. intros f Hf.
      specialize (H (Z.abs (f - file from) - 1)).
      replace (rank from + (Z.abs (f - file from) - 1) * 0) with (rank from) in H by lia.
      replace (file from + d + (Z.abs (f - file from) - 1) * d) with f in H by lia.
      apply H. lia.
    + intros [[C _]|[_ H]]; [contradiction|]. intros i Hi.
      replace (rank from + i * 0) with (rank from) by lia. apply H. lia.
  - exists false. split; [reflexivity|]. split; [discriminate|].
    intros [[C _]|[C _]]; contradiction.
Qed.

Lemma rook_has_way_spec_witness :
  let g := position_of "rnbqkbnr/pppppppp/8/8/8/8/PPPPPPPP/RNBQKBNR w KQkq - 0 1" in
  (file (sq "a1") <> file (sq "a3") \/ rank (sq "a1") <> rank (sq "a3"))
  /\ exists b, rook_has_way g (sq "a1") (sq "a3") = Ok b.
Proof.
  intros g.
  assert (D : file (sq "a1") <> file (sq "a3") \/ rank (sq "a1") <> rank (sq "a3"))
    by (right; vm_compute; discriminate).
  split; [exact D|].
  destruct (rook_has_way_spec g (sq "a1") (sq "a3")) as (b & E & _);
    try (vm_compute; split; discriminate); [exact D|].
  exists b. exact E.
Defined.

Lemma way_is_free_spec g (n : nat) : forall f r df dr,
  way_is_free g n f r df dr = true
  <-> forall i, 1 <= i <= Z.of_nat n -> board g (f + i * df) (r + i * dr) = EMPTY.
Proof.
  induction n as [|n IH]; intros f r df dr; cbn [way_is_free].
  { split; [intros _ i Hi; lia|reflexivity]. }
  destruct (Z.eqb_spec (board g (f + df) (r + dr)) EMPTY) as [E|E]; cbn [negb].
  - rewrite IH. split; intros H i Hi.
    + destruct (Z.eq_dec i 1) as [->|N].
      * replace (f + 1 * df) with (f + df) by lia.
        replace (r + 1 * dr) with (r + dr) by lia. exact E.
      * specialize (H (i - 1)).
        replace (f + df + (i - 1) * df) with (f + i * df) in H by lia.
        replace (r + dr + (i - 1) * dr) with (r + i * dr) in H by lia.
        apply H. lia.
    + specialize (H (i + 1)).
      replace (f + (i + 1) * df) with (f + df + i * df) in H by lia.
      replace (r + (i + 1) * dr) with (r + dr + i * dr) in H by lia.
      apply H. lia.
  - split; [discriminate|]. intros H. elim E.
    specialize (H 1). replace (f + 1 * df) with (f + df) in H by lia.
    replace (r + 1 * dr) with (r + dr) in H by lia. apply H. lia.
Qed.

(** X11.  [bishop_has_way] is true exactly when the two squares are as many
    files apart as ranks and every square strictly between them on that
    diagonal is empty; it is true from a square to itself. *)
Theorem bishop_has_way_spec g from to :
  let file_direction := if file to >? file from then 1 else -1 in
  let rank_direction := if rank to >? rank from then 1 else -1 in
  bishop_has_way g from to = true
  <-> Z.abs (file from - file to) = Z.abs (rank from - rank to)
      /\ forall i, 1 <= i < Z.abs (file from - file to) ->
                   board g (file from + i * file_direction)
                           (rank from + i * rank_direction) = EMPTY.
Proof.
  cbv zeta. unfold bishop_has_way.
  destruct (Z.eqb_spec (Z.abs (file from - file to)) (Z.abs (rank from - rank to)))
    as [A|A]; cbn [negb].
  - rewrite way_is_free_spec. split.
    + intros H. split; [exact A|]. intros i Hi. apply H. lia.
    + intros [_ H] i Hi. apply H. lia.
  - split; [discriminate|]. intros [C _]. contradiction.
Qed.

(** ** The attack tests *)

Lemma no_king_found g color :
  forallb (fun sq => negb (board g (file sq) (rank sq) =? Z.lor KING color))
          all_squares = true ->
  forall f r, 0 <= f <= 7 -> 0 <= r <= 7 -> board g f r <> Z.lor KING color.
Proof.
  intros H f r Hf Hr. rewrite forallb_forall in H.
  specialize (H (mk_square f r) (on_board_in_all_squares (mk_square f r) Hf Hr)).
  cbn [file rank] in H. apply negb_true_iff in H. now apply Z.eqb_neq.
Qed.

(** X12.  [is_checked] needs a king: for a color that has no king on the
    board the call fails its assertion, under every depth bound. *)
Theorem is_checked_without_king d g color :
  (forall f r, 0 <= f <= 7 -> 0 <= r <= 7 -> board g f r <> Z.lor KING color) ->
  is_checked d g color = Err AssertFailed.
Proof.
  intros H. unfold is_checked.
  destruct (find _ all_squares) as [king|] eqn:F; [|reflexivity].
  apply find_some in F. destruct F as [I E].
  apply in_all_squares in I. apply Z.eqb_eq in E.
  now elim (H (file king) (rank king)).
Qed.

Lemma is_checked_without_king_witness :
  let g := position_of "4k3/7p/8/8/8/8/P7/5K2 w K - 0 1" in
  let g' := move_update sample_table g (sq "f1") (sq "h1") EMPTY in
  move 3 sample_table g (sq "f1") (sq "h1") EMPTY = Ok (DEFAULT, g')
  /\ is_checked 3 g' WHITE = Err AssertFailed.
Proof.
  intros g g'.
  split; [apply move_legal; vm_compute; reflexivity|].
  apply is_checked_without_king. apply no_king_found.
  vm_compute. reflexivity.
Defined.

(** X13.  [is_attacked_by] looks at every square of the board: when it
    returns true a piece with a bit of [color] has a way to the square, and
    when it returns false no such piece has one. *)
Theorem is_attacked_by_decides d g sq color :
  (is_attacked_by (S d) g sq color = Ok true ->
   exists from,
     (0 <= file from <= 7 /\ 0 <= rank from <= 7)
     /\ Z.land (piece_at g from) color <> 0
     /\ piece_has_way (is_attacked_by d) g from sq = Ok true)
  /\ (is_attacked_by (S d) g sq color = Ok false ->
      forall from,
        0 <= file from <= 7 -> 0 <= rank from <= 7 ->
        Z.land (piece_at g from) color <> 0 ->
        piece_has_way (is_attacked_by d) g from sq = Ok false).
Proof.
  cbn [is_attacked_by]. unfold attackers_scan. split; intros H.
  - apply exists_m_true in H. destruct H as (from & I & H).
    exists from. split; [now apply in_all_squares|]. cbv beta zeta in H.
    destruct (Z.eqb_spec (Z.land (piece_at g from) color) 0) as [E|E];
      cbn [negb] in H; [discriminate|]. now split.
  - intros from Hf Hr C.
    pose proof (exists_m_false _ _ H from (on_board_in_all_squares _ Hf Hr)) as F.
    cbv beta zeta in F. apply Z.eqb_neq in C. now rewrite C in F.
Qed.

Lemma is_attacked_by_decides_witness :
  let g := position_of "7k/8/6K1/8/8/8/8/1R6 w - - 0 1" in
  is_attacked_by 3 g (sq "h8") WHITE = Ok false
  /\ piece_has_way (is_attacked_by 2) g (sq "b1") (sq "h8") = Ok false.
Proof.
  intros g.
  assert (A : is_attacked_by 3 g (sq "h8") WHITE = Ok false)
    by (vm_compute; reflexivity).
  split; [exact A|].
  apply (proj2 (is_attacked_by_decides 2 g (sq "h8") WHITE) A);
    vm_compute; try split; discriminate.
Defined.

(** ** Tokens *)

Lemma strcspn_crlf_all (l : list ascii) :
  Forall (fun c => c <> "013"%char /\ c <> "010"%char) l ->
  strcspn_crlf l = List.length l.
Proof.
  induction 1 as [|c l [N1 N2] _ IH]; cbn [strcspn_crlf List.length]; [reflexivity|].
  apply Ascii.eqb_neq in N1, N2. rewrite N1, N2. cbn [orb]. now rewrite IH.
Qed.

Lemma tolower_crlf (c : ascii) :
  c <> "013"%char /\ c <> "010"%char ->
  tolower c <> "013"%char /\ tolower c <> "010"%char.
Proof.
  destruct c as [[] [] [] [] [] [] [] []]; vm_compute; intros [A B]; split;
    try discriminate; intros _; (now elim A) || (now elim B).
Qed.

Lemma tolower_twice (c : ascii) : tolower (tolower c) = tolower c.
Proof.
  unfold tolower at 1. now rewrite tolower_not_upper.
Qed.

(** X14.  The token [parse_move] leaves is one it reads as its own: a second
    call on the rewritten token, from the same position, cuts nothing,
    changes no letter and returns the same result and position. *)
Theorem parse_move_token_fixed d t g move_str r g' token :
  parse_move d t g move_str = Ok (r, g', token) ->
  parse_move d t g token = Ok (r, g', token).
Proof.
  destruct (strcspn_crlf_spec move_str) as (L & F & _). cbv zeta in L, F.
  unfold parse_move at 1. cbv zeta.
  set (cut := firstn (strcspn_crlf move_str) move_str) in *.
  destruct (Nat.ltb (strcspn_crlf move_str) 4 || Nat.ltb 5 (strcspn_crlf move_str))
    eqn:B.
  - intros [= <- <- <-]. unfold parse_move. cbv zeta.
    rewrite (strcspn_crlf_all cut F), L, B.
    rewrite <- L at 1. now rewrite firstn_all.
  - set (low := map tolower cut).
    assert (Fl : Forall (fun c => c <> "013"%char /\ c <> "010"%char) low).
    { unfold low. apply Forall_map. revert F. apply Forall_impl.
      intros c. apply tolower_crlf. }
    assert (Ll : List.length low = strcspn_crlf move_str).
    { unfold low. now rewrite length_map. }
    assert (Il : map tolower low = low).
    { unfold low. rewrite map_map. apply map_ext. intros c. apply tolower_twice. }
    intros H.
    assert (T : token = low).
    { destruct (token_squares low) as [from to].
      destruct (move d t g from to (token_promotion low)) as [x|e];
        cbn [bind] in H; [|discriminate]. now injection H. }
    subst token. unfold parse_move. cbv zeta.
    assert (Fn : firstn (strcspn_crlf move_str) low = low)
      by (rewrite <- Ll; apply firstn_all).
    rewrite (strcspn_crlf_all low Fl), Ll, B, Fn, Il. exact H.
Qed.

Lemma parse_move_token_fixed_witness :
  let token := list_ascii_of_string "E2E4" ++ ["010"%char] in
  let g' := move_update sample_table setup (sq "e2") (sq "e4") EMPTY in
  parse_move 3 sample_table setup token
  = Ok (DEFAULT, g', list_ascii_of_string "e2e4")
  /\ parse_move 3 sample_table setup (list_ascii_of_string "e2e4")
     = Ok (DEFAULT, g', list_ascii_of_string "e2e4").
Proof.
  intros token g'.
  assert (P : parse_move 3 sample_table setup token
              = Ok (DEFAULT, g', list_ascii_of_string "e2e4")).
  { unfold parse_move. cbv zeta.
    replace (strcspn_crlf token) with 4%nat by (vm_compute; reflexivity).
    cbn [Nat.ltb Nat.leb orb].
    replace (map tolower (firstn 4 token)) with (list_ascii_of_string "e2e4")
      by (vm_compute; reflexivity).
    replace (token_squares (list_ascii_of_string "e2e4"))
      with (sq "e2", sq "e4") by (vm_compute; reflexivity).
    replace (token_promotion (list_ascii_of_string "e2e4")) with EMPTY
      by (vm_compute; reflexivity).
    rewrite (move_legal 3 sample_table setup (sq "e2") (sq "e4") EMPTY DEFAULT);
      [reflexivity|vm_compute; reflexivity|vm_compute; reflexivity]. }
  split; [exact P|].
  exact (parse_move_token_fixed 3 sample_table setup token DEFAULT g' _ P).
Defined.

Lemma move_off_board d t g from to promotion :
  on_board (file from) (rank from) && on_board (file to) (rank to) = false ->
  move d t g from to promotion = Ok (ILLEGAL, g).
Proof.
  intros H. unfold move, is_legal_move.
  replace ((rank from <? 0) || (rank from >? 7) || (file from <? 0) || (file from >? 7)
           || (rank to <? 0) || (rank to >? 7) || (file to <? 0) || (file to >? 7))
    with true; [reflexivity|].
  symmetry. unfold on_board in H. rewrite !Z.gtb_ltb.
  destruct (Z.ltb_spec (rank from) 0), (Z.ltb_spec 7 (rank from)),
    (Z.ltb_spec (file from) 0), (Z.ltb_spec 7 (file from)),
    (Z.ltb_spec (rank to) 0), (Z.ltb_spec 7 (rank to)),
    (Z.ltb_spec (file to) 0), (Z.ltb_spec 7 (file to)); try reflexivity.
  exfalso. apply andb_false_iff in H.
  destruct H as [H|H]; rewrite !andb_false_iff, !Z.leb_gt in H; lia.
Qed.

(** X15.  A token of four or five characters that names a square off the
    board, a file letter outside a..h or a rank digit outside 1..8 once in
    lower case, is answered ILLEGAL, with the position as it was and the
    token in lower case, whatever the position holds. *)
Theorem parse_move_off_board d t g move_str :
  let cut := firstn (strcspn_crlf move_str) move_str in
  let low := map tolower cut in
  (4 <= List.length cut <= 5)%nat ->
  in_range "a" "h" (char_at low 0) && in_range "1" "8" (char_at low 1)
  && in_range "a" "h" (char_at low 2) && in_range "1" "8" (char_at low 3) = false ->
  parse_move d t g move_str = Ok (ILLEGAL, g, low).
Proof.
  intros cut low Len R.
  destruct (strcspn_crlf_spec move_str) as (L & _). cbv zeta in L. fold cut in L.
  unfold parse_move. cbv zeta.
  replace (Nat.ltb (strcspn_crlf move_str) 4 || Nat.ltb 5 (strcspn_crlf move_str))
    with false.
  2: { symmetry. apply orb_false_iff. rewrite <- L. split; apply Nat.ltb_ge; lia. }
  fold cut. fold low. unfold token_squares.
  rewrite move_off_board; [reflexivity|].
  cbn [file rank]. unfold on_board.
  unfold in_range in R. change (code "a") with 97 in *. change (code "h") with 104 in *.
  change (code "1") with 49 in *. change (code "8") with 56 in *.
  generalize dependent (code (char_at low 0)).
  generalize dependent (code (char_at low 1)).
  generalize dependent (code (char_at low 2)).
  generalize dependent (code (char_at low 3)).
  intros c3 c2 c1 c0 R.
  rewrite !andb_false_iff, !Z.leb_gt in *. lia.
Qed.

Lemma parse_move_off_board_witness :
  let token := list_ascii_of_string "i2e4" in
  let cut := firstn (strcspn_crlf token) token in
  (4 <= List.length cut <= 5)%nat
  /\ parse_move 3 sample_table setup token = Ok (ILLEGAL, setup, token).
Proof.
  intros token cut.
  assert (Len : (4 <= List.length cut <= 5)%nat) by (vm_compute; lia).
  split; [exact Len|].
  exact (parse_move_off_board 3 sample_table setup token Len eq_refl).
Defined.

(** ** The history of fingerprints *)

Lemma hash_without_history t g h : hash t (with_history g h) = hash t g.
Proof.
  unfold hash. rewrite (hash_pieces_board t (with_history g h) g eq_refl).
  unfold en_passant_hashed, with_history. fields. reflexivity.
Qed.

Lemma record_position_last t g :
  position_history (record_position t g) (halfmove_clock (record_position t g))
  = hash t (record_position t g).
Proof.
  unfold record_position. rewrite hash_without_history.
  unfold with_history, set_history. fields. now rewrite Z.eqb_refl.
Qed.

Lemma history_at_setup t g from to promotion :
  halfmove_clock g = 0 ->
  halfmove_clock (move_update t g from to promotion) <> 0 ->
  position_history (move_update t g from to promotion) 0 = hash t g.
Proof.
  intros C0 Hi. rewrite move_update_steps in *.
  unfold record_position at 1. unfold with_history, set_history. fields.
  destruct (record_position_frame t
    (move_piece (track_fifty_moves (update_en_passant (move_castling_rook
       (disable_castling (record_setup t g) from) from to) from to) from to)
       from to promotion)) as (_ & _ & _ & _ & _ & Hc).
  rewrite Hc in Hi.
  destruct (Z.eqb_spec 0 (halfmove_clock
    (move_piece (track_fifty_moves (update_en_passant (move_castling_rook
       (disable_castling (record_setup t g) from) from to) from to) from to)
       from to promotion))) as [E|_]; [now elim Hi|].
  destruct (move_piece_frame (track_fifty_moves (update_en_passant (move_castling_rook
       (disable_castling (record_setup t g) from) from to) from to) from to)
       from to promotion) as (_ & _ & _ & _ & ->).
  destruct (track_fifty_moves_frame (update_en_passant (move_castling_rook
       (disable_castling (record_setup t g) from) from to) from to) from to)
    as (_ & _ & _ & _ & _ & ->).
  destruct (update_en_passant_frame (move_castling_rook
       (disable_castling (record_setup t g) from) from to) from to)
    as (_ & _ & _ & _ & _ & ->).
  destruct (move_castling_rook_frame (disable_castling (record_setup t g) from) from to)
    as (_ & _ & _ & _ & _ & ->).
  destruct (disable_castling_frame (record_setup t g) from) as (_ & _ & _ & _ & ->).
  unfold record_setup. rewrite C0. cbn [Z.eqb].
  unfold with_history, set_history. fields. reflexivity.
Qed.

(** X16.  After a legal move the entry of [position_history] at the new
    [halfmove_clock] is the fingerprint of the position the move has left,
    and a move that starts from clock 0 and does not reset it leaves the
    fingerprint of the position it started from in entry 0: the entries
    0..[halfmove_clock] are the positions since the last pawn move or
    capture. *)
Theorem history_records_position d t g from to promotion r g' :
  move d t g from to promotion = Ok (r, g') ->
  r <> ILLEGAL ->
  position_history g' (halfmove_clock g') = hash t g'
  /\ (halfmove_clock g = 0 -> halfmove_clock g' <> 0 ->
      position_history g' 0 = hash t g).
Proof.
  intros M N.
  destruct (move_cases _ _ _ _ _ _ _ _ M) as [(_ & I & _)|(_ & -> & _)];
    [contradiction|].
  split; [|apply history_at_setup].
  rewrite move_update_steps. apply record_position_last.
Qed.

Lemma history_records_position_witness :
  let g := position_of "rnbqkbnr/pppppppp/8/8/8/8/PPPPPPPP/RNBQKBNR w KQkq - 0 1" in
  let g' := move_update sample_table g (sq "g1") (sq "f3") EMPTY in
  move 3 sample_table g (sq "g1") (sq "f3") EMPTY = Ok (DEFAULT, g')
  /\ DEFAULT <> ILLEGAL
  /\ position_history g' (halfmove_clock g') = hash sample_table g'.
Proof.
  intros g g'.
  assert (M : move 3 sample_table g (sq "g1") (sq "f3") EMPTY = Ok (DEFAULT, g'))
    by (apply move_legal; vm_compute; reflexivity).
  assert (N : DEFAULT <> ILLEGAL) by discriminate.
  refine (conj M (conj N _)).
  exact (proj1 (history_records_position 3 sample_table g (sq "g1") (sq "f3")
                  EMPTY DEFAULT g' M N)).
Defined.

(** ** Legal moves of pawns and kings *)

(** X17.  A legal move of a pawn goes forward for the side to move.  On its
    file it goes to an empty square, one rank on, or two ranks on from the
    second (seventh) rank over an empty square.  To a neighbouring file it
    goes one rank on, to a square that is occupied or is the en passant
    square of the position.  A pawn has no other legal move. *)
Theorem legal_pawn_move d g from to promotion :
  is_legal_move d g from to promotion = Ok true ->
  Z.land (piece_at g from) PIECE_TYPE = PAWN ->
  let direction := if side_to_move g =? WHITE then 1 else -1 in
  (file to = file from
   /\ piece_at g to = EMPTY
   /\ (rank to = rank from + direction
       \/ (rank to = rank from + 2 * direction
           /\ rank from = (if side_to_move g =? WHITE then 1 else 6)
           /\ board g (file from) (rank from + direction) = EMPTY)))
  \/ (Z.abs (file to - file from) = 1
      /\ rank to = rank from + direction
      /\ (piece_at g to <> EMPTY
          \/ (file to = en_passant_file g
              /\ rank to = (if side_to_move g =? WHITE then 5 else 2)))).
Proof.
  intros L T. apply is_legal_move_true in L.
  destruct L as (_ & _ & C & _ & W & _).
  rewrite (piece_has_way_pawn _ _ _ _ T) in W. revert W.
  unfold pawn_has_way. pass_assert. cbv zeta. rewrite C.
  set (direction := if side_to_move g =? WHITE then 1 else -1).
  destruct (Z.eqb_spec (file from) (file to)) as [F|F].
  - destruct (Z.eqb_spec (piece_at g to) EMPTY) as [E|E]; cbn [negb];
      [|discriminate].
    destruct (Z.eqb_spec (rank to - rank from) direction) as [A|A]; cbn [andb].
    + intros _. left. split; [auto|]. split; [exact E|]. left. lia.
    + destruct (Z.eqb_spec (rank to - rank from) (2 * direction)) as [A2|A2];
        [|discriminate].
      destruct (Z.eqb_spec (rank from) (if side_to_move g =? WHITE then 1 else 6))
        as [S|S]; cbn [negb]; [|discriminate].
      destruct (Z.eqb_spec (board g (file from)
                  ((if side_to_move g =? WHITE then 1 else 6) + direction)) EMPTY)
        as [B|B]; cbn [negb]; [|discriminate].
      intros _. left. split; [auto|]. split; [exact E|]. right.
      split; [lia|]. split; [exact S|]. now rewrite S.
  - destruct (Z.eqb_spec (Z.abs (file from - file to)) 1) as [A|A]; cbn [negb];
      [|discriminate].
    destruct (Z.eqb_spec (rank to - rank from) direction) as [R|R]; cbn [negb];
      [|discriminate].
    destruct (Z.eqb_spec (piece_at g to) EMPTY) as [E|E]; cbn [negb].
    + destruct (Z.eqb_spec (file to) (en_passant_file g)) as [P|P]; cbn [andb];
        [|discriminate].
      destruct (Z.eqb_spec (rank to) (if side_to_move g =? WHITE then 5 else 2))
        as [Q|Q]; [|discriminate].
      intros _. right. split; [lia|]. split; [lia|]. right. now split.
    + intros _. right. split; [lia|]. split; [lia|]. now left.
Qed.

Lemma legal_pawn_move_witness :
  let g := position_of "rnbqkbnr/pppppppp/8/8/8/8/PPPPPPPP/RNBQKBNR w KQkq - 0 1" in
  is_legal_move 3 g (sq "e2") (sq "e4") EMPTY = Ok true
  /\ Z.land (piece_at g (sq "e2")) PIECE_TYPE = PAWN
  /\ piece_at g (sq "e4") = EMPTY.
Proof.
  intros g.
  assert (L : is_legal_move 3 g (sq "e2") (sq "e4") EMPTY = Ok true)
    by (vm_compute; reflexivity).
  assert (T : Z.land (piece_at g (sq "e2")) PIECE_TYPE = PAWN)
    by (vm_compute; reflexivity).
  refine (conj L (conj T _)).
  destruct (legal_pawn_move 3 g (sq "e2") (sq "e4") EMPTY L T)
    as [(_ & E & _)|(A & _)].
  - exact E.
  - vm_compute in A. discriminate A.
Defined.




(** From another file the king crosses a square that is not tested: a king
    on c1 with the KING right steps to e1, a legal move, over d1, which the
    rook on d8 attacks. *)
Lemma castling_from_c_file_crosses_attacked_square :
  let g := position_of "3r3k/8/8/8/8/8/8/2K5 w K - 0 1" in
  is_legal_move 3 g (sq "c1") (sq "e1") EMPTY = Ok true
  /\ is_attacked_by 3 g (sq "d1") BLACK = Ok true
  /\ is_attacked_by 3 g (sq "f1") BLACK = Ok false.
Proof.
  intros g. split; [vm_compute; reflexivity|]. split; vm_compute; reflexivity.
Qed.

(** ** Well-formed positions stay well formed *)

Lemma board_before_move_values g from to f r :
  0 <= rank from <= 7 ->
  board_before_move g from to f r = board g f r
  \/ (on_board f r = true
      /\ (board_before_move g from to f r = EMPTY
          \/ exists f', board_before_move g from to f r = board g f' (rank from))).
Proof.
  intros R.
  destruct (Z.eq_dec (Z.land (piece_at g from) KING) 0) as [K|K].
  { left. now rewrite board_before_move_other. }
  destruct (Z.eq_dec (Z.abs (file to - file from)) 2) as [A|A].
  2: { left. unfold board_before_move. now rewrite move_castling_rook_short. }
  destruct (board_before_castling g from to K) as [Bk Bq].
  assert (D : file to - file from = 2 \/ file to - file from = -2) by lia.
  destruct D as [D|D]; [rewrite (Bk D)|rewrite (Bq D)]; unfold set_board;
    repeat match goal with
           | |- context [?a =? ?b] => destruct (Z.eqb_spec a b); cbn [andb]
           end;
    try (now left); right;
    (split; [apply on_board_iff; lia|]); eauto.
Qed.

Lemma promoted_piece_value promotion side :
  In promotion [KNIGHT; BISHOP; ROOK; QUEEN] ->
  side = WHITE \/ side = BLACK ->
  square_value (Z.lor (Z.land promotion (Z.lnot COLOR)) side).
Proof.
  intros P S. right. cbn [In] in P.
  destruct S as [-> | ->]; destruct P as [<-|[<-|[<-|[<-|[]]]]];
    vm_compute; discriminate.
Qed.

Lemma castling_flags_cleared a :
  castling_flags a ->
  castling_flags (Z.land a (Z.lnot QUEEN)) /\ castling_flags (Z.land a (Z.lnot KING)).
Proof.
  unfold castling_flags. cbn [In].
  intros [<-|[<-|[<-|[<-|[]]]]]; vm_compute; tauto.
Qed.

(** A position [fen_to_game] returns is well formed. *)
Lemma fen_to_game_gives_well_formed fen g :
  fen_to_game fen = Ok (Some g) -> well_formed g.
Proof.
  unfold fen_to_game.
  destruct (fen_placement fen (board zero_game) 0 7) as [[b s]|] eqn:P;
    [|discriminate].
  destruct s as [|side_char [|sep s']]; try discriminate.
  destruct (Ascii.eqb side_char "w" || Ascii.eqb side_char "b"); [|discriminate].
  destruct (negb (Ascii.eqb sep " ")); [discriminate|].
  destruct (fen_castling s' _ _) as [[[w k] s'']|] eqn:C; [|discriminate].
  intros T. apply fen_tail_fields in T.
  unfold well_formed, square_value, castling_flags.
  destruct T as (-> & -> & -> & -> & E & _).
  pose proof (fen_placement_board _ _ _ _ _ _ (Z.le_refl 0) (Z.le_refl 7) P) as B.
  apply fen_castling_flags in C; [|now left|now left].
  refine (conj _ (conj _ (conj _ (conj (proj1 C) (conj (proj2 C) _))))).
  - intros f r. destruct (B f r) as [->|[_ I]]; [now left|now right].
  - intros f r O. destruct (B f r) as [->|[I _]]; [reflexivity|congruence].
  - destruct (Ascii.eqb side_char "w"); [now left|now right].
  - lia.
Qed.

(** X19.  [move] keeps positions well formed.  From a position whose
    squares hold pieces or nothing, with nothing beside the board, a color
    to move, castling rights that are sets of KING and QUEEN and an
    [en_passant_file] in -1..7, a call with a promotion argument that
    [parse_move] can give leaves such a position again, whatever it
    returns: no store goes beside the board and no square gets a value
    that is not a piece. *)
Theorem move_keeps_well_formed d t g from to promotion r g' :
  well_formed g ->
  In promotion [EMPTY; KNIGHT; BISHOP; ROOK; QUEEN] ->
  move d t g from to promotion = Ok (r, g') ->
  well_formed g'.
Proof.
  intros (Bv & Bo & S & Ww & Wb & E) P M.
  destruct (move_cases _ _ _ _ _ _ _ _ M) as [(_ & _ & ->)|(L & -> & _)].
  { exact (conj Bv (conj Bo (conj S (conj Ww (conj Wb E))))). }
  apply is_legal_move_true in L. destruct L as ((Ff & Fr & Tf & Tr) & _).
  assert (OnF : on_board (file from) (rank from) = true)
    by (apply on_board_iff; lia).
  assert (OnT : on_board (file to) (rank to) = true)
    by (apply on_board_iff; lia).
  assert (V0 : forall f r0, square_value (board_before_move g from to f r0)).
  { intros f r0.
    destruct (board_before_move_values g from to f r0 Fr) as [->|[_ [->|[f' ->]]]];
      [apply Bv|now left|apply Bv]. }
  assert (O0 : forall f r0, on_board f r0 = false ->
                            board_before_move g from to f r0 = EMPTY).
  { intros f r0 O.
    destruct (board_before_move_values g from to f r0 Fr) as [->|[O' _]];
      [now apply Bo|congruence]. }
  unfold well_formed.
  split; [|split; [|split; [|split; [|split]]]].
  - intros f r0. rewrite board_after_move. cbv zeta.
    destruct (Z.eqb_spec promotion EMPTY) as [Pe|Pe]; cbn [negb]; unfold set_board;
      repeat match goal with
             | |- context [?a =? ?b] => destruct (Z.eqb_spec a b); cbn [andb]
             end;
      try apply V0; try (now left).
    all: apply promoted_piece_value; [|exact S];
      cbn [In] in P |- *; destruct P as [P|P]; [now elim Pe|exact P].
  - intros f r0 O. rewrite board_after_move. cbv zeta.
    assert (Nf : f <> file from \/ r0 <> rank from).
    { destruct (Z.eq_dec f (file from)) as [->|]; [|now left].
      destruct (Z.eq_dec r0 (rank from)) as [->|]; [|now right]. congruence. }
    assert (Nt : f <> file to \/ r0 <> rank to).
    { destruct (Z.eq_dec f (file to)) as [->|]; [|now left].
      destruct (Z.eq_dec r0 (rank to)) as [->|]; [|now right]. congruence. }
    destruct (negb (promotion =? EMPTY)); rewrite !set_board_other by assumption;
      now apply O0.
  - rewrite side_after_move. destruct (side_to_move g =? WHITE); auto.
  - destruct (castling_rights_after_move t g from to promotion) as [-> _].
    destruct (disable_castling_rights g from) as [-> _].
    destruct (castling_flags_cleared _ Ww) as [Cq Ck].
    destruct (rank from =? 0); [|exact Ww].
    destruct (file from =? 4); [now left|].
    destruct (file from =? 0); [exact Cq|].
    destruct (file from =? 7); [exact Ck|exact Ww].
  - destruct (castling_rights_after_move t g from to promotion) as [_ ->].
    destruct (disable_castling_rights g from) as [_ ->].
    destruct (castling_flags_cleared _ Wb) as [Cq Ck].
    destruct (rank from =? 7); [|exact Wb].
    destruct (file from =? 4); [now left|].
    destruct (file from =? 0); [exact Cq|].
    destruct (file from =? 7); [exact Ck|exact Wb].
  - rewrite en_passant_after_move. destruct (_ && _); lia.
Qed.

Lemma move_keeps_well_formed_witness :
  let g := position_of "rnbqkbnr/pppppppp/8/8/8/8/PPPPPPPP/RNBQKBNR w KQkq - 0 1" in
  let g' := move_update sample_table g (sq "e2") (sq "e4") EMPTY in
  well_formed g
  /\ In EMPTY [EMPTY; KNIGHT; BISHOP; ROOK; QUEEN]
  /\ move 3 sample_table g (sq "e2") (sq "e4") EMPTY = Ok (DEFAULT, g')
  /\ well_formed g'.
Proof.
  intros g g'.
  assert (W : well_formed g).
  { apply (fen_to_game_gives_well_formed
             (list_ascii_of_string
                "rnbqkbnr/pppppppp/8/8/8/8/PPPPPPPP/RNBQKBNR w KQkq - 0 1")).
    vm_compute. reflexivity. }
  assert (P : In EMPTY [EMPTY; KNIGHT; BISHOP; ROOK; QUEEN]) by (now left).
  assert (M : move 3 sample_table g (sq "e2") (sq "e4") EMPTY = Ok (DEFAULT, g'))
    by (apply move_legal; vm_compute; reflexivity).
  refine (conj W (conj P (conj M _))).
  exact (move_keeps_well_formed 3 sample_table g (sq "e2") (sq "e4") EMPTY
           DEFAULT g' W P M).
Defined.

(** ** More on the results of [move] *)

(** X21.  [move] returns ILLEGAL exactly for the moves [is_legal_move]
    rejects, and then leaves the position as it was; for the moves
    [is_legal_move] accepts it never returns ILLEGAL, and the position it
    leaves has the other side to move. *)
Theorem move_illegal_iff d t g from to promotion r g' :
  move d t g from to promotion = Ok (r, g') ->
  (r = ILLEGAL <-> is_legal_move d g from to promotion = Ok false)
  /\ (r = ILLEGAL -> g' = g)
  /\ (r <> ILLEGAL ->
      is_legal_move d g from to promotion = Ok true
      /\ side_to_move g' = (if side_to_move g =? WHITE then BLACK else WHITE)).
Proof.
  intros M.
  destruct (move_cases _ _ _ _ _ _ _ _ M) as [(L & -> & ->)|(L & -> & S)].
  - split; [tauto|]. split; [reflexivity|]. intros N. now elim N.
  - pose proof (move_status_not_illegal _ _ _ S) as N.
    split; [|split].
    + split; [contradiction|]. rewrite L. discriminate.
    + contradiction.
    + intros _. split; [exact L|apply side_after_move].
Qed.

Lemma move_illegal_iff_witness :
  let g := position_of "rnbqkbnr/pppppppp/8/8/8/8/PPPPPPPP/RNBQKBNR w KQkq - 0 1" in
  move 3 sample_table g (sq "e2") (sq "e5") EMPTY = Ok (ILLEGAL, g)
  /\ is_legal_move 3 g (sq "e2") (sq "e5") EMPTY = Ok false.
Proof.
  intros g.
  assert (M : move 3 sample_table g (sq "e2") (sq "e5") EMPTY = Ok (ILLEGAL, g))
    by (vm_compute; reflexivity).
  split; [exact M|].
  exact (proj1 (proj1 (move_illegal_iff 3 sample_table g (sq "e2") (sq "e5")
                         EMPTY ILLEGAL g M)) eq_refl).
Defined.

(** X22.  The tables of random numbers of [hash] reach the history of
    fingerprints only: under any two fillings of the tables a move leaves
    the same board, side to move, castling rights, en passant file and
    clock, and is ILLEGAL under both or under neither. *)
Theorem move_apart_from_tables d t1 t2 g from to promotion r1 g1 r2 g2 :
  move d t1 g from to promotion = Ok (r1, g1) ->
  move d t2 g from to promotion = Ok (r2, g2) ->
  board g1 = board g2
  /\ side_to_move g1 = side_to_move g2
  /\ white_castling_avail g1 = white_castling_avail g2
  /\ black_castling_avail g1 = black_castling_avail g2
  /\ en_passant_file g1 = en_passant_file g2
  /\ halfmove_clock g1 = halfmove_clock g2
  /\ (r1 = ILLEGAL <-> r2 = ILLEGAL).
Proof.
  intros M1 M2.
  destruct (move_cases _ _ _ _ _ _ _ _ M1) as [(L1 & -> & ->)|(L1 & -> & S1)];
    destruct (move_cases _ _ _ _ _ _ _ _ M2) as [(L2 & -> & ->)|(L2 & -> & S2)];
    try congruence.
  - repeat split; reflexivity.
  - apply move_status_not_illegal in S1, S2.
    rewrite !board_after_move, !side_after_move, !en_passant_after_move,
      !clock_after_move.
    destruct (castling_rights_after_move t1 g from to promotion) as [-> ->].
    destruct (castling_rights_after_move t2 g from to promotion) as [-> ->].
    repeat split; try reflexivity; contradiction.
Qed.

Lemma move_apart_from_tables_witness :
  let g := position_of "rnbqkbnr/pppppppp/8/8/8/8/PPPPPPPP/RNBQKBNR w KQkq - 0 1" in
  let zero := mk_zobrist (fun _ _ _ => 0) (fun _ => 0) (fun _ => 0) 0 in
  let g1 := move_update sample_table g (sq "e2") (sq "e4") EMPTY in
  let g2 := move_update zero g (sq "e2") (sq "e4") EMPTY in
  move 3 sample_table g (sq "e2") (sq "e4") EMPTY = Ok (DEFAULT, g1)
  /\ move 3 zero g (sq "e2") (sq "e4") EMPTY = Ok (DEFAULT, g2)
  /\ board g1 = board g2.
Proof.
  intros g zero g1 g2.
  assert (M1 : move 3 sample_table g (sq "e2") (sq "e4") EMPTY = Ok (DEFAULT, g1))
    by (apply move_legal; vm_compute; reflexivity).
  assert (M2 : move 3 zero g (sq "e2") (sq "e4") EMPTY = Ok (DEFAULT, g2))
    by (apply move_legal; vm_compute; reflexivity).
  refine (conj M1 (conj M2 _)).
  exact (proj1 (move_apart_from_tables 3 sample_table zero g (sq "e2") (sq "e4")
                  EMPTY DEFAULT g1 DEFAULT g2 M1 M2)).
Defined.

(** X23.  No move is legal for a side without a king: when
    [is_legal_move] returns true, the king of the side to move stands on a
    square of the board.  (Without one, each call that passes the tests on
    the piece and its way fails the assertion of [is_checked].) *)
Theorem legal_move_needs_king d g from to promotion :
  is_legal_move d g from to promotion = Ok true ->
  exists f r,
    0 <= f <= 7 /\ 0 <= r <= 7 /\ board g f r = Z.lor KING (side_to_move g).
Proof.
  intros L. apply is_legal_move_true in L.
  destruct L as ((Ff & Fr & _) & _ & _ & _ & _ & _ & K).
  unfold is_checked in K.
  destruct (find _ all_squares) as [king|] eqn:F; [|discriminate].
  apply find_some in F. destruct F as [I E].
  apply in_all_squares in I. apply Z.eqb_eq in E.
  revert E. unfold position_to_check. fields. unfold set_board, piece_at.
  destruct ((file king =? file from) && (rank king =? rank from)).
  { intros E. symmetry in E. apply Z.lor_eq_0_iff in E.
    destruct E as [E _]. discriminate E. }
  destruct ((file king =? file to) && (rank king =? rank to)); intros E.
  - exists (file from), (rank from). now split.
  - exists (file king), (rank king). split; [apply I|]. split; [apply I|exact E].
Qed.

Lemma legal_move_needs_king_witness :
  let g := position_of "rnbqkbnr/pppppppp/8/8/8/8/PPPPPPPP/RNBQKBNR w KQkq - 0 1" in
  is_legal_move 3 g (sq "e2") (sq "e4") EMPTY = Ok true
  /\ exists f r,
       0 <= f <= 7 /\ 0 <= r <= 7 /\ board g f r = Z.lor KING (side_to_move g).
Proof.
  intros g.
  assert (L : is_legal_move 3 g (sq "e2") (sq "e4") EMPTY = Ok true)
    by (vm_compute; reflexivity).
  split; [exact L|].
  exact (legal_move_needs_king 3 g (sq "e2") (sq "e4") EMPTY L).
Defined.

(** ** The clock past 100 *)

(** C9 (what the code does).  [fen_to_game] returns clocks in 0..100, the
    clock 100 too (line 121).  A call of [move] from a clock in 0..100
    leaves it in 0..101, in 0..100 only from 99 or less.  From a clock of
    100 or more a legal move that is neither a pawn move nor a capture
    leaves the clock one higher, stores the fingerprint in
    [position_history] at that index, past the entries 0..100, and is not
    answered DRAW for the clock: the test of line 613 is [== 100]. *)
Theorem halfmove_clock_bounds fen g0 d t g from to promotion r g' :
  (fen_to_game fen = Ok (Some g0) -> 0 <= halfmove_clock g0 <= 100)
  /\ (0 <= halfmove_clock g <= 100 ->
      move d t g from to promotion = Ok (r, g') ->
      0 <= halfmove_clock g' <= 101
      /\ (halfmove_clock g <= 99 -> halfmove_clock g' <= 100)
      /\ (r = ILLEGAL -> halfmove_clock g' = halfmove_clock g)
      /\ (forall i, i <> 0 -> i <> halfmove_clock g' ->
                    position_history g' i = position_history g i))
  /\ (100 <= halfmove_clock g ->
      move d t g from to promotion = Ok (r, g') ->
      r <> ILLEGAL ->
      quiet_move g from to = true ->
      regular_castling g from to = true ->
      halfmove_clock g' = halfmove_clock g + 1
      /\ position_history g' (halfmove_clock g + 1) = hash t g'
      /\ (r = DRAW ->
          repetitions g' = 3 \/ enough_material g' = false
          \/ can_make_any_move d g' = Ok false)).
Proof.
  destruct (halfmove_clock_steps fen g0 d t g from to promotion r g') as [A B].
  split; [exact A|]. split; [exact B|].
  intros Hc M N Q C.
  destruct (move_cases _ _ _ _ _ _ _ _ M) as [(_ & I & _)|(_ & E & S)];
    [contradiction|].
  assert (K : halfmove_clock g' = halfmove_clock g + 1).
  { rewrite E, (clock_after_regular_move t g from to promotion C), Q. reflexivity. }
  split; [exact K|]. split.
  - rewrite <- K, E, move_update_steps. apply record_position_last.
  - intros ->. revert S. unfold move_status.
    destruct (Z.eqb_spec (repetitions g') 3) as [R|R]; [now left|].
    destruct (enough_material g'); cbn [negb]; [|now right; left].
    destruct (can_make_any_move d g') as [[|]|e]; cbn [bind negb];
      [|now right; right|discriminate].
    destruct (Z.eqb_spec (halfmove_clock g') 100) as [H|_]; [lia|].
    destruct (is_checked d g' (side_to_move g')) as [[|]|e]; cbn [bind];
      discriminate.
Qed.

Lemma halfmove_clock_bounds_witness :
  let fen := list_ascii_of_string "4k3/8/8/8/8/8/8/4K2R w - - 100 60" in
  let g := position_of "4k3/8/8/8/8/8/8/4K2R w - - 100 60" in
  let g' := move_update sample_table g (sq "h1") (sq "h2") EMPTY in
  fen_to_game fen = Ok (Some g)
  /\ 0 <= halfmove_clock g <= 100
  /\ 100 <= halfmove_clock g
  /\ move 3 sample_table g (sq "h1") (sq "h2") EMPTY = Ok (DEFAULT, g')
  /\ DEFAULT <> ILLEGAL
  /\ quiet_move g (sq "h1") (sq "h2") = true
  /\ regular_castling g (sq "h1") (sq "h2") = true
  /\ 0 <= halfmove_clock g' <= 101
  /\ halfmove_clock g' = halfmove_clock g + 1
  /\ position_history g' (halfmove_clock g + 1) = hash sample_table g'.
Proof.
  intros fen g g'.
  assert (F : fen_to_game fen = Ok (Some g)) by (vm_compute; reflexivity).
  assert (M : move 3 sample_table g (sq "h1") (sq "h2") EMPTY = Ok (DEFAULT, g'))
    by (apply move_legal; vm_compute; reflexivity).
  assert (H : 100 <= halfmove_clock g) by (vm_compute; discriminate).
  assert (N : DEFAULT <> ILLEGAL) by discriminate.
  assert (Q : quiet_move g (sq "h1") (sq "h2") = true) by (vm_compute; reflexivity).
  assert (C : regular_castling g (sq "h1") (sq "h2") = true)
    by (vm_compute; reflexivity).
  destruct (halfmove_clock_bounds fen g 3 sample_table g (sq "h1") (sq "h2") EMPTY
              DEFAULT g') as (A & B & D).
  destruct (B (A F) M) as (B1 & _).
  destruct (D H M N Q C) as (D1 & D2 & _).
  exact (conj F (conj (A F) (conj H (conj M (conj N (conj Q (conj C
           (conj B1 (conj D1 D2))))))))).
Defined.

(** The clock runs on: a second quiet move from the position the first has
    left, with the clock at 101, leaves it at 102, and is not DRAW either. *)
Lemma halfmove_clock_reaches_102 :
  let g := position_of "4k3/8/8/8/8/8/8/4K2R w - - 100 60" in
  let g1 := move_update sample_table g (sq "h1") (sq "h2") EMPTY in
  (x <- move 3 sample_table g1 (sq "e8") (sq "d8") EMPTY ;;
   Ok (fst x, halfmove_clock (snd x))) = Ok (DEFAULT, 102).
Proof. intros g g1. vm_compute. reflexivity. Qed.
